(** * Biet-O-Matic BE: the extension popup (src/js/popup.js)

    A shallow embedding of the group flags (class [Group]), of the window
    auto-bid arbitration (class [AutoBid]), of the article record handling
    (class [Article]), of the table eviction, update and input handlers
    (class [ArticlesTable]), of the rate limit (class [Popup]) and of the
    icon text colour (class [Favicon]), with the properties of the
    specification stated over it, followed by further properties of the
    code.

    Modelling conventions.
    - A JavaScript object used as a record or dictionary is a finite map from
      property names to values ([gmap string value]): [hasOwnProperty] is
      [is_Some (o !! k)], [delete o.k] is [delete k o], [Object.assign] is a
      right-biased union.  Property order is not observable in the modelled
      code and is not represented.  Object identity is not represented
      either: the only objects the code compares with [===] are a copy read
      from storage or received in a message and an object held in memory,
      which are never identical.
    - Numbers are rationals plus [NaN].  Where the code computes with
      values that need not be whole numbers of milliseconds (the bid time
      and the ids of [getAdjustedBidTime], the buy-now price less one cent
      of the input handler, the number a string of digits stands for, the
      brightness of [Favicon.getContrastYIQ]), the result is rounded to the
      nearest double ([round64]); the time arithmetic of the dead man's
      switch and of the rate limit is on whole numbers of milliseconds,
      where doubles are exact, and is written without the rounding.  The
      infinities are not represented.
    - [browser.storage.sync], [window.sessionStorage] and
      [window.localStorage] are explicit components of a state that every
      operation takes and returns.  An [async] function is run to completion
      when it is called: the interleaving of two windows between a [get] and
      the following [set] is not represented, and [Date.now()] is constant
      during one operation ([Popup.checkRateLimit], which does not work on
      that state, takes its two readings as arguments).  What the storage
      backend does to a value on the way in (serialisation) is not
      represented for [browser.storage]; the [JSON.stringify]/[JSON.parse]
      round trip the code itself performs on [sessionStorage] is. *)

From Stdlib Require Import QArith Qabs Ascii String Lqa.
From stdpp Require Import gmap strings list fin_maps pretty sorting.

Set Warnings "-register-all".
Open Scope string_scope.

(** ** JavaScript values *)

Module Js.

Inductive number :=
  | NaN
  | Num (q : Q).

Inductive value :=
  | VUndefined
  | VNull
  | VBool (b : bool)
  | VNum (n : number)
  | VStr (s : string)
  | VObj (o : gmap string value).

Abbreviation obj := (gmap string value).

Definition num_of_Z (z : Z) : value := VNum (Num (inject_Z z)).

(** *** Arithmetic and comparison on numbers ([NaN] is absorbing, and every
    comparison with [NaN] is false) *)

Definition num_sub (a b : number) : number :=
  match a, b with
  | Num x, Num y => Num (x - y)
  | _, _ => NaN
  end.

Definition num_mul (a b : number) : number :=
  match a, b with
  | Num x, Num y => Num (x * y)
  | _, _ => NaN
  end.

Definition num_div (a b : number) : number :=
  match a, b with
  | Num x, Num y => if Qeq_bool y 0 then NaN else Num (x / y)
  | _, _ => NaN
  end.

Definition num_abs (a : number) : number :=
  match a with
  | Num x => Num (Qabs x)
  | NaN => NaN
  end.

Definition num_lt (a b : number) : bool :=
  match a, b with
  | Num x, Num y => negb (Qle_bool y x)
  | _, _ => false
  end.

Definition num_gt (a b : number) : bool := num_lt b a.

(** *** The arithmetic of doubles

    A double is a rational [m * 2 ^ p] with [|m| <= 2 ^ 53] and
    [-1074 <= p]; the result of an operation is the double nearest to the
    exact result, the one with an even [m] when two are equally near. *)

(** [2 ^ e] *)
Definition pow2 (e : Z) : Q :=
  if (0 <=? e)%Z then inject_Z (2 ^ e)%Z else 1 # Z.to_pos (2 ^ (- e))%Z.

(** [n / d] in units of [2 ^ p], rounded to the nearest integer, to the even
    one of two that are equally near *)
Definition mantissa (p n : Z) (d : positive) : Z :=
  let num := if (0 <=? p)%Z then n else (n * 2 ^ (- p))%Z in
  let den := if (0 <=? p)%Z then (Z.pos d * 2 ^ p)%Z else Z.pos d in
  let m := (num / den)%Z in
  match (2 * (num mod den) ?= den)%Z with
  | Lt => m
  | Gt => (m + 1)%Z
  | Eq => if Z.even m then m else (m + 1)%Z
  end.

(** the exponent [e] of [n / d], for which [2 ^ e <= n / d < 2 ^ (e + 1)] *)
Definition exponent (n : Z) (d : positive) : Z :=
  let e := (Z.log2 n - Z.log2 (Z.pos d))%Z in
  if (n * 2 ^ Z.max 0 (- e) <? Z.pos d * 2 ^ Z.max 0 e)%Z then (e - 1)%Z else e.

(** the double nearest to [q].  An integer of at most 53 bits is a double. *)
Definition round64 (q : Q) : Q :=
  if (Z.pos (Qden q) =? 1)%Z && (Z.abs (Qnum q) <=? 9007199254740992)%Z then q
  else if (Qnum q =? 0)%Z then 0%Q
  else
    let n := Z.abs (Qnum q) in
    let p := Z.max (exponent n (Qden q) - 52) (-1074) in
    let r := (inject_Z (mantissa p n (Qden q)) * pow2 p)%Q in
    Qred (if (Qnum q <? 0)%Z then (- r)%Q else r).

(** [a - b] on doubles *)
Definition double_sub (a b : number) : number :=
  match a, b with
  | Num x, Num y => Num (round64 (x - y))
  | _, _ => NaN
  end.

(** [a * b] on doubles *)
Definition double_mul (a b : number) : number :=
  match a, b with
  | Num x, Num y => Num (round64 (x * y))
  | _, _ => NaN
  end.

(** the literal [0.01] *)
Definition cent : Q := round64 (1 # 100).

(** *** Coercions *)

Definition digit_of (c : ascii) : option Z :=
  let n := Z.of_nat (nat_of_ascii c) in
  if ((48 <=? n) && (n <=? 57))%Z then Some (n - 48)%Z else None.

Fixpoint digits_value (acc : Z) (s : string) : option Z :=
  match s with
  | EmptyString => Some acc
  | String c s' =>
      match digit_of c with
      | Some d => digits_value (10 * acc + d)%Z s'
      | None => None
      end
  end.

(** [Number(s)] for a string.  Only the empty string and strings of decimal
    digits are represented (article ids are such strings, see the test
    [/^[0-9]+$/] in [addArticlesFromStorage]); a sign, a fraction, an
    exponent, a radix prefix or white space are not, and give [NaN] here. *)
Definition string_to_number (s : string) : number :=
  match digits_value 0 s with
  | Some z => Num (round64 (inject_Z z))
  | None => NaN
  end.

(** [ToNumber].  An object gives [NaN] (arrays are not represented). *)
Definition to_number (v : value) : number :=
  match v with
  | VUndefined => NaN
  | VNull => Num 0
  | VBool b => Num (if b then 1 else 0)
  | VNum n => n
  | VStr s => string_to_number s
  | VObj _ => NaN
  end.

(** [String(v)], as a template literal applies it.  Numbers are rendered
    for integers only: for a number that is not integral the numerator and
    the denominator are shown, which is not what JavaScript prints (it does
    not matter below: such a string only ends up in log texts). *)
Definition to_string (v : value) : string :=
  match v with
  | VUndefined => "undefined"
  | VNull => "null"
  | VBool b => if b then "true" else "false"
  | VNum NaN => "NaN"
  | VNum (Num q) =>
      if (Z.pos (Qden q) =? 1)%Z then pretty (Qnum q)
      else pretty (Qnum q) ++ "/" ++ pretty (Z.pos (Qden q))
  | VStr s => s
  | VObj _ => "[object Object]"
  end.

(** [ToBoolean]. *)
Definition truthy (v : value) : bool :=
  match v with
  | VUndefined | VNull => false
  | VBool b => b
  | VNum NaN => false
  | VNum (Num q) => negb (Qeq_bool q 0)
  | VStr s => negb (String.eqb s "")
  | VObj _ => true
  end.

(** [v == null] *)
Definition is_nullish (v : value) : bool :=
  match v with
  | VUndefined | VNull => true
  | _ => false
  end.

(** [a === b] *)
Definition strict_eq (a b : value) : bool :=
  match a, b with
  | VUndefined, VUndefined => true
  | VNull, VNull => true
  | VBool x, VBool y => Bool.eqb x y
  | VNum (Num x), VNum (Num y) => Qeq_bool x y
  | VStr x, VStr y => String.eqb x y
  | _, _ => false
  end.

(** *** Objects *)

(** [o.hasOwnProperty(k)] *)
Definition has_own (o : obj) (k : string) : bool :=
  bool_decide (is_Some (o !! k)).

(** [o.k] on an object *)
Definition get (o : obj) (k : string) : value :=
  default VUndefined (o !! k).

(** the own enumerable properties [Object.assign] copies from a source (the
    characters of a string source are not represented) *)
Definition own_props (v : value) : obj :=
  match v with
  | VObj o => o
  | _ => ∅
  end.

(** [Object.assign(target, source)] *)
Definition assign (target : obj) (source : value) : obj :=
  own_props source ∪ target.

(** [Object.keys(o).length] *)
Definition keys_length (o : obj) : nat := size o.

(** [JSON.parse(JSON.stringify(v))]: a property holding [undefined] is
    dropped and [NaN] becomes [null]; [None] is a value [JSON.stringify]
    leaves out. *)
Fixpoint json (v : value) : option value :=
  match v with
  | VUndefined => None
  | VNum NaN => Some VNull
  | VObj o => Some (VObj (omap json o))
  | _ => Some v
  end.

(** [a + b] on doubles *)
Definition double_add (a b : number) : number :=
  match a, b with
  | Num x, Num y => Num (round64 (x + y))
  | _, _ => NaN
  end.

(** [a / b] on doubles; a division by zero, whose result is an infinity or
    [NaN], is [NaN] here *)
Definition double_div (a b : number) : number :=
  match a, b with
  | Num x, Num y => if Qeq_bool y 0 then NaN else Num (round64 (x / y))
  | _, _ => NaN
  end.

(** *** Relational comparison *)

(** [ToPrimitive]: a plain object is its [toString()] *)
Definition to_primitive (v : value) : value :=
  match v with
  | VObj _ => VStr "[object Object]"
  | _ => v
  end.

(** the abstract relational comparison [a < b]; [None] is the result
    [undefined] it has when an operand is [NaN].  Two strings are compared
    by their code units, everything else as numbers. *)
Definition less_than (a b : value) : option bool :=
  match to_primitive a, to_primitive b with
  | VStr x, VStr y => Some (String.ltb x y)
  | pa, pb =>
      match to_number pa, to_number pb with
      | Num x, Num y => Some (negb (Qle_bool y x))
      | _, _ => None
      end
  end.

(** [a > b] *)
Definition js_gt (a b : value) : bool :=
  match less_than b a with
  | Some true => true
  | _ => false
  end.

(** [a >= b] *)
Definition js_ge (a b : value) : bool :=
  match less_than a b with
  | Some false => true
  | _ => false
  end.

(** *** Completions: a value or a thrown exception *)

Inductive outcome (A : Type) :=
  | Ok (a : A)
  | Throw (e : string).
Arguments Ok {A} a.
Arguments Throw {A} e.

End Js.

(** ** The state of one popup window and the monad of its operations *)

Module Window.
Import Js.

Record window := {
  hostname : string;              (* window.location.hostname *)
  currentWindowId : Z;            (* (await browser.windows.getCurrent()).id *)
  clock : Z;                      (* Date.now() *)
  beWindowId : value;             (* the static field AutoBid.beWindowId *)
  sessionSettings : option obj;   (* JSON.parse(sessionStorage.getItem('settings')) *)
  localStorage : gmap string (list value);  (* window.localStorage: arrays of log entries *)
  syncStorage : obj;              (* browser.storage.sync *)
  table : list obj;               (* the rows of the DataTable, Article objects *)
}.

Definition set_beWindowId (v : value) (w : window) : window :=
  {| hostname := hostname w; currentWindowId := currentWindowId w;
     clock := clock w; beWindowId := v;
     sessionSettings := sessionSettings w; localStorage := localStorage w;
     syncStorage := syncStorage w; table := table w |}.

Definition set_sessionSettings (s : option obj) (w : window) : window :=
  {| hostname := hostname w; currentWindowId := currentWindowId w;
     clock := clock w; beWindowId := beWindowId w;
     sessionSettings := s; localStorage := localStorage w;
     syncStorage := syncStorage w; table := table w |}.

Definition set_localStorage (l : gmap string (list value)) (w : window) : window :=
  {| hostname := hostname w; currentWindowId := currentWindowId w;
     clock := clock w; beWindowId := beWindowId w;
     sessionSettings := sessionSettings w; localStorage := l;
     syncStorage := syncStorage w; table := table w |}.

Definition set_syncStorage (s : obj) (w : window) : window :=
  {| hostname := hostname w; currentWindowId := currentWindowId w;
     clock := clock w; beWindowId := beWindowId w;
     sessionSettings := sessionSettings w; localStorage := localStorage w;
     syncStorage := s; table := table w |}.

Definition set_table (t : list obj) (w : window) : window :=
  {| hostname := hostname w; currentWindowId := currentWindowId w;
     clock := clock w; beWindowId := beWindowId w;
     sessionSettings := sessionSettings w; localStorage := localStorage w;
     syncStorage := syncStorage w; table := t |}.

(** An operation runs on the window state and completes with a value or
    with an exception; the state reached is kept in both cases. *)
Definition M (A : Type) : Type := window → outcome A * window.

Definition ret {A} (a : A) : M A := λ w, (Ok a, w).

Definition bind {A B} (m : M A) (k : A → M B) : M B :=
  λ w, match m w with
       | (Ok a, w') => k a w'
       | (Throw e, w') => (Throw e, w')
       end.

Definition lift {A} (o : outcome A) : M A := λ w, (o, w).

(** [p.catch(e => console.warn(...))] and [try { ... } catch (e) { ... }]
    with a handler that only logs *)
Definition catch {A} (m : M A) : M unit :=
  λ w, (Ok tt, snd (m w)).

Definition gets {A} (f : window → A) : M A := λ w, (Ok (f w), w).
Definition modify (f : window → window) : M unit := λ w, (Ok tt, f w).

Declare Scope js_scope.
Delimit Scope js_scope with js.
Notation "'let*' x ':=' m 'in' k" := (bind m (λ x, k))
  (at level 10, x name, m at level 100, k at level 200) : js_scope.
Notation "m ';;' k" := (bind m (λ _, k))
  (at level 100, k at level 200, right associativity) : js_scope.

(** *** Property access on an arbitrary value: reading from [undefined] or
    [null] throws a [TypeError] *)

Definition member (v : value) (k : string) : outcome value :=
  match v with
  | VUndefined | VNull => Throw "TypeError"
  | VObj o => Ok (get o k)
  | VStr s => if String.eqb k "length"
              then Ok (num_of_Z (Z.of_nat (String.length s)))
              else Ok VUndefined
  | _ => Ok VUndefined
  end.

(** [v.hasOwnProperty(k)] *)
Definition has_own_property (v : value) (k : string) : outcome bool :=
  match v with
  | VUndefined | VNull => Throw "TypeError"
  | VObj o => Ok (has_own o k)
  | VStr s => Ok (String.eqb k "length")
  | _ => Ok false
  end.

(** [delete v.k] *)
Definition delete_property (v : value) (k : string) : outcome value :=
  match v with
  | VUndefined | VNull => Throw "TypeError"
  | VObj o => Ok (VObj (delete k o))
  | _ => Ok v
  end.

(** *** browser.storage.sync *)

(** [await browser.storage.sync.get(key)] *)
Definition sync_get (key : string) : M obj :=
  gets (λ w, match syncStorage w !! key with
             | Some v => {[ key := v ]}
             | None => ∅
             end).

(** [await browser.storage.sync.set(items)] *)
Definition sync_set (items : obj) : M unit :=
  modify (λ w, set_syncStorage (items ∪ syncStorage w) w).

(** [await browser.storage.sync.remove(key)] *)
Definition sync_remove (key : string) : M unit :=
  modify (λ w, set_syncStorage (delete key (syncStorage w)) w).

End Window.

(** ** class AutoBid: the window auto-bid flag and its owner record *)

Module AutoBid.
Import Js Window.
Local Open Scope js_scope.

(** [AutoBid.getId()]: extension host name and browser window id, cached in
    the static field (which the class always owns: it is initialised to
    [null] right after the class body). *)
Definition getId : M value :=
  λ w, if is_nullish (beWindowId w)
       then let id := VStr (hostname w ++ ":" ++ pretty (currentWindowId w)) in
            (Ok id, set_beWindowId id w)
       else (Ok (beWindowId w), w).

(** [AutoBid.getLocalState()] *)
Definition getLocalState : M obj :=
  let info : obj := {[ "autoBidEnabled" := VBool false; "simulation" := VBool false ]} in
  let* result := gets sessionSettings in
  match result with
  | Some r => ret (assign info (VObj r))
  | None => ret info
  end.

(** [Popup.updateSetting(key, value)]; the item is written with
    [JSON.stringify] and read back with [JSON.parse]. *)
Definition updateSetting (key : string) (v : value) : M unit :=
  let* result := gets sessionSettings in
  let result : obj := default ∅ result in
  let result := if has_own result "simulate" then delete "simulate" result else result in
  let result := <[ key := v ]> result in
  modify (set_sessionSettings (Some (omap json result))).

(** [AutoBid.setLocalState(autoBidEnabled, simulation)] *)
Definition setLocalState (autoBidEnabled simulation : value) : M unit :=
  updateSetting "autoBidEnabled" autoBidEnabled ;;
  updateSetting "simulation" simulation.

(** [AutoBid.getSyncState()] *)
Definition getSyncState : M obj :=
  let info : obj := {[ "autoBidEnabled" := VBool false; "id" := VNull; "timestamp" := VNull ]} in
  let* result := sync_get "SETTINGS" in
  if (keys_length result =? 1)%nat && has_own result "SETTINGS" then
    let settingsInfo := get result "SETTINGS" in
    let* b := lift (has_own_property settingsInfo "autoBid") in
    if b then
      let* autoBid := lift (member settingsInfo "autoBid") in
      ret (assign info autoBid)
    else ret info
  else ret info.

(** [AutoBid.setSyncState(autoBidEnabled)] *)
Definition setSyncState (autoBidEnabled : value) : M unit :=
  let* result := sync_get "SETTINGS" in
  let oldSettings :=
    if (keys_length result =? 1)%nat && has_own result "SETTINGS"
    then get result "SETTINGS" else VObj ∅ in
  let* myId := getId in
  let* now := gets clock in
  let newSettings :=
    VObj {[ "autoBid" := VObj {[ "id" := myId;
                                  "autoBidEnabled" := autoBidEnabled;
                                  "timestamp" := num_of_Z now ]} ]} in
  let* newSettings :=
    if is_nullish autoBidEnabled then
      (* dead man switch, outdated entry should be removed *)
      let* _ := lift (delete_property oldSettings "autoBid") in
      ret newSettings
    else if strict_eq autoBidEnabled (VBool false) then
      (* remove the sync autoBid info, but only if the id stored there is ours *)
      let* hasAutoBid := lift (has_own_property oldSettings "autoBid") in
      if hasAutoBid then
        let* autoBid := lift (member oldSettings "autoBid") in
        let* hasId := lift (has_own_property autoBid "id") in
        if hasId then
          let* id := lift (member autoBid "id") in
          if strict_eq id myId
          then lift (delete_property oldSettings "autoBid")
          else ret oldSettings
        else ret oldSettings
      else ret oldSettings
    else ret (VObj (assign (assign ∅ oldSettings) newSettings)) in
  sync_set {[ "SETTINGS" := newSettings ]}.

(** The elements [getDisableMessage] builds. *)
Inductive element :=
  | Span (textContent : string)
  | Anchor (href id textContent : string).

(** [e.outerHTML] (text and attribute values are written as they are: the
    escaping of markup characters is not represented) *)
Definition outerHTML (e : element) : string :=
  let q := String "034"%char "" in
  match e with
  | Span t => "<span>" ++ t ++ "</span>"
  | Anchor h i t =>
      "<a href=" ++ q ++ h ++ q ++ " id=" ++ q ++ i ++ q ++ ">" ++ t ++ "</a>"
  end.

(** [AutoBid.getDisableMessage(otherId, autoBidEnabled, simulation)]
    (the click handler it installs on the link is not represented) *)
Definition getDisableMessage (otherId autoBidEnabled simulation : value) : string :=
  let '(spanPre, link, spanPost) :=
    if truthy simulation || strict_eq autoBidEnabled (VBool false) then
      (Span "Automatikmodus ist in einem ",
       Anchor ("#" ++ to_string otherId) "windowLink" "anderen Fenster",
       Span " aktiv.")
    else
      (Span "Automatikmodus deaktiviert. Er wurde in einem ",
       Anchor ("#" ++ to_string otherId) "windowLink" "anderen Fenster",
       Span " aktiviert.") in
  outerHTML spanPre ++ outerHTML link ++ outerHTML spanPost.

(** [AutoBid.getState()] *)
Definition getState : M obj :=
  let info : obj := {[ "autoBidEnabled" := VBool false; "simulation" := VBool false;
                       "id" := VNull ]} in
  let* localInfo := getLocalState in
  let* syncInfo := getSyncState in
  let* myId := getId in
  let info := assign info (VObj localInfo) in
  if has_own syncInfo "id" && negb (is_nullish (get syncInfo "id"))
     && negb (strict_eq (get syncInfo "id") myId) then
    let info := <[ "messageHtml" :=
                     VStr (getDisableMessage (get syncInfo "id")
                             (get info "autoBidEnabled") (get info "simulation")) ]> info in
    if strict_eq (get info "simulation") (VBool false)
       || strict_eq (get info "autoBid") (VBool true) then
      let info := <[ "autoBidEnabled" := VBool false ]> info in
      setLocalState (get info "autoBidEnabled") VUndefined ;;
      ret info
    else ret info
  else ret info.

(** [AutoBid.renderState()]: only its effect on the state is kept, which is
    that of [getState]; what it draws is not represented. *)
Definition renderState : M unit := catch getState.

(** a parameter with a default value *)
Definition default_arg (v d : value) : value :=
  match v with VUndefined => d | _ => v end.

(** [AutoBid.setState(autoBidEnabled = false, simulation = false)] *)
Definition setState (autoBidEnabled simulation : value) : M unit :=
  let autoBidEnabled := default_arg autoBidEnabled (VBool false) in
  let simulation := default_arg simulation (VBool false) in
  setLocalState autoBidEnabled simulation ;;
  (* do not set sync state if simulation is on *)
  if strict_eq simulation (VBool false) then
    catch (setSyncState autoBidEnabled ;; renderState)
  else renderState.

(** [AutoBid.removeDeadAutoBid()] *)
Definition removeDeadAutoBid : M unit :=
  let* syncState := getSyncState in
  if has_own syncState "timestamp" && negb (is_nullish (get syncState "timestamp")) then
    let* now := gets clock in
    if num_gt (num_div (num_sub (Num (inject_Z now)) (to_number (get syncState "timestamp")))
                 (Num 1000)) (Num 300)
    then setSyncState VNull
    else ret tt
  else ret tt.

(** One run of [AutoBid.deadManSwitch()]; the timer that calls it again
    after 60 seconds is not represented. *)
Definition deadManSwitch : M unit :=
  catch (
    let* localState := getLocalState in
    (if negb (truthy (get localState "simulation")) && truthy (get localState "autoBidEnabled")
     then catch (setSyncState VNull)
     else ret tt) ;;
    catch removeDeadAutoBid).

(** [AutoBid.checkChangeIsRelevant(changeInfo)] *)
Definition checkChangeIsRelevant (changeInfo : value) : M bool :=
  let* hasNewValue := lift (has_own_property changeInfo "newValue") in
  if negb hasNewValue then ret true
  else
    let* newValue := lift (member changeInfo "newValue") in
    let* len := lift (member newValue "length") in
    if num_gt (to_number len) (Num 0) then
      (* AutoBid.hasOwnProperty('beWindowId') holds, see [getId] *)
      let* autoBid := lift (member newValue "autoBid") in
      let* id := lift (member autoBid "id") in
      let* mine := gets beWindowId in
      if strict_eq id mine then ret false else ret true
    else ret true.

End AutoBid.

(** ** class Group: the auto-bid flag of a group of articles

    Group information is stored in synchronized storage under the key
    [GROUPS]: [{ 'name': { autoBid: false }, ... }]. *)

Module Group.
Import Js Window.
Local Open Scope js_scope.

(** [if (name == null || typeof name === 'undefined') name = 'Keine Gruppe'] *)
Definition nameOrDefault (name : value) : value :=
  if is_nullish name then VStr "Keine Gruppe" else name.

(** [Group.getState(name)] *)
Definition getState (name : value) : M bool :=
  (* name=null -> name=Keine Gruppe *)
  let name := to_string (nameOrDefault name) in
  let* result := sync_get "GROUPS" in
  if (keys_length result =? 1)%nat then
    let groupInfo := get result "GROUPS" in
    let* known := lift (has_own_property groupInfo name) in
    if known then
      let* entry := lift (member groupInfo name) in
      let* hasAutoBid := lift (has_own_property entry "autoBid") in
      if hasAutoBid then
        let* autoBid := lift (member entry "autoBid") in
        ret (strict_eq autoBid (VBool true))
      else ret false
    else
      (* no value for this group stored yet *)
      ret false
  else
    (* no groups stored at all *)
    ret false.

(** [Group.setState(name, autoBid = false)] *)
Definition setState (name autoBid : value) : M unit :=
  let autoBid := AutoBid.default_arg autoBid (VBool false) in
  let name := to_string (nameOrDefault name) in
  let* result := sync_get "GROUPS" in
  let groupInfo : obj :=
    if (keys_length result =? 1)%nat then assign ∅ (get result "GROUPS") else ∅ in
  (* check if the autoBid needs to be updated *)
  let* unchanged :=
    if has_own groupInfo name then
      let* hasAutoBid := lift (has_own_property (get groupInfo name) "autoBid") in
      if hasAutoBid then
        let* stored := lift (member (get groupInfo name) "autoBid") in
        ret (strict_eq stored autoBid)
      else ret false
    else ret false in
  if unchanged then ret tt
  else
    let groupInfo := <[ name := VObj {[ "autoBid" := autoBid ]} ]> groupInfo in
    (* store the info back to the storage *)
    sync_set {[ "GROUPS" := VObj groupInfo ]}.


End Group.

(** ** class Article: one tracked auction item

    An [Article] instance is the object with its own properties
    ([articleId], [articleEndTime], [tabId], [popup], ...). *)

Module Article.
Import Js Window.
Local Open Scope js_scope.

(** the properties the constructor takes over from [info] *)
Definition elements : list string :=
  [ "articleAuctionState"; "articleAuctionStateText"; "articleBidCount"; "articleBidPrice";
    "articleCurrency"; "articleBuyPrice"; "articleDescription"; "articleEndTime";
    "articleMinimumBid"; "articlePaymentMethods"; "articleShippingCost";
    "articleShippingMethods"; "articleState" ].

(** [new Article(popup, info, tab)] *)
Definition constructor (popup info tab : value) : outcome obj :=
  match info with
  | VObj i =>
      if negb (has_own i "articleId")
      then Throw "Failed to initialize new Article, articleId missing in info!"
      else
        let this : obj :=
          {[ "articleId" := get i "articleId"; "articleGroup" := VNull;
             "articleMaxBid" := VNull; "articleAutoBid" := VBool false ]} in
        let this :=
          fold_left (λ (this : obj) e, if has_own i e then <[ e := get i e ]> this else this)
            elements this in
        match (if is_nullish tab then Ok this
               else match member tab "id" with
                    | Ok id => Ok (<[ "tabId" := id ]> this)
                    | Throw e => Throw e
                    end) with
        | Ok this => Ok (<[ "articleDetailsShown" := VBool false ]> (<[ "popup" := popup ]> this))
        | Throw e => Throw e
        end
  | VUndefined | VNull =>
      Throw "Failed to initialize new Article, articleId missing in info!"
  | _ => Throw "Failed to initialize new Article, articleId missing in info!"
  end.

(** One step of [Article.convertKeys]:
    [if (info.hasOwnProperty(short)) { info[long] = info[short]; delete info[short]; converted++; }] *)
Definition convertKey (short long : string) (s : obj * nat) : obj * nat :=
  let '(info, converted) := s in
  if has_own info short
  then (delete short (<[ long := get info short ]> info), S converted)
  else (info, converted).

(** [Article.convertKeys(info)]: the record after the conversion and the
    number of converted keys *)
Definition convertKeys (info : obj) : obj * nat :=
  convertKey "group" "articleGroup"
    (convertKey "bidPrice" "articleBidPrice"
      (convertKey "endTime" "articleEndTime"
        (convertKey "description" "articleDescription"
          (convertKey "maxBid" "articleMaxBid"
            (convertKey "minBid" "articleMinBid"
              (convertKey "autoBid" "articleAutoBid" (info, 0%nat))))))).

(** [convertKeys] on a value read from storage: a primitive has no own
    property to convert, [null] makes [hasOwnProperty] throw *)
Definition convertKeys_value (v : value) : outcome value :=
  match v with
  | VUndefined | VNull => Throw "TypeError"
  | VObj o => Ok (VObj (fst (convertKeys o)))
  | _ => Ok v
  end.

(** the key under which an article is stored; [browser.storage] rejects a
    key that is not a string *)
Definition storage_key (articleId : value) : outcome string :=
  match articleId with
  | VStr s => Ok s
  | _ => Throw "TypeError"
  end.

(** [article.getInfoFromStorage()] *)
Definition getInfoFromStorage (this : obj) : M value :=
  let* key := lift (storage_key (get this "articleId")) in
  let* result := sync_get key in
  if (keys_length result =? 1)%nat then ret (get result key) else ret VNull.

(** [s.replace(/,/, '.')]: the first comma becomes a point *)
Fixpoint replace_comma (s : string) : string :=
  match s with
  | EmptyString => EmptyString
  | String c s' => if Ascii.eqb c ","%char then String "."%char s'
                   else String c (replace_comma s')
  end.

(** the text of an entry of [messages] in [messages.join('; ')] *)
Definition join_text (v : value) : string :=
  match v with
  | VUndefined | VNull => ""
  | _ => to_string v
  end.

(** [Article.getDiffMessage(description, oldVal, newVal)].  The parts of a
    message are joined in the order in which the map enumerates the keys of
    [newVal], which need not be the order of insertion.  A [newVal] that is
    a primitive has no keys ([Object.keys] of a string would give its
    indices, which are not represented). *)
Fixpoint getDiffMessage (description : string) (oldVal newVal : value) {struct newVal} : value :=
  match oldVal with
  | VObj o =>
      match newVal with
      | VUndefined | VNull =>
          (* Object.keys throws, the handler answers *)
          VStr (description ++ ": Kann die Unterschiede nicht anzeigen!")
      | VObj n =>
          let diffResult : list value :=
            map_fold (λ key nv (diff : list value),
                        if String.eqb key "articleAuctionState" then diff
                        else if strict_eq (get o key) nv then diff
                        else getDiffMessage key (get o key) nv :: diff) [] n in
          if (0 <? length diffResult)%nat
          then VStr (description ++ ": " ++ String.concat "; " (join_text <$> diffResult))
          else VNull
      | _ => VNull
      end
  | _ =>
      if is_nullish oldVal || strict_eq oldVal newVal
      then VStr (description ++ ": " ++ to_string newVal)
      else VStr (description ++ ": " ++ to_string oldVal ++ " -> " ++ to_string newVal)
  end.

Section Platform.

(** [JSON.stringify] as a text and [Number.parseFloat] are the browser's. *)
Variable stringify : value → string.
Variable parseFloat : string → number.

(** [article.addLog(messageObject)] (the redraw of the row is not represented) *)
Definition addLog (this : obj) (messageObject : obj) : M unit :=
  let* now := gets clock in
  let message : obj :=
    {[ "timestamp" := num_of_Z now; "message" := VStr (stringify (VObj messageObject));
       "component" := VStr "Unbekannt"; "level" := VStr "Interner Fehler" ]} in
  let copy (k : string) (message : obj) : obj :=
    if has_own messageObject k then <[ k := get messageObject k ]> message else message in
  let message := copy "level" (copy "component" (copy "message" (copy "timestamp" message))) in
  let item := "log:" ++ to_string (get this "articleId") in
  let* store := gets localStorage in
  let log := default [] (store !! item) in
  let log := (log ++ [VObj message])%list in
  modify (set_localStorage (<[ item := (λ v, default VNull (json v)) <$> log ]> store)).

(** [article.getLog()] *)
Definition getLog (this : obj) : M (option (list value)) :=
  gets (λ w, localStorage w !! ("log:" ++ to_string (get this "articleId"))).

(** [article.removeAllLogs()] *)
Definition removeAllLogs (this : obj) : M unit :=
  modify (λ w, set_localStorage
                 (delete ("log:" ++ to_string (get this "articleId")) (localStorage w)) w).

(** the record [updateInfoInStorage] makes of the update and the article:
    [Object.assign({}, info)], converted, enhanced with the article, without
    the three properties that are not stored *)
Definition newStoredInfo (this : obj) (info : value) : obj :=
  let newStoredInfo := assign ∅ info in
  let newStoredInfo := fst (convertKeys newStoredInfo) in
  let newStoredInfo := assign newStoredInfo (VObj this) in
  delete "articleDetailsShown" (delete "tabId" (delete "popup" newStoredInfo)).

(** [info.maxBid = Number.parseFloat(info.maxBid.replace(/,/, '.'))] for a
    [maxBid] that is a string *)
Definition maxBid_as_number (info : value) : value :=
  match info with
  | VObj i =>
      match i !! "maxBid" with
      | Some (VStr s) => VObj (<[ "maxBid" := VNum (parseFloat (replace_comma s)) ]> i)
      | _ => info
      end
  | _ => info
  end.

(** [article.updateInfoInStorage(info, tabId = null, onlyIfExists = false)]
    (the message that tells the tab is not represented) *)
Definition updateInfoInStorage (this : obj) (info tabId onlyIfExists : value) : M value :=
  let* key := lift (storage_key (get this "articleId")) in
  let* result := sync_get key in
  let continue (oldStoredInfo : value) : M value :=
    let info := maxBid_as_number info in
    let newStoredInfo := newStoredInfo this info in
    (* merge new info into existing settings *)
    let mergedStoredInfo := assign (assign ∅ oldStoredInfo) (VObj newStoredInfo) in
    let diffText := getDiffMessage "Aktualisiert" oldStoredInfo (VObj newStoredInfo) in
    if negb (strict_eq diffText VNull) then
      addLog this {[ "component" := VStr "Artikel"; "level" := VStr "Einstellungen";
                     "message" := diffText ]} ;;
      sync_set {[ key := VObj mergedStoredInfo ]} ;;
      ret VUndefined
    else ret VUndefined in
  if (keys_length result =? 1)%nat then
    let* oldStoredInfo := lift (convertKeys_value (get result key)) in
    continue oldStoredInfo
  else if strict_eq onlyIfExists (VBool true) then ret (VBool false)
  else continue (VObj ∅).

End Platform.

(** *** Bid time of articles that end together *)

(** [Array.prototype.sort(compare)]: the sort is stable, and for a
    comparator that is a consistent order every stable sort gives the same
    array; this is insertion sort.  [compare(a, b) > 0] puts [b] first. *)
Fixpoint sort_insert {K} (compare : K → K → number) (x : K) (l : list K) : list K :=
  match l with
  | [] => [x]
  | y :: l' => if num_gt (compare x y) (Num 0) then y :: sort_insert compare x l'
               else x :: y :: l'
  end.

Definition sort {K} (compare : K → K → number) (l : list K) : list K :=
  foldr (sort_insert compare) [] l.

(** [filtered[key]] for the object [Object.filter] builds: its keys are row
    indices, enumerated in ascending order *)
Definition filtered_get (filtered : list (nat * obj)) (key : nat) : obj :=
  match list_find (λ e, fst e = key) filtered with
  | Some (_, e) => snd e
  | None => ∅
  end.

(** the local function [findKey(obj, value)] *)
Definition findKey (o : list (nat * obj)) (v : value) : option nat :=
  fold_left (λ key e, if strict_eq (get (snd e) "articleId") v then Some (fst e) else key)
    o None.

(** [keys.indexOf(idx)] *)
Definition indexOf (keys : list nat) (idx : option nat) : Z :=
  match idx with
  | None => -1
  | Some k => match list_find (λ k', k' = k) keys with
              | Some (i, _) => Z.of_nat i
              | None => -1
              end
  end.

(** the predicate of the filter: the article ends within a second of [this] *)
Definition endsWith (this article : obj) : bool :=
  if negb (has_own article "articleEndTime") then false
  else num_lt (num_abs (double_sub (to_number (get article "articleEndTime"))
                                   (to_number (get this "articleEndTime"))))
              (Num 1000).

(** [article.getAdjustedBidTime()].  [rows()] gives an API object, never
    [null]; the keys of [rows().data()] that are not row indices hold
    functions and settings, which have no [articleEndTime] and do not pass
    the filter, so that [articles] is the list of the rows.  [filtered] is a
    plain object: it has no [length], which reads as [undefined]. *)
Definition getAdjustedBidTime (this : obj) : M value :=
  let* articles := gets table in
  let filtered : list (nat * obj) :=
    filter (λ e, endsWith this (snd e) = true) (imap (λ i a, (i, a)) articles) in
  let filtered_length := VUndefined in
  (* only one article, no need to modify *)
  if strict_eq filtered_length (num_of_Z 1) then ret (get this "articleEndTime")
  else
    (* sort by articleId *)
    let keys :=
      sort (λ a b, double_sub (to_number (get (filtered_get filtered a) "articleId"))
                              (to_number (get (filtered_get filtered b) "articleId")))
           (fst <$> filtered) in
    (* the index determines how many seconds an article bid will be earlier *)
    let idx := findKey filtered (get this "articleId") in
    ret (VNum (double_sub (to_number (get this "articleEndTime"))
                 (double_mul (double_mul (Num (inject_Z (indexOf keys idx))) (Num 2))
                    (Num 1000)))).

(** *** Loading, merging and removing the record of an article *)

(** [article.removeInfoFromStorage()]: the result is the article after the
    call *)
Definition removeInfoFromStorage (this : obj) : M obj :=
  let* key := lift (storage_key (get this "articleId")) in
  sync_remove key ;;
  let this := <[ "articleGroup" := VNull ]> this in
  let this := <[ "articleMaxBid" := VNull ]> this in
  let this := <[ "articleAutoBid" := VBool false ]> this in
  ret this.

(** [article.addInfoFromStorage()]: the result is the article after the
    call *)
Definition addInfoFromStorage (this : obj) : M obj :=
  let* key := lift (storage_key (get this "articleId")) in
  let* result := sync_get key in
  if (keys_length result =? 1)%nat then
    let* storInfo := lift (convertKeys_value (get result key)) in
    (* add the info to the current article object *)
    ret (assign this storInfo)
  else ret this.

(** the properties [updateInfo] compares one after the other, each with the
    description its log message starts with *)
Definition updatedFields : list (string * string) :=
  [ ("Beschreibung", "articleDescription"); ("Auktionspreis", "articleBidPrice");
    ("Anzahl Gebote", "articleBidCount"); ("Kaufpreis", "articleBuyPrice");
    ("Lieferkosten", "articleShippingCost"); ("Liefermethoden", "articleShippingMethods");
    ("Minimal Gebot", "articleMinimumBid"); ("Auktionsende", "articleEndTime") ].

(** one step of [updateInfo]:
    [if (info.hasOwnProperty(k) && info[k] !== this[k]) { messages.push(...); this[k] = info[k]; modified++; }] *)
Definition updateField (info : obj) (s : obj * list value * nat) (f : string * string)
  : obj * list value * nat :=
  let '(this, messages, modified) := s in
  let '(description, k) := f in
  if has_own info k && negb (strict_eq (get info k) (get this k))
  then (<[ k := get info k ]> this,
        (messages ++ [getDiffMessage description (get this k) (get info k)])%list,
        S modified)
  else s.

(** the last step, for [articleAuctionState], which takes the state text
    along *)
Definition updateAuctionState (info : obj) (s : obj * list value * nat)
  : obj * list value * nat :=
  let '(this, messages, modified) := s in
  if has_own info "articleAuctionState"
     && negb (strict_eq (get info "articleAuctionState") (get this "articleAuctionState"))
  then
    let message := getDiffMessage "Status" (get this "articleAuctionStateText")
                     (get info "articleAuctionStateText") in
    let this := <[ "articleAuctionState" := get info "articleAuctionState" ]> this in
    let this :=
      if has_own info "articleAuctionStateText"
      then <[ "articleAuctionStateText" := get info "articleAuctionStateText" ]> this
      else <[ "articleAuctionStateText" := VStr "oops" ]> this in
    (this, (messages ++ [message])%list, S modified)
  else s.

(** the steps of [updateInfo] before the log entry: the article, the
    messages and the number of modifications *)
Definition mergeInfo (this info : obj) (tabId : value) : obj * list value * nat :=
  let s : obj * list value * nat :=
    (* new tabId *)
    if negb (is_nullish tabId) && negb (strict_eq tabId (get this "tabId"))
    then (<[ "tabId" := tabId ]> this, [getDiffMessage "Tab" (get this "tabId") tabId], 1%nat)
    else (this, [], 0%nat) in
  updateAuctionState info (fold_left (updateField info) updatedFields s).

Section Merge.

Variable stringify : value → string.

(** [article.updateInfo(info, tabId)] for an [info] that is an object: the
    article after the call and the number of modifications it returns *)
Definition updateInfo (this info : obj) (tabId : value) : M (obj * nat) :=
  let '(this, messages, modified) := mergeInfo this info tabId in
  if (0 <? modified)%nat then
    addLog stringify this
      {[ "component" := VStr "Artikel"; "level" := VStr "Aktualisierung";
         "message" := VStr (String.concat "; " (join_text <$> messages)) ]} ;;
    ret (this, modified)
  else ret (this, modified).

End Merge.

(** [article.activateAutoBid()] *)
Definition activateAutoBid (this : obj) : bool :=
  let isMinBidLargerOrEqualBidPrice :=
    js_ge (get this "articleMinimumBid") (get this "articleBidPrice") in
  let isMaxBidLargerOrEqualMinBid :=
    js_ge (get this "articleMaxBid") (get this "articleMinimumBid") in
  let isMaxBidLargerThanBidPrice :=
    js_gt (get this "articleMaxBid") (get this "articleBidPrice") in
  if isMinBidLargerOrEqualBidPrice then isMaxBidLargerOrEqualMinBid
  else if isMaxBidLargerThanBidPrice then true
  else false.

End Article.

(** ** class Popup: the rate limit

    The class is declared after [ArticlesTable], whose [reloadTab] calls
    it. *)

Module Popup.
Import Js.

(** [Popup.rateLimit]: for a name and a key, the time of the last run *)
Definition rate_limits := gmap string (gmap string Z).

(** [Popup.checkRateLimit(name, key, limitMs)]: whether the rate limit
    applies, and [Popup.rateLimit] after the call.  [now] is what
    [Date.now()] gives where the time is compared with the last run, [now']
    what it gives where the run is recorded. *)
Definition checkRateLimit (name : string) (key : value) (limitMs now now' : Z)
    (rateLimit : rate_limits) : bool * rate_limits :=
  let key := to_string key in
  match rateLimit !! name ≫= λ times, times !! key with
  | Some last =>
      if (now - last <? limitMs)%Z then (true, rateLimit)
      else (false, <[ name := <[ key := now' ]> (default ∅ (rateLimit !! name)) ]> rateLimit)
  | None =>
      (false, <[ name := <[ key := now' ]> ∅ ]> rateLimit)
  end.

End Popup.

(** ** class Favicon: the colour of the text on the icon *)

Module Favicon.
Import Js.

(** the value of a digit in radix 16 *)
Definition hex_digit (c : ascii) : option Z :=
  let n := Z.of_nat (nat_of_ascii c) in
  if ((48 <=? n) && (n <=? 57))%Z then Some (n - 48)%Z
  else if ((97 <=? n) && (n <=? 102))%Z then Some (n - 87)%Z
  else if ((65 <=? n) && (n <=? 70))%Z then Some (n - 55)%Z
  else None.

(** white space [parseInt] skips (the characters outside ASCII are not
    represented) *)
Definition is_space (c : ascii) : bool :=
  let n := nat_of_ascii c in
  ((9 <=? n) && (n <=? 13))%nat || (n =? 32)%nat.

Fixpoint skip_space (s : string) : string :=
  match s with
  | String c s' => if is_space c then skip_space s' else s
  | EmptyString => s
  end.

(** the digits at the front of [s]: their value, if there is one *)
Fixpoint hex_prefix (acc : option Z) (s : string) : option Z :=
  match s with
  | String c s' =>
      match hex_digit c with
      | Some d => hex_prefix (Some (16 * default 0%Z acc + d)%Z) s'
      | None => acc
      end
  | EmptyString => acc
  end.

(** [parseInt(s, 16)] *)
Definition parseInt16 (s : string) : number :=
  let s := skip_space s in
  let '(sign, s) :=
    match s with
    | String "-"%char s' => ((-1)%Z, s')
    | String "+"%char s' => (1%Z, s')
    | _ => (1%Z, s)
    end in
  let s :=
    match s with
    | String "0"%char (String "x"%char s') => s'
    | String "0"%char (String "X"%char s') => s'
    | _ => s
    end in
  match hex_prefix None s with
  | Some z => Num (inject_Z (sign * z))
  | None => NaN
  end.

(** [Favicon.getContrastYIQ(hexcolor)] *)
Definition getContrastYIQ (hexcolor : string) : string :=
  let r := parseInt16 (String.substring 0 2 hexcolor) in
  let g := parseInt16 (String.substring 2 2 hexcolor) in
  let b := parseInt16 (String.substring 4 2 hexcolor) in
  (* http://www.w3.org/TR/AERT#color-contrast *)
  let yiq := double_div (double_add (double_add (double_mul r (Num 299))
                                                   (double_mul g (Num 587)))
                                       (double_mul b (Num 114))) (Num 1000) in
  if js_ge (VNum yiq) (VNum (Num 128)) then "black" else "white".

End Favicon.

(** ** class ArticlesTable: the rows and their event handlers *)

Module ArticlesTable.
Import Js Window.
Local Open Scope js_scope.

(** [table.getArticleIdByTabId(tabId)] *)
Definition getArticleIdByTabId (tabId : value) : M value :=
  let* articles := gets table in
  ret (fold_left (λ articleId (article : obj),
                    if strict_eq (get article "tabId") tabId
                    then get article "articleId" else articleId)
         articles VNull).

(** [this.DataTable.row(`#${articleId}`)]: the table is configured with
    [rowId: 'articleId'], the selector finds the row by that id (the first
    one here, should two rows carry the same id) *)
Definition row (selector : string) : M (option nat) :=
  let* articles := gets table in
  ret (fst <$> list_find (λ article : obj,
                            "#" ++ to_string (get article "articleId") = selector) articles).

(** the test of [removeArticleIfBoring] on what storage holds for the article *)
Definition keepArticle (storageInfo : value) : outcome bool :=
  if is_nullish storageInfo then Ok false
  else
    match has_own_property storageInfo "articleMaxBid" with
    | Throw e => Throw e
    | Ok false => Ok false
    | Ok true =>
        match member storageInfo "articleMaxBid", member storageInfo "articleGroup" with
        | Ok maxBid, Ok group => Ok (negb (is_nullish maxBid) || negb (is_nullish group))
        | Throw e, _ | _, Throw e => Throw e
        end
    end.

(** [table.removeArticleIfBoring(tabId)] *)
Definition removeArticleIfBoring (tabId : value) : M unit :=
  (* find articleId by tabId *)
  let* articleId := getArticleIdByTabId tabId in
  if is_nullish articleId then ret tt
  else
    let* r := row ("#" ++ to_string articleId) in
    let* articles := gets table in
    match r ≫= λ i, (λ a, (i, a)) <$> articles !! i with
    | None => ret tt
    | Some (i, article) =>
        let article := <[ "tabId" := VNull ]> article in
        modify (set_table (<[ i := article ]> articles)) ;;
        (* retrieve article info from storage (maxBid) *)
        let* storageInfo := Article.getInfoFromStorage article in
        let* keep := lift (keepArticle storageInfo) in
        if keep then ret tt
        else (* remove from table *)
          modify (λ w, set_table (delete i (table w)) w)
    end.

(** [s.replace(pattern, replacement)] for a pattern that is a string: the
    first occurrence is replaced *)
Fixpoint replace_first (pattern replacement s : string) : string :=
  if String.prefix pattern s
  then replacement ++
       String.substring (String.length pattern) (String.length s - String.length pattern) s
  else match s with
       | EmptyString => EmptyString
       | String c s' => String c (replace_first pattern replacement s')
       end.

Section Platform.

Variable stringify : value → string.
Variable parseFloat : string → number.

(** the branch of the input handler for [inpMaxBid_...]: the entry is
    parsed and checked against the buy-now price and the minimum bid *)
Definition maxBidEntered (entered : string) (article : obj) : obj :=
  let article := <[ "articleMaxBid" := VNum (parseFloat (Article.replace_comma entered)) ]> article in
  (* check if maxBid > buyPrice (sofortkauf), then adjust it to the buyprice - 1 cent *)
  if has_own article "articleBuyPrice"
     && num_gt (to_number (get article "articleMaxBid"))
               (to_number (get article "articleBuyPrice"))
  then <[ "articleMaxBid" :=
            VNum (double_sub (to_number (get article "articleBuyPrice")) (Num cent)) ]> article
  else if has_own article "articleMinimumBid"
          && num_lt (to_number (get article "articleMaxBid"))
                    (to_number (get article "articleMinimumBid"))
  then <[ "articleMaxBid" := get article "articleMinimumBid" ]> article
  else article.

(** the handler of [change] on the inputs of a row ([e.target.id],
    [e.target.value], [e.target.checked]); the redraw is not represented *)
Definition inputChanged (targetId targetValue : string) (targetChecked : bool) : M unit :=
  (* parse articleId from id of both inputs *)
  let articleId :=
    replace_first "inpGroup_" ""
      (replace_first "inpMaxBid_" "" (replace_first "chkAutoBid_" "" targetId)) in
  (* determine row by articleId *)
  let* r := row ("#" ++ articleId) in
  let* articles := gets table in
  match r ≫= λ i, (λ a, (i, a)) <$> articles !! i with
  | None => ret tt
  | Some (i, article) =>
      let article : obj :=
        if String.prefix "inpMaxBid_" targetId then maxBidEntered targetValue article
        else if String.prefix "chkAutoBid_" targetId then
          <[ "articleAutoBid" := VBool targetChecked ]> article
        else if String.prefix "inpGroup_" targetId then
          if String.eqb targetValue ""
          then <[ "articleGroup" := VUndefined ]> article
          else <[ "articleGroup" := VStr targetValue ]> article
        else article in
      modify (set_table (<[ i := article ]> articles)) ;;
      (* store info when inputs updated *)
      let copy (long short : string) (info : obj) : obj :=
        if has_own article long then <[ short := get article long ]> info else info in
      let info := copy "articleGroup" "group"
                    (copy "articleAutoBid" "autoBid" (copy "articleMaxBid" "maxBid" ∅)) in
      (* update storage info and inform tab of new values *)
      catch (Article.updateInfoInStorage stringify parseFloat article (VObj info)
               (get article "tabId") VUndefined)
  end.

End Platform.

(** the listener of [browser.storage.onChanged] *)
Definition storageChanged (changes : obj) (area : string) : M unit :=
  if String.eqb area "sync" then
    if has_own changes "SETTINGS" then
      let* relevant := AutoBid.checkChangeIsRelevant (get changes "SETTINGS") in
      if relevant then AutoBid.renderState else ret tt
    else ret tt
  else ret tt.

(** *** Updating a row *)

(** A row as the DataTables API hands it out is [Some i] for row [i] and
    [None] for an empty selection ([length === 0]); a parameter that takes
    such a row or [null] is an [option] of it, [None] being [null]. *)
Definition selection (r : option nat) : M (option (nat * obj)) :=
  let* articles := gets table in
  ret (r ≫= λ i, (λ a, (i, a)) <$> articles !! i).

Section Updates.

Variable stringify : value → string.
Variable parseFloat : string → number.

(** [table.updateArticle(articleInfo, row = null, tabId = null)] *)
Definition updateArticle (articleInfo : value) (row_ : option (option nat)) (tabId : value)
  : M unit :=
  let* r :=
    match row_ with
    | Some r => ret r
    | None =>
        let* articleId := lift (member articleInfo "articleId") in
        row ("#" ++ to_string articleId)
    end in
  let* r := selection r in
  match r with
  | None => ret tt
  | Some (i, article) =>
      let* articleId := lift (member articleInfo "articleId") in
      (* sanity check if the info + row match *)
      if negb (strict_eq (get article "articleId") articleId)
      then lift (Throw "updateArticle() ArticleInfo and Row do not match!")
      else
        let* r := Article.updateInfo stringify article (own_props articleInfo) tabId in
        let '(article, modified) := r in
        modify (λ w, set_table (<[ i := article ]> (table w)) w) ;;
        if (0 <? modified)%nat then
          (* update info in storage, if there is any *)
          catch (Article.updateInfoInStorage stringify parseFloat article VNull VNull (VBool true))
        else ret tt
  end.

End Updates.

(** *** Reloading a tab *)

(** [ArticlesTable.reloadTab(tabId = null)]: the tab [browser.tabs.reload]
    is called for, if it is, and [Popup.rateLimit] after the call *)
Definition reloadTab (tabId : value) (now now' : Z) (rateLimit : Popup.rate_limits)
  : option value * Popup.rate_limits :=
  if is_nullish tabId then (None, rateLimit)
  else
    let '(limited, rateLimit) :=
      Popup.checkRateLimit "reloadTab" tabId (60 * 1000) now now' rateLimit in
    if limited then (None, rateLimit) else (Some tabId, rateLimit).

End ArticlesTable.

(** ** Notions the statements below use *)

Import Js Window.

(** the short field names of the legacy record format *)
Definition shortKeys : list string :=
  [ "autoBid"; "minBid"; "maxBid"; "description"; "endTime"; "bidPrice"; "group" ].

(** the record has none of the short field names *)
Definition no_short_keys (info : obj) : bool :=
  forallb (λ k, negb (has_own info k)) shortKeys.

(** an operation that leaves the synchronized storage as it is *)
Definition sync_frame {A} (m : M A) : Prop :=
  ∀ w, syncStorage (snd (m w)) = syncStorage w.

(** the identity [getId] gives the window *)
Definition ownId (w : window) : value :=
  if is_nullish (beWindowId w)
  then VStr (hostname w ++ ":" ++ pretty (currentWindowId w))
  else beWindowId w.

(** the owner record in synchronized storage: the [autoBid] entry of the
    [SETTINGS] record *)
Definition syncedOwner (store : obj) : option value :=
  match store !! "SETTINGS" with
  | Some (VObj settings) => settings !! "autoBid"
  | _ => None
  end.

(** the local state [getLocalState] reads *)
Definition localState (w : window) : obj :=
  let info : obj := {[ "autoBidEnabled" := VBool false; "simulation" := VBool false ]} in
  match sessionSettings w with
  | Some r => assign info (VObj r)
  | None => info
  end.

(** a window of the extension [ext] with nothing in its session, as it is
    right after the popup was opened *)
Definition openedWindow (id now : Z) (sync : obj) : window :=
  {| hostname := "ext"; currentWindowId := id; clock := now; beWindowId := VNull;
     sessionSettings := None; localStorage := ∅; syncStorage := sync; table := [] |}.

(** an owner record as [setSyncState] writes it *)
Definition ownerRecord (id : string) (autoBidEnabled : value) (timestamp : Z) : obj :=
  {[ "id" := VStr id; "autoBidEnabled" := autoBidEnabled; "timestamp" := num_of_Z timestamp ]}.

(** synchronized storage that holds an owner record and nothing else *)
Definition ownedBy (id : string) (timestamp : Z) : obj :=
  {[ "SETTINGS" := VObj {[ "autoBid" := VObj (ownerRecord id (VBool true) timestamp) ]} ]}.

(** the number an article id made of decimal digits stands for *)
Definition idOf (article : obj) : option Z :=
  match get article "articleId" with
  | VStr s => digits_value 0 s
  | _ => None
  end.

(** the count [getAdjustedBidTime] comes down to: the rows that pass its
    filter and are sorted before [this] by its comparator *)
Definition countBefore (this : obj) (articles : list obj) : nat :=
  length (filter (λ a, Article.endsWith this a = true
                       ∧ num_lt (to_number (get a "articleId"))
                                (to_number (get this "articleId")) = true) articles).

(** the article has an end time less than 1000 ms away from [T] *)
Definition coEnding (T : Q) (article : obj) : bool :=
  match article !! "articleEndTime" with
  | Some v => match to_number v with
              | Num e => negb (Qle_bool 1000 (Qabs (e - T)))
              | NaN => false
              end
  | None => false
  end.

(** the number is a whole number of magnitude up to [bound], written as
    [inject_Z] writes it *)
Definition wholeNumber (bound : Z) (n : number) : bool :=
  match n with
  | Num q => (Z.pos (Qden q) =? 1)%Z && (Z.abs (Qnum q) <=? bound)%Z
  | NaN => false
  end.

(** the id of the article is a string of digits for a number up to 2 ^ 53,
    which is a double *)
Definition safeId (article : obj) : bool :=
  match idOf article with
  | Some z => (z <=? 9007199254740992)%Z
  | None => false
  end.

(** the end time of the article, if it has one that is a number, is a whole
    number of milliseconds up to 2 ^ 52 *)
Definition safeEndTime (article : obj) : bool :=
  match article !! "articleEndTime" with
  | Some v => match to_number v with
              | NaN => true
              | n => wholeNumber 4503599627370496 n
              end
  | None => true
  end.

(** the id of [a] is numerically smaller than the id of [b] *)
Definition idLess (a b : obj) : bool :=
  match idOf a, idOf b with
  | Some x, Some y => (x <? y)%Z
  | _, _ => false
  end.

(** the 0-based rank of [this] among the articles that end within a second
    of [T], in ascending order of the numeric id: the number of those with a
    smaller id *)
Definition rank (T : Q) (this : obj) (articles : list obj) : nat :=
  length (filter (λ a, coEnding T a = true ∧ idLess a this = true) articles).

(** an article as the constructor makes it of what a tab reports *)
Definition articleOf (articleId : string) (articleEndTime : Z) : obj :=
  {[ "articleId" := VStr articleId; "articleEndTime" := num_of_Z articleEndTime;
     "articleGroup" := VNull; "articleMaxBid" := VNull; "articleAutoBid" := VBool false;
     "popup" := VObj ∅; "articleDetailsShown" := VBool false ]}.

(** a window whose table holds the given articles *)
Definition windowWith (articles : list obj) (sync : obj) : window :=
  set_table articles (openedWindow 1 0 sync).



(** the properties of an [Article] that belong to the window *)
Definition transientKeys : list string := [ "popup"; "tabId"; "articleDetailsShown" ].

(** the record has none of them *)
Definition transientFree (o : obj) : bool :=
  forallb (λ k, negb (has_own o k)) transientKeys.

(** what is stored under [key], if it is a record, has none of them *)
Definition storedFree (store : obj) (key : string) : bool :=
  match store !! key with
  | Some (VObj o) => transientFree o
  | _ => true
  end.

(** of the rows other than row [i], none has the tab and none has the id *)
Definition otherRows (i : nat) (tabId : value) (key : string) (articles : list obj) : bool :=
  forallb (λ e : nat * obj,
             (fst e =? i)%nat
             || (negb (strict_eq (get (snd e) "tabId") tabId)
                 && negb (String.eqb (to_string (get (snd e) "articleId")) key)))
    (imap (λ j a, (j, a)) articles).

(** the object [filtered] of [getAdjustedBidTime]: the rows that end within
    a second of [this], under their row indices *)
Definition endingWith (this : obj) (articles : list obj) : list (nat * obj) :=
  filter (λ e, Article.endsWith this (snd e) = true) (imap (λ i a, (i, a)) articles).

(** the number the id of row [k] stands for *)
Definition idAt (articles : list obj) (k : nat) : Z :=
  default 0%Z (articles !! k ≫= idOf).

(** the property [k] of the record stored under [key] *)
Definition storedProperty (store : obj) (key k : string) : option value :=
  match store !! key with
  | Some (VObj o) => Some (get o k)
  | _ => None
  end.

(** the record [updateInfoInStorage] merges into, which is what a call
    reads: what is stored under [key], with its keys converted, or the
    empty record *)
Definition storedBefore (store : obj) (key : string) : outcome value :=
  match store !! key with
  | Some old => Article.convertKeys_value old
  | None => Ok (VObj ∅)
  end.



(** the properties of an article that [updateInfo] compares with the fresh
    information *)
Definition comparedKeys : list string :=
  (snd <$> Article.updatedFields) ++ [ "articleAuctionState" ].

(** the article agrees with [info] on every compared property [info] has *)
Definition agreesWith (this info : obj) : bool :=
  forallb (λ k, negb (has_own info k) || strict_eq (get info k) (get this k)) comparedKeys.

(** [v === v] holds: [v] is neither [NaN] nor an object *)
Definition comparable (v : value) : bool := strict_eq v v.

(** every compared property of [info] is comparable, and so is [tabId] *)
Definition comparableInfo (info : obj) (tabId : value) : bool :=
  comparable tabId && forallb (λ k, comparable (get info k)) comparedKeys.

(** the log of an article in [window.localStorage] *)
Definition logOf (w : window) (this : obj) : list value :=
  default [] (localStorage w !! ("log:" ++ to_string (get this "articleId"))).

(** the value is compared as a number by [<] and [>=]: it is neither a
    string nor an object *)
Definition numeric (v : value) : bool :=
  match v with
  | VStr _ | VObj _ => false
  | _ => true
  end.

(** a call of [reloadTab]: the tab and the two times [Date.now()] gives
    during the call *)
Definition call : Type := value * (Z * Z).

(** in a list of calls, no call is for the same key as the call before it *)
Fixpoint noRepeat (calls : list call) : bool :=
  match calls with
  | (a, _) :: ((b, _) :: _) as calls' =>
      negb (String.eqb (to_string a) (to_string b)) && noRepeat calls'
  | _ => true
  end.

(** the calls [reloadTab(tabId)], one after the other: the calls that
    reloaded their tab *)
Fixpoint reloadTabs (calls : list call) (rateLimit : Popup.rate_limits)
  : list call * Popup.rate_limits :=
  match calls with
  | [] => ([], rateLimit)
  | (tabId, (now, now')) :: calls' =>
      let '(reloaded, rateLimit) := ArticlesTable.reloadTab tabId now now' rateLimit in
      let '(rest, rateLimit) := reloadTabs calls' rateLimit in
      (match reloaded with Some t => (t, (now, now')) :: rest | None => rest end, rateLimit)
  end.

(** the digit of a value below 16, in lower case *)
Definition hexChar (n : Z) : ascii :=
  ascii_of_nat (Z.to_nat (if (n <? 10)%Z then 48 + n else 87 + n)%Z).

(** the two digits of a colour component *)
Definition hex2 (n : Z) : string :=
  String (hexChar (n / 16)) (String (hexChar (n mod 16)) "").

(** * Properties *)

(** ** Objects *)

Lemma has_own_true (o : obj) k : has_own o k = true ↔ is_Some (o !! k).
Proof. unfold has_own. apply bool_decide_eq_true. Qed.

Lemma has_own_false (o : obj) k : has_own o k = false ↔ o !! k = None.
Proof.
  unfold has_own. rewrite bool_decide_eq_false. symmetry. apply eq_None_not_Some.
Qed.

Lemma has_own_insert (o : obj) k k' v :
  has_own (<[ k := v ]> o) k' = if decide (k = k') then true else has_own o k'.
Proof.
  unfold has_own. rewrite lookup_insert.
  destruct (decide (k = k')); [| done ].
  apply bool_decide_eq_true. eauto.
Qed.

Lemma has_own_delete (o : obj) k k' :
  has_own (delete k o) k' = if decide (k = k') then false else has_own o k'.
Proof.
  unfold has_own. rewrite lookup_delete.
  destruct (decide (k = k')); [| done ].
  apply bool_decide_eq_false. intros [? ?]; done.
Qed.

Lemma has_own_Some (o : obj) k v : o !! k = Some v → has_own o k = true.
Proof. intros H. apply has_own_true. eauto. Qed.


(** ** Legacy key translation *)

Lemma convertKey_absent short long (s : obj * nat) :
  has_own (fst s) short = false → Article.convertKey short long s = s.
Proof. destruct s as [info n]; simpl. intros ->. done. Qed.

Lemma convertKey_removes short long (s : obj * nat) :
  has_own (fst (Article.convertKey short long s)) short = false.
Proof.
  destruct s as [info n]; simpl.
  destruct (has_own info short) eqn:E; simpl; [| done ].
  rewrite has_own_delete. by rewrite decide_True.
Qed.

Lemma convertKey_keeps_absent short long k (s : obj * nat) :
  k ≠ long → has_own (fst s) k = false →
  has_own (fst (Article.convertKey short long s)) k = false.
Proof.
  destruct s as [info n]; simpl. intros Hk Habs.
  destruct (has_own info short); simpl; [| done ].
  rewrite has_own_delete. destruct (decide (short = k)); [ done |].
  rewrite has_own_insert. by rewrite decide_False.
Qed.

Ltac solve_absent :=
  match goal with
  | |- has_own (fst (Article.convertKey ?s _ _)) ?s = false => apply convertKey_removes
  | |- has_own (fst (Article.convertKey _ _ _)) _ = false =>
      apply convertKey_keeps_absent; [ done | solve_absent ]
  end.

Lemma convertKeys_no_short_keys (info : obj) :
  no_short_keys (fst (Article.convertKeys info)) = true.
Proof.
  unfold no_short_keys, shortKeys. cbn [forallb].
  rewrite !andb_true_iff, !negb_true_iff. unfold Article.convertKeys.
  repeat split; solve_absent.
Qed.

Lemma convertKeys_without_short_keys (info : obj) :
  no_short_keys info = true → Article.convertKeys info = (info, 0%nat).
Proof.
  unfold no_short_keys, shortKeys. cbn [forallb].
  rewrite !andb_true_iff, !negb_true_iff.
  intros (H1 & H2 & H3 & H4 & H5 & H6 & H7 & _).
  unfold Article.convertKeys.
  rewrite (convertKey_absent "autoBid") by done.
  rewrite (convertKey_absent "minBid") by done.
  rewrite (convertKey_absent "maxBid") by done.
  rewrite (convertKey_absent "description") by done.
  rewrite (convertKey_absent "endTime") by done.
  rewrite (convertKey_absent "bidPrice") by done.
  by rewrite (convertKey_absent "group").
Qed.

(** C7. Translating a record that has none of the short field names leaves
    the record as it is and reports zero conversions; hence translating a
    translated record again changes nothing. *)
Theorem convertKeys_idempotent (info : obj) :
  (no_short_keys info = true → Article.convertKeys info = (info, 0%nat))
  ∧ Article.convertKeys (fst (Article.convertKeys info))
    = (fst (Article.convertKeys info), 0%nat).
Proof.
  split.
  - apply convertKeys_without_short_keys.
  - apply convertKeys_without_short_keys, convertKeys_no_short_keys.
Qed.

Lemma convertKeys_idempotent_witness :
  let info : obj := {[ "articleMaxBid" := num_of_Z 10; "articleGroup" := VStr "Uhren" ]} in
  no_short_keys info = true ∧ Article.convertKeys info = (info, 0%nat).
Proof.
  intros info. split; [ reflexivity |].
  apply (proj1 (convertKeys_idempotent info)). reflexivity.
Defined.

(** ** Operations that leave the synchronized storage alone *)

Lemma sync_frame_ret {A} (a : A) : sync_frame (ret a).
Proof. done. Qed.

Lemma sync_frame_lift {A} (o : outcome A) : sync_frame (lift o).
Proof. done. Qed.

Lemma sync_frame_gets {A} (f : window → A) : sync_frame (gets f).
Proof. done. Qed.

Lemma sync_frame_bind {A B} (m : M A) (k : A → M B) :
  sync_frame m → (∀ a, sync_frame (k a)) → sync_frame (bind m k).
Proof.
  intros Hm Hk w. unfold bind. specialize (Hm w).
  destruct (m w) as [[a | e] w']; simpl in *; [| done ].
  by rewrite Hk.
Qed.

Lemma sync_frame_catch {A} (m : M A) : sync_frame m → sync_frame (catch m).
Proof. intros Hm w. apply Hm. Qed.

Ltac frame_step :=
  repeat match goal with
  | |- sync_frame (ret _) => apply sync_frame_ret
  | |- sync_frame (lift _) => apply sync_frame_lift
  | |- sync_frame (gets _) => apply sync_frame_gets
  | |- sync_frame (catch _) => apply sync_frame_catch
  | |- sync_frame (bind _ _) => apply sync_frame_bind; [| intros ?; cbv beta ]
  | |- sync_frame (if ?b then _ else _) => destruct b
  | |- sync_frame (match ?x with _ => _ end) => destruct x
  | H : sync_frame ?m |- sync_frame ?m => exact H
  end.

Lemma sync_frame_getId : sync_frame AutoBid.getId.
Proof. intros w. unfold AutoBid.getId. by destruct (is_nullish _). Qed.

Lemma sync_frame_getLocalState : sync_frame AutoBid.getLocalState.
Proof. unfold AutoBid.getLocalState. frame_step. Qed.

Lemma sync_frame_updateSetting k v : sync_frame (AutoBid.updateSetting k v).
Proof. unfold AutoBid.updateSetting. frame_step. done. Qed.

Lemma sync_frame_setLocalState a s : sync_frame (AutoBid.setLocalState a s).
Proof.
  unfold AutoBid.setLocalState.
  apply sync_frame_bind; [| intros ? ]; apply sync_frame_updateSetting.
Qed.

Lemma sync_frame_getSyncState : sync_frame AutoBid.getSyncState.
Proof. unfold AutoBid.getSyncState, sync_get. frame_step. Qed.

Lemma sync_frame_getState : sync_frame AutoBid.getState.
Proof.
  unfold AutoBid.getState.
  apply sync_frame_bind; [ apply sync_frame_getLocalState | intros localInfo ].
  apply sync_frame_bind; [ apply sync_frame_getSyncState | intros syncInfo ].
  apply sync_frame_bind; [ apply sync_frame_getId | intros myId ].
  frame_step. apply sync_frame_setLocalState.
Qed.

(** C9. [setState] with [simulation = true] does not write the synchronized
    storage: it is the same after the call, whatever the flag. *)
Theorem setState_simulation_keeps_sync (autoBidEnabled : value) (w : window) :
  syncStorage (snd (AutoBid.setState autoBidEnabled (VBool true) w)) = syncStorage w.
Proof.
  revert w. change (sync_frame (AutoBid.setState autoBidEnabled (VBool true))).
  unfold AutoBid.setState. simpl.
  apply sync_frame_bind; [ apply sync_frame_setLocalState | intros _ ].
  apply sync_frame_catch, sync_frame_getState.
Qed.

(** ** The owner record *)

Lemma getId_run w :
  AutoBid.getId w = (Ok (ownId w), snd (AutoBid.getId w))
  ∧ syncStorage (snd (AutoBid.getId w)) = syncStorage w
  ∧ clock (snd (AutoBid.getId w)) = clock w
  ∧ sessionSettings (snd (AutoBid.getId w)) = sessionSettings w
  ∧ ownId (snd (AutoBid.getId w)) = ownId w.
Proof.
  unfold AutoBid.getId, ownId. destruct (is_nullish (beWindowId w)) eqn:E; simpl; [| by rewrite E ].
  done.
Qed.

Lemma sync_get_Some w k v :
  syncStorage w !! k = Some v → sync_get k w = (Ok {[ k := v ]}, w).
Proof. unfold sync_get, gets. by intros ->. Qed.

Lemma sync_get_None w k :
  syncStorage w !! k = None → sync_get k w = (Ok ∅, w).
Proof. unfold sync_get, gets. by intros ->. Qed.

Lemma result_single (k : string) (v : value) :
  (keys_length ({[ k := v ]} : obj) =? 1)%nat && has_own ({[ k := v ]} : obj) k = true
  ∧ get ({[ k := v ]} : obj) k = v.
Proof.
  unfold keys_length, has_own, get. rewrite map_size_singleton, lookup_singleton_eq.
  done.
Qed.

Lemma result_empty (k : string) :
  (keys_length (∅ : obj) =? 1)%nat && has_own (∅ : obj) k = false.
Proof. unfold keys_length. by rewrite map_size_empty. Qed.

Lemma setSyncState_disable_run w settings :
  syncStorage w !! "SETTINGS" = Some (VObj settings) →
  syncStorage (snd (AutoBid.setSyncState (VBool false) w))
  = match settings !! "autoBid" with
    | Some (VObj rec) =>
        match rec !! "id" with
        | Some id => if strict_eq id (ownId w)
                     then <[ "SETTINGS" := VObj (delete "autoBid" settings) ]> (syncStorage w)
                     else syncStorage w
        | None => syncStorage w
        end
    | _ => syncStorage w
    end.
Proof.
  intros Hs. unfold AutoBid.setSyncState.
  unfold bind at 1. rewrite (sync_get_Some _ _ _ Hs).
  destruct (result_single "SETTINGS" (VObj settings)) as [-> ->].
  unfold bind at 1.
  destruct (getId_run w) as (-> & Hsync & _). 
  set (w1 := snd (AutoBid.getId w)) in *.
  unfold bind at 1, gets at 1. simpl.
  assert (Hsame : {[ "SETTINGS" := VObj settings ]} ∪ syncStorage w1 = syncStorage w).
  { simpl in Hsync. rewrite Hsync, <- insert_union_singleton_l. by apply insert_id. }
  assert (Hdel : ∀ v, {[ "SETTINGS" := v ]} ∪ syncStorage w1 = <[ "SETTINGS" := v ]> (syncStorage w)).
  { intros v. simpl in Hsync. by rewrite Hsync, <- insert_union_singleton_l. }
  unfold has_own, get.
  destruct (settings !! "autoBid") as [ [ | | b | n | s | rec ] |] eqn:Ha;
    simpl; unfold bind, lift, ret, sync_set, modify; simpl; try done.
  - unfold has_own, get. destruct (rec !! "id") as [ id |] eqn:Hid; simpl; [| done ].
    destruct (strict_eq id (ownId w)); simpl; [ apply Hdel | done ].
Qed.


Lemma syncedOwner_Some store v :
  syncedOwner store = Some v →
  ∃ settings, store !! "SETTINGS" = Some (VObj settings) ∧ settings !! "autoBid" = Some v.
Proof.
  unfold syncedOwner. destruct (store !! "SETTINGS") as [ [ | | | | | settings ] |]; try done.
  eauto.
Qed.

(** C2. Disabling removes the owner record when the stored owner id is the
    window's own, and leaves the synchronized storage as it is when the
    stored owner id is that of another window. *)
Theorem setSyncState_disable_only_own (w : window) (rec : obj) (id : value) :
  syncedOwner (syncStorage w) = Some (VObj rec) →
  rec !! "id" = Some id →
  let w' := snd (AutoBid.setSyncState (VBool false) w) in
  (strict_eq id (ownId w) = true → syncedOwner (syncStorage w') = None)
  ∧ (strict_eq id (ownId w) = false → syncStorage w' = syncStorage w).
Proof.
  intros Hown Hid w'. apply syncedOwner_Some in Hown as (settings & Hs & Ha).
  subst w'. rewrite (setSyncState_disable_run _ _ Hs), Ha, Hid.
  split; intros ->; [| done ].
  unfold syncedOwner. rewrite lookup_insert_eq. apply lookup_delete_eq.
Qed.

Lemma getLocalState_run w : AutoBid.getLocalState w = (Ok (localState w), w).
Proof.
  unfold AutoBid.getLocalState, localState, bind, gets. by destruct (sessionSettings w).
Qed.

Lemma getSyncState_owner w rec :
  syncedOwner (syncStorage w) = Some (VObj rec) →
  AutoBid.getSyncState w
  = (Ok (assign {[ "autoBidEnabled" := VBool false; "id" := VNull; "timestamp" := VNull ]}
           (VObj rec)), w).
Proof.
  intros Hown. apply syncedOwner_Some in Hown as (settings & Hs & Ha).
  unfold AutoBid.getSyncState. unfold bind at 1. rewrite (sync_get_Some _ _ _ Hs).
  destruct (result_single "SETTINGS" (VObj settings)) as [-> ->].
  unfold bind, lift, ret. simpl. unfold has_own, get. by rewrite Ha.
Qed.

Lemma get_assign_l (target o : obj) k :
  is_Some (o !! k) → get (assign target (VObj o)) k = get o k.
Proof.
  intros [v Hv]. unfold get, assign, own_props.
  by rewrite (lookup_union_Some_l _ _ _ _ Hv), Hv.
Qed.

Lemma localState_has w k :
  k = "autoBidEnabled" ∨ k = "simulation" → is_Some (localState w !! k).
Proof.
  intros Hk. unfold localState, assign, own_props.
  assert (is_Some (({[ "autoBidEnabled" := VBool false; "simulation" := VBool false ]} : obj) !! k))
    as [v Hv] by (destruct Hk as [-> | ->]; eauto).
  destruct (sessionSettings w) as [ r |]; [| eauto ].
  destruct (r !! k) as [ v' |] eqn:E.
  - exists v'. by apply lookup_union_Some_l.
  - exists v. by rewrite lookup_union_r.
Qed.

Lemma updateSetting_run k v w :
  AutoBid.updateSetting k v w = (Ok tt, snd (AutoBid.updateSetting k v w)).
Proof. done. Qed.

Lemma setLocalState_run a s w :
  AutoBid.setLocalState a s w = (Ok tt, snd (AutoBid.setLocalState a s w)).
Proof. done. Qed.

Lemma setLocalState_autoBidEnabled (b : bool) s w :
  get (localState (snd (AutoBid.setLocalState (VBool b) s w))) "autoBidEnabled" = VBool b.
Proof.
  unfold AutoBid.setLocalState, AutoBid.updateSetting, bind, gets, modify, localState.
  cbn [fst snd sessionSettings set_sessionSettings].
  match goal with
  | |- context [ <[ "autoBidEnabled" := VBool b ]> ?r ] => generalize r
  end.
  intros r0.
  match goal with
  | |- context [ <[ "simulation" := s ]> ?r ] =>
      assert (H2 : r !! "autoBidEnabled" = Some (VBool b)); [| revert H2; generalize r ]
  end.
  { cbn [default id from_option].
    destruct (has_own _ "simulate"); rewrite ?lookup_delete_ne by done;
      by rewrite lookup_omap, lookup_insert_eq. }
  intros r2 H2.
  assert (H3 : omap json (<[ "simulation" := s ]> r2) !! "autoBidEnabled" = Some (VBool b))
    by (by rewrite lookup_omap, lookup_insert_ne, H2).
  rewrite get_assign_l by (rewrite H3; eauto). unfold get. by rewrite H3.
Qed.

(** C3. When the owner record names another window, the state [getState]
    returns carries the message with the link to that window; and if this
    window is not simulating, the state returned and the local state both
    have [autoBidEnabled = false]. *)
Theorem getState_preempted (w : window) (rec : obj) (other : value) :
  syncedOwner (syncStorage w) = Some (VObj rec) →
  rec !! "id" = Some other →
  is_nullish other = false →
  strict_eq other (ownId w) = false →
  ∃ info w',
    AutoBid.getState w = (Ok info, w')
    ∧ (∃ pre post,
         info !! "messageHtml"
         = Some (VStr (AutoBid.outerHTML (AutoBid.Span pre)
                       ++ AutoBid.outerHTML
                            (AutoBid.Anchor ("#" ++ to_string other) "windowLink" "anderen Fenster")
                       ++ AutoBid.outerHTML (AutoBid.Span post))))
    ∧ (get (localState w) "simulation" = VBool false →
       info !! "autoBidEnabled" = Some (VBool false)
       ∧ get (localState w') "autoBidEnabled" = VBool false).
Proof.
  intros Hown Hid Hnull Hother.
  unfold AutoBid.getState.
  unfold bind at 1. rewrite getLocalState_run.
  unfold bind at 1. rewrite (getSyncState_owner _ _ Hown).
  unfold bind at 1. destruct (getId_run w) as (-> & _ & _ & Hsess & _).
  set (w1 := snd (AutoBid.getId w)) in *.
  set (syncInfo := assign _ (VObj rec)).
  assert (Hsid : syncInfo !! "id" = Some other) by by apply lookup_union_Some_l.
  assert (Hget : get syncInfo "id" = other) by (unfold get; by rewrite Hsid).
  rewrite !Hget. unfold has_own. rewrite Hsid.
  rewrite Hnull, Hother. cbn [negb andb].
  rewrite bool_decide_eq_true_2 by eauto. cbn [andb].
  set (info := assign _ (VObj (localState w))).
  assert (Hsim : get (<[ "messageHtml" :=
                           VStr (AutoBid.getDisableMessage other (get info "autoBidEnabled")
                                   (get info "simulation")) ]> info) "simulation"
                 = get (localState w) "simulation").
  { unfold get at 1. rewrite lookup_insert_ne by done.
    apply get_assign_l, localState_has. by right. }
  rewrite Hsim.
  assert (Hmsg : ∃ pre post,
            AutoBid.getDisableMessage other (get info "autoBidEnabled") (get info "simulation")
            = AutoBid.outerHTML (AutoBid.Span pre)
              ++ AutoBid.outerHTML
                   (AutoBid.Anchor ("#" ++ to_string other) "windowLink" "anderen Fenster")
              ++ AutoBid.outerHTML (AutoBid.Span post)).
  { unfold AutoBid.getDisableMessage. destruct (_ || _); eauto. }
  destruct Hmsg as (pre & post & Hmsg).
  destruct (strict_eq (get (localState w) "simulation") (VBool false)
            || strict_eq _ (VBool true)) eqn:Hforce.
  - unfold bind, ret. rewrite setLocalState_run.
    eexists _, _. split; [ reflexivity |]. split.
    + exists pre, post. rewrite lookup_insert_ne by done.
      by rewrite lookup_insert_eq, Hmsg.
    + intros _. split; [ by rewrite lookup_insert_eq |].
      unfold get at 2. rewrite lookup_insert_eq. cbn [default].
      apply setLocalState_autoBidEnabled.
  - eexists _, _. split; [ reflexivity |]. split.
    + exists pre, post. by rewrite lookup_insert_eq, Hmsg.
    + intros Hs. rewrite Hs in Hforce. done.
Qed.

(** A window that is simulating keeps its local flag: only the message is
    added. *)
Lemma getState_preempted_simulating (w : window) (rec : obj) (other : value) :
  syncedOwner (syncStorage w) = Some (VObj rec) →
  rec !! "id" = Some other →
  is_nullish other = false →
  strict_eq other (ownId w) = false →
  get (localState w) "simulation" = VBool true →
  localState w !! "autoBid" = None →
  ∃ info w',
    AutoBid.getState w = (Ok info, w')
    ∧ sessionSettings w' = sessionSettings w
    ∧ get info "autoBidEnabled" = get (localState w) "autoBidEnabled"
    ∧ is_Some (info !! "messageHtml").
Proof.
  intros Hown Hid Hnull Hother Hsim Hauto.
  unfold AutoBid.getState.
  unfold bind at 1. rewrite getLocalState_run.
  unfold bind at 1. rewrite (getSyncState_owner _ _ Hown).
  unfold bind at 1. destruct (getId_run w) as (-> & _ & _ & Hsess & _).
  set (w1 := snd (AutoBid.getId w)) in *.
  set (syncInfo := assign _ (VObj rec)).
  assert (Hsid : syncInfo !! "id" = Some other) by by apply lookup_union_Some_l.
  assert (Hget : get syncInfo "id" = other) by (unfold get; by rewrite Hsid).
  rewrite !Hget. unfold has_own. rewrite Hsid.
  rewrite Hnull, Hother. cbn [negb andb].
  rewrite bool_decide_eq_true_2 by eauto. cbn [andb].
  set (info := assign _ (VObj (localState w))).
  set (msg := VStr _).
  assert (Hs : get (<[ "messageHtml" := msg ]> info) "simulation" = VBool true).
  { unfold get at 1. rewrite lookup_insert_ne by done. rewrite <- Hsim.
    apply get_assign_l, localState_has. by right. }
  assert (Ha : get (<[ "messageHtml" := msg ]> info) "autoBid" = VUndefined).
  { unfold get. rewrite lookup_insert_ne by done. subst info. unfold assign, own_props.
    by rewrite lookup_union_r. }
  rewrite Hs, Ha. cbn [strict_eq Bool.eqb orb].
  eexists _, _. split; [ reflexivity |]. split; [ exact Hsess |]. split.
  - unfold get at 1. rewrite lookup_insert_ne by done.
    apply get_assign_l, localState_has. by left.
  - rewrite lookup_insert_eq. eauto.
Qed.

Lemma setSyncState_disable_only_own_witness :
  let w := openedWindow 2 1000 (ownedBy "ext:1" 0) in
  syncStorage (snd (AutoBid.setSyncState (VBool false) w)) = syncStorage w.
Proof.
  intros w.
  apply (proj2 (setSyncState_disable_only_own w (ownerRecord "ext:1" (VBool true) 0)
                  (VStr "ext:1") eq_refl eq_refl)).
  reflexivity.
Defined.

Lemma getState_preempted_witness :
  let w := openedWindow 2 1000 (ownedBy "ext:1" 0) in
  ∃ info w', AutoBid.getState w = (Ok info, w')
             ∧ info !! "autoBidEnabled" = Some (VBool false)
             ∧ get (localState w') "autoBidEnabled" = VBool false.
Proof.
  intros w.
  destruct (getState_preempted w (ownerRecord "ext:1" (VBool true) 0) (VStr "ext:1")
              eq_refl eq_refl eq_refl eq_refl) as (info & w' & Hrun & _ & Hforce).
  exists info, w'. split; [ exact Hrun |]. apply Hforce. reflexivity.
Defined.

(** ** The liveness sweep *)

Lemma stale_iff (now ts : Z) :
  num_gt (num_div (num_sub (Num (inject_Z now)) (Num (inject_Z ts))) (Num 1000)) (Num 300) = true
  ↔ (300000 < now - ts)%Z.
Proof.
  unfold num_gt, num_div, num_sub, num_lt. cbn [Qeq_bool].
  change (Qeq_bool 1000 0) with false. cbn iota.
  rewrite negb_true_iff, <- not_true_iff_false, Qle_bool_iff.
  unfold Qle, Qdiv, Qmult, Qminus, Qplus, Qopp, Qinv, inject_Z. simpl. lia.
Qed.

Lemma setSyncState_null_run w settings :
  syncStorage w !! "SETTINGS" = Some (VObj settings) →
  syncStorage (snd (AutoBid.setSyncState VNull w))
  = <[ "SETTINGS" := VObj {[ "autoBid" := VObj {[ "id" := ownId w;
                                                   "autoBidEnabled" := VNull;
                                                   "timestamp" := num_of_Z (clock w) ]} ]} ]>
      (syncStorage w).
Proof.
  intros Hs. unfold AutoBid.setSyncState.
  unfold bind at 1. rewrite (sync_get_Some _ _ _ Hs).
  destruct (result_single "SETTINGS" (VObj settings)) as [-> ->].
  unfold bind at 1.
  destruct (getId_run w) as (-> & Hsync & Hclock & _).
  set (w1 := snd (AutoBid.getId w)) in *. simpl in Hsync, Hclock.
  unfold bind, gets, lift, ret, sync_set, modify. simpl.
  by rewrite Hsync, Hclock, <- insert_union_singleton_l.
Qed.

(** What the sweep does to a stale owner record: it is overwritten by a
    record that names the sweeping window, with [autoBidEnabled = null] and
    a fresh timestamp. *)
Lemma removeDeadAutoBid_stale (w : window) (rec : obj) (ts : Z) :
  syncedOwner (syncStorage w) = Some (VObj rec) →
  rec !! "timestamp" = Some (num_of_Z ts) →
  (300000 < clock w - ts)%Z →
  syncedOwner (syncStorage (snd (AutoBid.removeDeadAutoBid w)))
  = Some (VObj {[ "id" := ownId w; "autoBidEnabled" := VNull;
                  "timestamp" := num_of_Z (clock w) ]}).
Proof.
  intros Hown Hts Hstale. unfold AutoBid.removeDeadAutoBid.
  unfold bind at 1. rewrite (getSyncState_owner _ _ Hown).
  set (syncState := assign _ (VObj rec)).
  assert (Hlook : syncState !! "timestamp" = Some (num_of_Z ts))
    by by apply lookup_union_Some_l.
  unfold has_own, get. rewrite Hlook. unfold num_of_Z.
  cbn [from_option id is_nullish negb andb].
  rewrite bool_decide_eq_true_2 by eauto. cbn [andb].
  unfold bind at 1, gets at 1. cbn [to_number].
  apply stale_iff in Hstale. rewrite Hstale.
  apply syncedOwner_Some in Hown as (settings & Hs & _).
  rewrite (setSyncState_null_run _ _ Hs).
  unfold syncedOwner. rewrite lookup_insert_eq. apply lookup_singleton_eq.
Qed.

(** A record that is not older than 300 seconds is left alone. *)
Lemma removeDeadAutoBid_fresh (w : window) (rec : obj) (ts : Z) :
  syncedOwner (syncStorage w) = Some (VObj rec) →
  rec !! "timestamp" = Some (num_of_Z ts) →
  (clock w - ts ≤ 300000)%Z →
  AutoBid.removeDeadAutoBid w = (Ok tt, w).
Proof.
  intros Hown Hts Hfresh. unfold AutoBid.removeDeadAutoBid.
  unfold bind at 1. rewrite (getSyncState_owner _ _ Hown).
  set (syncState := assign _ (VObj rec)).
  assert (Hlook : syncState !! "timestamp" = Some (num_of_Z ts))
    by by apply lookup_union_Some_l.
  unfold has_own, get. rewrite Hlook. unfold num_of_Z.
  cbn [from_option id is_nullish negb andb].
  rewrite bool_decide_eq_true_2 by eauto. cbn [andb].
  unfold bind at 1, gets at 1. cbn [to_number].
  destruct (num_gt _ _) eqn:E; [| done ].
  apply stale_iff in E. lia.
Qed.

(** C1. A window that is not the owner sweeps at a time when the record of
    the owner [ext:1] is 400 seconds old: the record is not deleted, the
    [SETTINGS] record afterwards holds an owner entry that names the
    sweeping window [ext:2]. *)
Theorem deadManSwitch_stale_owner_replaced :
  let w := openedWindow 2 400000 (ownedBy "ext:1" 0) in
  syncedOwner (syncStorage (snd (AutoBid.deadManSwitch w)))
  = Some (VObj {[ "id" := VStr "ext:2"; "autoBidEnabled" := VNull;
                  "timestamp" := num_of_Z 400000 ]}).
Proof. vm_compute. reflexivity. Qed.

(** ** The relevance of a storage change *)

(** A change whose new value is an object without a [length] property is
    reported relevant, whoever the new owner is. *)
Lemma checkChangeIsRelevant_object (w : window) (changeInfo newValue : obj) :
  changeInfo !! "newValue" = Some (VObj newValue) →
  newValue !! "length" = None →
  AutoBid.checkChangeIsRelevant (VObj changeInfo) w = (Ok true, w).
Proof.
  intros Hnew Hlen. unfold AutoBid.checkChangeIsRelevant, bind, lift, ret.
  cbn [has_own_property]. unfold has_own. rewrite Hnew.
  rewrite bool_decide_eq_true_2 by eauto. cbn [negb member].
  unfold get. rewrite Hnew. cbn [from_option id member]. unfold get. by rewrite Hlen.
Qed.

(** The listener then draws the state again. *)
Lemma storageChanged_renders (w : window) (changes changeInfo newValue : obj) :
  changes !! "SETTINGS" = Some (VObj changeInfo) →
  changeInfo !! "newValue" = Some (VObj newValue) →
  newValue !! "length" = None →
  ArticlesTable.storageChanged changes "sync" w = AutoBid.renderState w.
Proof.
  intros Hc Hnew Hlen. unfold ArticlesTable.storageChanged. cbn [String.eqb Ascii.eqb Bool.eqb].
  rewrite (has_own_Some _ _ _ Hc). unfold get. rewrite Hc. cbn [from_option id].
  unfold bind. by rewrite (checkChangeIsRelevant_object _ _ _ Hnew Hlen).
Qed.

(** C8. The change notification of the window's own write is reported
    relevant: [checkChangeIsRelevant] returns [true] for a new value whose
    owner id is the window's own id. *)
Theorem checkChangeIsRelevant_own_write :
  let w := set_beWindowId (VStr "ext:1") (openedWindow 1 1000 (ownedBy "ext:1" 1000)) in
  let changeInfo :=
    VObj {[ "oldValue" := VObj {[ "autoBid" := VObj (ownerRecord "ext:1" (VBool true) 0) ]};
            "newValue" := VObj {[ "autoBid" := VObj (ownerRecord "ext:1" (VBool true) 1000) ]} ]} in
  fst (AutoBid.checkChangeIsRelevant changeInfo w) = Ok true.
Proof. vm_compute. reflexivity. Qed.

(** ** Sorting with a comparator that follows a numeric key *)

Section sort.
Context {K : Type} (compare : K → K → number) (f : K → Z).

Lemma sort_insert_Permutation x l : Article.sort_insert compare x l ≡ₚ x :: l.
Proof.
  induction l as [| y l IH ]; cbn [Article.sort_insert]; [ done |].
  destruct (num_gt (compare x y) (Num 0)); [| reflexivity ].
  rewrite IH. apply Permutation_swap.
Qed.

Lemma sort_Permutation l : Article.sort compare l ≡ₚ l.
Proof.
  induction l as [| x l IH ]; simpl; [ done |].
  unfold Article.sort in *. simpl. by rewrite sort_insert_Permutation, IH.
Qed.

Lemma sort_insert_sorted x l :
  (∀ y, y ∈ l → num_gt (compare x y) (Num 0) = true ↔ (f y < f x)%Z) →
  (∀ y, y ∈ l → f y ≠ f x) →
  StronglySorted (λ a b, (f a < f b)%Z) l →
  StronglySorted (λ a b, (f a < f b)%Z) (Article.sort_insert compare x l).
Proof.
  intros Hcmp Hne Hs. induction l as [| y l IH ]; cbn [Article.sort_insert].
  - repeat constructor.
  - apply StronglySorted_cons in Hs as [Hy Hs].
    destruct (num_gt (compare x y) (Num 0)) eqn:E.
    + apply Hcmp in E; [| by left ].
      apply StronglySorted_cons. split.
      * rewrite Forall_forall. intros z Hz.
        rewrite sort_insert_Permutation in Hz.
        apply elem_of_cons in Hz as [-> | Hz]; [ done |].
        rewrite Forall_forall in Hy. by apply Hy.
      * apply IH; [ | | done ].
        -- intros z Hz. apply Hcmp. by right.
        -- intros z Hz. apply Hne. by right.
    + assert (f x < f y)%Z as Hlt.
      { assert (¬ (f y < f x)%Z) by (rewrite <- Hcmp by (by left); by rewrite E).
        assert (f y ≠ f x) by (apply Hne; by left). lia. }
      apply StronglySorted_cons. split.
      * constructor; [ done |].
        rewrite Forall_forall in Hy. rewrite Forall_forall. intros z Hz.
        specialize (Hy z Hz). lia.
      * by apply StronglySorted_cons.
Qed.

Lemma sort_sorted l :
  (∀ x y, x ∈ l → y ∈ l → num_gt (compare x y) (Num 0) = true ↔ (f y < f x)%Z) →
  NoDup (f <$> l) →
  StronglySorted (λ a b, (f a < f b)%Z) (Article.sort compare l).
Proof.
  intros Hcmp Hnd. induction l as [| x l IH ]; simpl.
  - constructor.
  - apply NoDup_cons in Hnd as [Hx Hnd].
    apply sort_insert_sorted.
    + intros y Hy. rewrite sort_Permutation in Hy. apply Hcmp; [ by left | by right ].
    + intros y Hy Heq. rewrite sort_Permutation in Hy. apply Hx.
      rewrite <- Heq. by apply list_elem_of_fmap_2.
    + apply IH; [| done ]. intros y z Hy Hz. apply Hcmp; by right.
Qed.

Lemma filter_none (P : K → Prop) `{∀ x, Decision (P x)} l :
  (∀ x, x ∈ l → ¬ P x) → filter P l = [].
Proof.
  induction l as [| y l IH ]; intros Hl; [ done |].
  rewrite filter_cons_False by (apply Hl; by left).
  apply IH. intros z Hz. apply Hl. by right.
Qed.

Lemma sorted_index l n x :
  StronglySorted (λ a b, (f a < f b)%Z) l →
  l !! n = Some x →
  n = length (filter (λ y, (f y < f x)%Z) l).
Proof.
  intros Hs. revert n. induction Hs as [| y l Hs IH Hy ]; intros n Hn; [ done |].
  rewrite Forall_forall in Hy.
  destruct n as [| n ]; simpl in Hn.
  - injection Hn as ->. rewrite filter_cons_False by lia.
    rewrite filter_none; [ done |]. intros z Hz. specialize (Hy z Hz). lia.
  - assert (f y < f x)%Z by (apply Hy; by eapply list_elem_of_lookup_2).
    rewrite filter_cons_True by done. simpl. f_equal. by apply IH.
Qed.

End sort.

(** the position of a key in the sorted array is the number of keys that
    are smaller *)
Lemma indexOf_sort (compare : nat → nat → number) (f : nat → Z) (l : list nat) (k : nat) :
  (∀ x y, x ∈ l → y ∈ l → num_gt (compare x y) (Num 0) = true ↔ (f y < f x)%Z) →
  NoDup (f <$> l) →
  k ∈ l →
  Article.indexOf (Article.sort compare l) (Some k)
  = Z.of_nat (length (filter (λ y, (f y < f k)%Z) l)).
Proof.
  intros Hcmp Hnd Hk. unfold Article.indexOf.
  pose proof (sort_sorted compare f l Hcmp Hnd) as Hs.
  assert (Hk' : k ∈ Article.sort compare l) by by rewrite sort_Permutation.
  destruct (list_find_elem_of (λ k', k' = k) _ k Hk' eq_refl) as [[n k'] Hfind].
  rewrite Hfind. apply list_find_Some in Hfind as (Hn & -> & _).
  f_equal. rewrite (sorted_index f _ _ _ Hs Hn).
  apply Permutation_length. by rewrite sort_Permutation.
Qed.


(** ** Bid time of articles that end together *)

Lemma num_lt_Z (a b : Z) :
  num_lt (Num (inject_Z a)) (Num (inject_Z b)) = true ↔ (a < b)%Z.
Proof.
  unfold num_lt. rewrite negb_true_iff, <- not_true_iff_false, Qle_bool_iff.
  rewrite <- Zle_Qle. lia.
Qed.

(** On whole numbers of at most 53 bits the arithmetic of doubles is
    exact. *)
Lemma round64_whole (q : Q) :
  wholeNumber 9007199254740992 (Num q) = true → round64 q = q.
Proof. unfold wholeNumber, round64. by intros ->. Qed.

Lemma wholeNumber_inject_Z (bound : Z) (q : Q) :
  wholeNumber bound (Num q) = true ↔ q = inject_Z (Qnum q) ∧ (Z.abs (Qnum q) ≤ bound)%Z.
Proof.
  unfold wholeNumber. rewrite andb_true_iff, Z.eqb_eq, Z.leb_le.
  destruct q as [n d]. cbn [Qnum Qden]. unfold inject_Z. split.
  - intros [[= ->] ?]. done.
  - intros [[= ->] ?]. done.
Qed.

Lemma double_sub_whole (a b : Z) :
  (Z.abs (a - b) ≤ 9007199254740992)%Z →
  double_sub (Num (inject_Z a)) (Num (inject_Z b))
  = num_sub (Num (inject_Z a)) (Num (inject_Z b)).
Proof.
  intros H. unfold double_sub, num_sub. f_equal. apply round64_whole.
  apply wholeNumber_inject_Z. cbn. split; [ done | lia ].
Qed.

Lemma double_mul_whole (a b : Z) :
  (Z.abs (a * b) ≤ 9007199254740992)%Z →
  double_mul (Num (inject_Z a)) (Num (inject_Z b)) = Num (inject_Z (a * b)).
Proof.
  intros H. unfold double_mul. f_equal. rewrite round64_whole.
  - unfold Qmult, inject_Z. done.
  - apply wholeNumber_inject_Z. cbn. split; [ done | lia ].
Qed.

Lemma compare_Z (a b : Z) :
  (0 ≤ a ≤ 9007199254740992)%Z → (0 ≤ b ≤ 9007199254740992)%Z →
  num_gt (double_sub (Num (inject_Z a)) (Num (inject_Z b))) (Num 0) = true ↔ (b < a)%Z.
Proof.
  intros Ha Hb. rewrite double_sub_whole by lia.
  unfold num_gt, num_sub, num_lt. rewrite negb_true_iff, <- not_true_iff_false, Qle_bool_iff.
  unfold Qle, Qminus, Qplus, Qopp, inject_Z. simpl. lia.
Qed.

Lemma digit_of_range (c : ascii) (d : Z) : digit_of c = Some d → (0 ≤ d ≤ 9)%Z.
Proof.
  unfold digit_of. destruct (_ && _) eqn:E; [| done ].
  apply andb_prop in E as [?%Z.leb_le ?%Z.leb_le]. intros [= <-]. lia.
Qed.

Lemma digits_value_nonneg (s : string) (acc z : Z) :
  (0 ≤ acc)%Z → digits_value acc s = Some z → (0 ≤ z)%Z.
Proof.
  revert acc. induction s as [| c s IH ]; intros acc Hacc; cbn [digits_value].
  - intros [= <-]. done.
  - destruct (digit_of c) as [ d |] eqn:Ed; [| done ].
    apply digit_of_range in Ed. apply IH. lia.
Qed.

(** The id of an article with a safe id is read as the number its digits
    stand for. *)
Lemma safeId_number (a : obj) :
  safeId a = true →
  ∃ z, idOf a = Some z ∧ (0 ≤ z ≤ 9007199254740992)%Z
       ∧ to_number (get a "articleId") = Num (inject_Z z).
Proof.
  unfold safeId, idOf. destruct (get a "articleId") as [ | | | | s |]; try done.
  destruct (digits_value 0 s) as [ z |] eqn:Ez; [| done ].
  intros Hz%Z.leb_le. exists z. split; [ done |].
  pose proof (digits_value_nonneg s 0 z ltac:(lia) Ez). split; [ lia |].
  cbn [to_number]. unfold string_to_number. rewrite Ez. f_equal.
  apply round64_whole, wholeNumber_inject_Z. cbn. split; [ done | lia ].
Qed.

Lemma safeId_idOf (a : obj) : safeId a = true → is_Some (idOf a).
Proof. intros (z & -> & _)%safeId_number. eauto. Qed.

Lemma idOf_number (a : obj) (z : Z) :
  safeId a = true → idOf a = Some z →
  (0 ≤ z ≤ 9007199254740992)%Z ∧ to_number (get a "articleId") = Num (inject_Z z).
Proof. intros (z' & Hz' & ? & ?)%safeId_number Hz. by simplify_eq. Qed.

Lemma idOf_strict_eq (a b : obj) :
  is_Some (idOf a) → strict_eq (get a "articleId") (get b "articleId") = true →
  idOf a = idOf b.
Proof.
  unfold idOf. intros [z Hz].
  destruct (get a "articleId") as [ | | | | s |]; try done.
  destruct (get b "articleId") as [ | | | | s' |]; try done.
  simpl. intros ->%String.eqb_eq. done.
Qed.

Lemma idOf_strict_eq_refl (a : obj) :
  is_Some (idOf a) → strict_eq (get a "articleId") (get a "articleId") = true.
Proof.
  unfold idOf. intros [z Hz].
  destruct (get a "articleId") as [ | | | | s |]; try done.
  simpl. apply String.eqb_refl.
Qed.

(** The filter keeps the articles that have an end time less than 1000 ms
    away from that of [this]; between whole numbers of milliseconds the
    difference of doubles is exact. *)
Lemma endsWith_coEnding (this article : obj) (T : Q) :
  get this "articleEndTime" = VNum (Num T) →
  wholeNumber 4503599627370496 (Num T) = true →
  safeEndTime article = true →
  Article.endsWith this article = coEnding T article.
Proof.
  intros HT [HTz HTb]%wholeNumber_inject_Z Hsafe.
  unfold Article.endsWith, coEnding. rewrite HT. unfold has_own, get.
  unfold safeEndTime in Hsafe.
  destruct (article !! "articleEndTime") as [ v |]; cbn [from_option id to_number].
  - rewrite bool_decide_eq_true_2 by eauto. cbn [negb].
    destruct (to_number v) as [| e ]; [ done |].
    apply wholeNumber_inject_Z in Hsafe as [He Heb].
    rewrite He, HTz, double_sub_whole by lia. done.
  - by rewrite bool_decide_eq_false_2 by (intros [? ?]; done).
Qed.

Lemma coEnding_self (this : obj) (T : Q) :
  get this "articleEndTime" = VNum (Num T) → coEnding T this = true.
Proof.
  intros HT. unfold coEnding. unfold get in HT.
  destruct (this !! "articleEndTime") as [ v |]; [| done ].
  cbn in HT. subst v. cbn [to_number].
  rewrite negb_true_iff, <- not_true_iff_false, Qle_bool_iff.
  assert (H0 : (T - T == 0)%Q) by ring.
  rewrite H0. intros H. unfold Qle in H. simpl in H. lia.
Qed.

Lemma endsWith_self (this : obj) (T : Q) :
  get this "articleEndTime" = VNum (Num T) →
  wholeNumber 4503599627370496 (Num T) = true →
  Article.endsWith this this = true.
Proof.
  intros HT Hwhole. rewrite (endsWith_coEnding this this T HT Hwhole).
  - by apply coEnding_self.
  - unfold safeEndTime. unfold get in HT.
    destruct (this !! "articleEndTime") as [ v |]; [| done ].
    cbn in HT. by subst v.
Qed.

Lemma findKey_unique (es : list (nat * obj)) (v : value) (i : nat) :
  (∀ e, e ∈ es → strict_eq (get (snd e) "articleId") v = true → fst e = i) →
  (∃ e, e ∈ es ∧ strict_eq (get (snd e) "articleId") v = true) →
  Article.findKey es v = Some i.
Proof.
  unfold Article.findKey. induction es as [| x es IH ] using rev_ind; intros Hall Hex.
  - destruct Hex as (e & He & _). by apply elem_of_nil in He.
  - rewrite fold_left_app. simpl.
    destruct (strict_eq (get (snd x) "articleId") v) eqn:E.
    + f_equal. apply Hall; [| done ]. apply elem_of_app. right. by left.
    + apply IH.
      * intros e He. apply Hall. apply elem_of_app. by left.
      * destruct Hex as (e & He & Hm). exists e. split; [| done ].
        apply elem_of_app in He as [He | He]; [ done |].
        apply list_elem_of_singleton in He as ->. congruence.
Qed.

Lemma filter_ext_in {A} (P Q : A → Prop) `{!∀ x, Decision (P x), !∀ x, Decision (Q x)}
    (l : list A) :
  (∀ x, x ∈ l → P x ↔ Q x) → filter P l = filter Q l.
Proof.
  induction l as [| a l IH ]; intros Hiff; [ done |].
  rewrite !filter_cons.
  rewrite IH by (intros x Hx; apply Hiff; by right).
  destruct (decide (P a)) as [HP | HP], (decide (Q a)) as [HQ | HQ]; try done.
  - exfalso. apply HQ. apply Hiff; [ by left | done ].
  - exfalso. apply HP. apply Hiff; [ by left | done ].
Qed.

Lemma length_filter_fmap {A B} (g : A → B) (P : B → Prop) `{!∀ x, Decision (P x)}
    (l : list A) :
  length (filter P (g <$> l)) = length (filter (λ x, P (g x)) l).
Proof.
  induction l as [| a l IH ]; [ done |].
  rewrite fmap_cons, !filter_cons. destruct (decide (P (g a))); simpl; by rewrite IH.
Qed.

Lemma filter_imap_snd (h : nat → obj → nat * obj) (P : obj → Prop)
    `{!∀ x, Decision (P x)} (l : list obj) :
  (∀ i a, snd (h i a) = a) →
  snd <$> filter (λ e, P (snd e)) (imap h l) = filter P l.
Proof.
  revert h. induction l as [| a l IH ]; intros h Hh; [ done |].
  rewrite imap_cons, !filter_cons, Hh.
  destruct (decide (P a)); rewrite ?fmap_cons, ?Hh, IH; try done.
  all: intros i b; apply Hh.
Qed.

Section bid_time.
Context (w : window) (i : nat) (this : obj) (T : Q).
Hypothesis Hthis : table w !! i = Some this.
Hypothesis HT : get this "articleEndTime" = VNum (Num T).
Hypothesis Hwhole : wholeNumber 4503599627370496 (Num T) = true.
Hypothesis Hsafe : ∀ a, a ∈ table w → safeId a = true.
Hypothesis Htimes : ∀ a, a ∈ table w → safeEndTime a = true.
Hypothesis Hrows : (Z.of_nat (length (table w)) ≤ 1000000000000)%Z.
Hypothesis Hnd : NoDup (idOf <$> table w).

Local Lemma ids_Some a : a ∈ table w → is_Some (idOf a).
Proof. intros Ha. by apply safeId_idOf, Hsafe. Qed.

Local Lemma endingWith_elem e :
  e ∈ endingWith this (table w)
  ↔ table w !! fst e = Some (snd e) ∧ Article.endsWith this (snd e) = true.
Proof.
  unfold endingWith. rewrite list_elem_of_filter, elem_of_lookup_imap. split.
  - intros (He & j & a & -> & Hj). done.
  - intros (Hl & He). split; [ done |]. exists (fst e), (snd e). by destruct e.
Qed.

Local Lemma index_unique j k a b :
  table w !! j = Some a → table w !! k = Some b → idOf a = idOf b → j = k.
Proof.
  intros Hj Hk Heq. apply (NoDup_lookup _ _ _ (idOf a) Hnd).
  - by rewrite list_lookup_fmap, Hj.
  - by rewrite list_lookup_fmap, Hk, Heq.
Qed.

Local Lemma idAt_number k a :
  table w !! k = Some a →
  to_number (get a "articleId") = Num (inject_Z (idAt (table w) k)).
Proof.
  intros Hk. destruct (ids_Some a) as [z Hz]; [ by eapply list_elem_of_lookup_2 |].
  unfold idAt. rewrite Hk. simpl. rewrite Hz.
  apply idOf_number; [| done ]. apply Hsafe. by eapply list_elem_of_lookup_2.
Qed.

Local Lemma idAt_range k a :
  table w !! k = Some a → (0 ≤ idAt (table w) k ≤ 9007199254740992)%Z.
Proof.
  intros Hk. destruct (ids_Some a) as [z Hz]; [ by eapply list_elem_of_lookup_2 |].
  unfold idAt. rewrite Hk. simpl. rewrite Hz.
  apply (idOf_number a); [| done ]. apply Hsafe. by eapply list_elem_of_lookup_2.
Qed.

Local Lemma idAt_inj j k a b :
  table w !! j = Some a → table w !! k = Some b →
  idAt (table w) j = idAt (table w) k → j = k.
Proof.
  intros Hj Hk. unfold idAt. rewrite Hj, Hk. simpl.
  destruct (ids_Some a) as [z Hz]; [ by eapply list_elem_of_lookup_2 |].
  destruct (ids_Some b) as [z' Hz']; [ by eapply list_elem_of_lookup_2 |].
  rewrite Hz, Hz'. simpl. intros ->. apply (index_unique j k a b); congruence.
Qed.

Local Lemma filtered_get_endingWith e :
  e ∈ endingWith this (table w) →
  Article.filtered_get (endingWith this (table w)) (fst e) = snd e.
Proof.
  intros He. unfold Article.filtered_get.
  destruct (list_find_elem_of (λ e', fst e' = fst e) _ e He eq_refl) as [[n e'] Hfind].
  rewrite Hfind. apply list_find_Some in Hfind as (Hn & Hfst & _).
  apply list_elem_of_lookup_2 in Hn. apply endingWith_elem in Hn as [Hn _].
  apply endingWith_elem in He as [He _]. rewrite Hfst in Hn. congruence.
Qed.

Local Lemma keys_compare x y :
  x ∈ fst <$> endingWith this (table w) →
  y ∈ fst <$> endingWith this (table w) →
  num_gt (double_sub
            (to_number (get (Article.filtered_get (endingWith this (table w)) x) "articleId"))
            (to_number (get (Article.filtered_get (endingWith this (table w)) y) "articleId")))
         (Num 0) = true
  ↔ (idAt (table w) y < idAt (table w) x)%Z.
Proof.
  intros (ex & -> & Hex)%list_elem_of_fmap (ey & -> & Hey)%list_elem_of_fmap.
  rewrite !filtered_get_endingWith by done.
  apply endingWith_elem in Hex as [Hex _]. apply endingWith_elem in Hey as [Hey _].
  rewrite (idAt_number _ _ Hex), (idAt_number _ _ Hey).
  apply compare_Z; by eapply idAt_range.
Qed.

Local Lemma keys_NoDup : NoDup (idAt (table w) <$> (fst <$> endingWith this (table w))).
Proof.
  apply NoDup_fmap_2_strong.
  - intros x y (ex & -> & Hex)%list_elem_of_fmap (ey & -> & Hey)%list_elem_of_fmap.
    apply endingWith_elem in Hex as [Hex _]. apply endingWith_elem in Hey as [Hey _].
    by apply (idAt_inj _ _ _ _ Hex Hey).
  - apply (sublist_NoDup _ (seq 0 (length (table w)))); [ apply NoDup_seq |].
    etrans; [ apply fmap_sublist, sublist_filter |].
    rewrite fmap_imap. rewrite (imap_ext _ (λ j _, j)) by done.
    by rewrite (imap_seq_0 (table w) (λ j, j)), list_fmap_id.
Qed.

Local Lemma this_endingWith : (i, this) ∈ endingWith this (table w).
Proof. apply endingWith_elem. split; [ done |]. by eapply endsWith_self. Qed.

Local Lemma findKey_this :
  Article.findKey (endingWith this (table w)) (get this "articleId") = Some i.
Proof.
  apply findKey_unique.
  - intros e [He _]%endingWith_elem Heq.
    apply (index_unique _ _ _ _ He Hthis).
    apply idOf_strict_eq; [| done ]. apply ids_Some. by eapply list_elem_of_lookup_2.
  - exists (i, this). split; [ apply this_endingWith |].
    apply idOf_strict_eq_refl, ids_Some. by eapply list_elem_of_lookup_2.
Qed.

Local Lemma smaller_keys :
  length (filter (λ y, (idAt (table w) y < idAt (table w) i)%Z)
            (fst <$> endingWith this (table w)))
  = countBefore this (table w).
Proof.
  rewrite length_filter_fmap.
  rewrite (filter_ext_in _
             (λ e, num_lt (to_number (get (snd e) "articleId"))
                          (to_number (get this "articleId")) = true)).
  2:{ intros e [He _]%endingWith_elem.
      rewrite (idAt_number _ _ He), (idAt_number _ _ Hthis). symmetry. apply num_lt_Z. }
  unfold endingWith. rewrite list_filter_filter. unfold countBefore.
  rewrite <- (filter_imap_snd (λ i a, (i, a))
                (λ a, Article.endsWith this a = true
                      ∧ num_lt (to_number (get a "articleId"))
                               (to_number (get this "articleId")) = true) (table w)) by done.
  rewrite length_fmap. f_equal. apply list_filter_iff. intros e. simpl. tauto.
Qed.

Local Lemma countBefore_rows :
  (Z.of_nat (countBefore this (table w)) ≤ 1000000000000)%Z.
Proof.
  unfold countBefore.
  pose proof (length_filter
                (λ a, Article.endsWith this a = true
                      ∧ num_lt (to_number (get a "articleId"))
                               (to_number (get this "articleId")) = true) (table w)).
  lia.
Qed.

Lemma getAdjustedBidTime_run :
  Article.getAdjustedBidTime this w
  = (Ok (VNum (Num (T - inject_Z (Z.of_nat (countBefore this (table w)) * 2 * 1000)))), w).
Proof.
  unfold Article.getAdjustedBidTime, bind, gets, ret. cbn [strict_eq num_of_Z].
  fold (endingWith this (table w)). rewrite findKey_this.
  rewrite (indexOf_sort _ (idAt (table w)) _ i keys_compare keys_NoDup).
  2:{ apply list_elem_of_fmap. exists (i, this). split; [ done | apply this_endingWith ]. }
  rewrite smaller_keys, HT. cbn [to_number].
  pose proof countBefore_rows as Hcount.
  apply wholeNumber_inject_Z in Hwhole as [HTz HTb].
  change 2%Q with (inject_Z 2). change 1000%Q with (inject_Z 1000).
  rewrite !double_mul_whole by lia.
  rewrite HTz, double_sub_whole by lia. done.
Qed.

Lemma countBefore_alone :
  (∀ a, a ∈ table w → Article.endsWith this a = true → a = this) →
  countBefore this (table w) = 0%nat.
Proof.
  intros Halone. unfold countBefore. rewrite filter_none; [ done |].
  intros a Ha [Hends Hlt]. rewrite (Halone a Ha Hends) in Hlt.
  rewrite (idAt_number _ _ Hthis) in Hlt. apply num_lt_Z in Hlt. lia.
Qed.

End bid_time.

Lemma num_lt_idLess (a b : obj) :
  safeId a = true → safeId b = true →
  num_lt (to_number (get a "articleId")) (to_number (get b "articleId")) = idLess a b.
Proof.
  intros (x & Hx & _ & ->)%safeId_number (y & Hy & _ & ->)%safeId_number.
  unfold idLess. rewrite Hx, Hy.
  destruct (x <? y)%Z eqn:E.
  - apply num_lt_Z. lia.
  - apply not_true_iff_false. rewrite num_lt_Z. lia.
Qed.

(** the count of the code is the rank *)
Lemma countBefore_rank (this : obj) (T : Q) (articles : list obj) :
  get this "articleEndTime" = VNum (Num T) →
  wholeNumber 4503599627370496 (Num T) = true →
  this ∈ articles →
  (∀ a, a ∈ articles → safeId a = true) →
  (∀ a, a ∈ articles → safeEndTime a = true) →
  countBefore this articles = rank T this articles.
Proof.
  intros HT Hwhole Hin Hids Htimes. unfold countBefore, rank. f_equal.
  apply filter_ext_in. intros a Ha.
  rewrite (endsWith_coEnding _ _ _ HT Hwhole), num_lt_idLess by auto. done.
Qed.

(** C4. For an article of the table with an end time [T], in a table of
    fewer than 10 ^ 12 rows whose article ids are strings of digits that
    stand for different numbers up to 2 ^ 53 and whose end times are whole
    numbers of milliseconds up to 2 ^ 52 (so that the arithmetic of doubles
    is exact): the bid time is [T] minus 2000 ms times the rank of the
    article, which is the number of articles that end within 1000 ms of [T]
    and have a smaller numeric id (its 0-based position among the articles
    that end with it, in ascending order of the numeric id); when no other
    article ends with it, that is [T] itself.  The result is a function of
    the article and the table alone. *)
Theorem getAdjustedBidTime_rank (w : window) (i : nat) (this : obj) (T : Q) :
  table w !! i = Some this →
  get this "articleEndTime" = VNum (Num T) →
  Forall (λ a, safeId a = true) (table w) →
  NoDup (idOf <$> table w) →
  Forall (λ a, safeEndTime a = true) (table w) →
  (Z.of_nat (length (table w)) ≤ 1000000000000)%Z →
  ∃ r : Q,
    Article.getAdjustedBidTime this w = (Ok (VNum (Num r)), w)
    ∧ (r == T - 2000 * inject_Z (Z.of_nat (rank T this (table w))))%Q
    ∧ ((∀ a, a ∈ table w → coEnding T a = true → a = this) → (r == T)%Q).
Proof.
  intros Hthis HT Hids Hnd Htimes Hrows. rewrite Forall_forall in Hids, Htimes.
  assert (Hin : this ∈ table w) by by eapply list_elem_of_lookup_2.
  assert (Hwhole : wholeNumber 4503599627370496 (Num T) = true).
  { specialize (Htimes this Hin). unfold safeEndTime in Htimes. unfold get in HT.
    destruct (this !! "articleEndTime") as [ v |]; [| done ]. cbn in HT. by subst v. }
  eexists. split; [ by apply (getAdjustedBidTime_run w i this T) |].
  rewrite (countBefore_rank this T (table w) HT Hwhole Hin Hids Htimes). split.
  - rewrite !inject_Z_mult. ring.
  - intros Halone.
    rewrite <- (countBefore_rank this T (table w) HT Hwhole Hin Hids Htimes).
    rewrite (countBefore_alone w i this Hthis Hids);
      [ change (inject_Z (Z.of_nat 0 * 2 * 1000)) with 0%Q; ring |].
    intros a Ha He. apply Halone; [ done |].
    by rewrite <- (endsWith_coEnding this a T HT Hwhole) by auto.
Qed.

(** Two windows that hold the same articles, in whatever order of rows,
    compute the same bid time. *)
Lemma getAdjustedBidTime_order_independent (w w' : window) (this : obj) (T : Q) :
  table w' ≡ₚ table w →
  this ∈ table w →
  get this "articleEndTime" = VNum (Num T) →
  Forall (λ a, safeId a = true) (table w) →
  NoDup (idOf <$> table w) →
  Forall (λ a, safeEndTime a = true) (table w) →
  (Z.of_nat (length (table w)) ≤ 1000000000000)%Z →
  fst (Article.getAdjustedBidTime this w') = fst (Article.getAdjustedBidTime this w).
Proof.
  intros Hperm Hin HT Hids Hnd Htimes Hrows.
  assert (Hin' : this ∈ table w') by by rewrite Hperm.
  assert (Hwhole : wholeNumber 4503599627370496 (Num T) = true).
  { rewrite Forall_forall in Htimes.
    specialize (Htimes this Hin). unfold safeEndTime in Htimes. unfold get in HT.
    destruct (this !! "articleEndTime") as [ v |]; [| done ]. cbn in HT. by subst v. }
  apply list_elem_of_lookup_1 in Hin as [i Hi].
  apply list_elem_of_lookup_1 in Hin' as [i' Hi'].
  assert (Hids' : Forall (λ a, safeId a = true) (table w')) by by rewrite Hperm.
  assert (Htimes' : Forall (λ a, safeEndTime a = true) (table w')) by by rewrite Hperm.
  assert (Hnd' : NoDup (idOf <$> table w')) by by rewrite Hperm.
  assert (Hrows' : (Z.of_nat (length (table w')) ≤ 1000000000000)%Z) by by rewrite Hperm.
  rewrite Forall_forall in Hids, Hids', Htimes, Htimes'.
  rewrite (getAdjustedBidTime_run w i this T Hi HT Hwhole Hids Hrows Hnd).
  rewrite (getAdjustedBidTime_run w' i' this T Hi' HT Hwhole Hids' Hrows' Hnd').
  assert (countBefore this (table w') = countBefore this (table w)) as ->; [| done ].
  unfold countBefore. apply Permutation_length. by rewrite Hperm.
Qed.

Lemma getAdjustedBidTime_rank_witness :
  let a100 := articleOf "100" 50000 in
  let a200 := articleOf "200" 50000 in
  let a300 := articleOf "300" 50400 in
  let w := windowWith [a300; a100; articleOf "150" 90000; a200] ∅ in
  ∃ r : Q, Article.getAdjustedBidTime a200 w = (Ok (VNum (Num r)), w)
           ∧ (r == 50000 - 2000 * 1)%Q.
Proof.
  intros a100 a200 a300 w.
  destruct (getAdjustedBidTime_rank w 3 a200 50000) as (r & Hrun & Hr & _).
  - reflexivity.
  - reflexivity.
  - apply (bool_decide_unpack _). vm_compute. reflexivity.
  - apply (bool_decide_unpack _). vm_compute. reflexivity.
  - apply (bool_decide_unpack _). vm_compute. reflexivity.
  - vm_compute. discriminate.
  - exists r. split; [ exact Hrun |]. rewrite Hr. reflexivity.
Defined.

(** The example of the specification: three articles that end at the same
    time bid at [T], [T - 2000] and [T - 4000] in the order of their ids. *)
Example getAdjustedBidTime_three :
  let a100 := articleOf "100" 50000 in
  let a200 := articleOf "200" 50000 in
  let a300 := articleOf "300" 50000 in
  let w := windowWith [a300; a100; a200] ∅ in
  fst (Article.getAdjustedBidTime a100 w) = Ok (num_of_Z 50000)
  ∧ fst (Article.getAdjustedBidTime a200 w) = Ok (num_of_Z 48000)
  ∧ fst (Article.getAdjustedBidTime a300 w) = Ok (num_of_Z 46000).
Proof. vm_compute. repeat split. Qed.

(** Ids above 2 ^ 53 need not be doubles: 9007199254740993 is read as
    9007199254740992, the comparator gives 0 for the two, and the order of
    the rows decides which of the two articles bids earlier. *)
Example getAdjustedBidTime_large_ids :
  let a992 := articleOf "9007199254740992" 50000 in
  let a993 := articleOf "9007199254740993" 50000 in
  fst (Article.getAdjustedBidTime a993 (windowWith [a993; a992] ∅)) = Ok (num_of_Z 50000)
  ∧ fst (Article.getAdjustedBidTime a993 (windowWith [a992; a993] ∅)) = Ok (num_of_Z 48000).
Proof. vm_compute. repeat split. Qed.

(** ** What is stored for an article *)

Lemma transientFree_lookup (o : obj) :
  transientFree o = true
  ↔ o !! "popup" = None ∧ o !! "tabId" = None ∧ o !! "articleDetailsShown" = None.
Proof.
  unfold transientFree, transientKeys. cbn [forallb].
  rewrite !andb_true_iff, !negb_true_iff, !has_own_false. tauto.
Qed.

Lemma newStoredInfo_transientFree this info :
  transientFree (Article.newStoredInfo this info) = true.
Proof.
  apply transientFree_lookup. unfold Article.newStoredInfo.
  repeat split.
  - rewrite 2!lookup_delete_ne by done. apply lookup_delete_eq.
  - rewrite lookup_delete_ne by done. apply lookup_delete_eq.
  - apply lookup_delete_eq.
Qed.

Lemma convertKeys_transientFree (o : obj) :
  transientFree o = true → transientFree (fst (Article.convertKeys o)) = true.
Proof.
  unfold transientFree, transientKeys. cbn [forallb].
  rewrite !andb_true_iff, !negb_true_iff. intros (H1 & H2 & H3 & _).
  unfold Article.convertKeys.
  repeat split; repeat (apply convertKey_keeps_absent; [ done |]); done.
Qed.

Lemma assign_transientFree (target : obj) (source : value) :
  transientFree target = true → transientFree (own_props source) = true →
  transientFree (assign target source) = true.
Proof.
  rewrite !transientFree_lookup. unfold assign.
  intros (? & ? & ?) (? & ? & ?). by rewrite !lookup_union_None.
Qed.

Lemma addLog_run stringify this messageObject w :
  ∃ l, Article.addLog stringify this messageObject w = (Ok tt, set_localStorage l w).
Proof.
  unfold Article.addLog, bind, gets, modify. cbv beta iota zeta. eexists. reflexivity.
Qed.

Lemma storedFree_set (store : obj) (key : string) (o : obj) :
  transientFree o = true → storedFree ({[ key := VObj o ]} ∪ store) key = true.
Proof.
  intros Ho. unfold storedFree.
  by rewrite (lookup_union_Some_l _ _ _ (VObj o)) by apply lookup_singleton_eq.
Qed.


(** What a call of [updateInfoInStorage] does when it gets as far as the
    merge: nothing if no difference is found, and otherwise the record it
    made, merged over the record stored before, is written. *)
Lemma updateInfoInStorage_run
    (stringify : value → string) (parseFloat : string → number)
    (this : obj) (info tabId onlyIfExists : value) (w : window) (key : string) (old : value) :
  get this "articleId" = VStr key →
  (syncStorage w !! key = None → strict_eq onlyIfExists (VBool true) = false) →
  storedBefore (syncStorage w) key = Ok old →
  let new := Article.newStoredInfo this (Article.maxBid_as_number parseFloat info) in
  ∃ w',
    Article.updateInfoInStorage stringify parseFloat this info tabId onlyIfExists w
    = (Ok VUndefined, w')
    ∧ table w' = table w
    ∧ (if strict_eq (Article.getDiffMessage "Aktualisiert" old (VObj new)) VNull
       then w' = w
       else syncStorage w' = <[ key := VObj (new ∪ own_props old) ]> (syncStorage w)).
Proof.
  intros Hid Hexists Hold new. unfold Article.updateInfoInStorage.
  rewrite Hid. cbn [Article.storage_key]. unfold bind at 1, lift at 1.
  unfold bind at 1, sync_get at 1, gets at 1.
  assert (Hstore :
    ∃ w',
      (if negb (strict_eq (Article.getDiffMessage "Aktualisiert" old (VObj new)) VNull)
       then
         bind (Article.addLog stringify this
                 {[ "component" := VStr "Artikel"; "level" := VStr "Einstellungen";
                    "message" := Article.getDiffMessage "Aktualisiert" old (VObj new) ]})
           (λ _, bind (sync_set {[ key := VObj (assign (assign ∅ old) (VObj new)) ]})
                   (λ _, ret VUndefined))
       else ret VUndefined) w = (Ok VUndefined, w')
      ∧ table w' = table w
      ∧ (if strict_eq (Article.getDiffMessage "Aktualisiert" old (VObj new)) VNull
         then w' = w
         else syncStorage w' = <[ key := VObj (new ∪ own_props old) ]> (syncStorage w))).
  { destruct (strict_eq (Article.getDiffMessage "Aktualisiert" old (VObj new)) VNull);
      cbn [negb]; [ by exists w |].
    unfold bind at 1.
    destruct (addLog_run stringify this
                {[ "component" := VStr "Artikel"; "level" := VStr "Einstellungen";
                   "message" := Article.getDiffMessage "Aktualisiert" old (VObj new) ]} w)
      as [l ->].
    unfold bind, sync_set, modify, ret. eexists. split; [ reflexivity |]. split; [ done |].
    cbn [syncStorage set_syncStorage set_localStorage].
    rewrite <- insert_union_singleton_l. do 2 f_equal.
    unfold assign. cbn [own_props]. by rewrite (right_id ∅ (∪)). }
  unfold storedBefore in Hold.
  destruct (syncStorage w !! key) as [ stored |] eqn:Hs.
  - destruct (result_single key stored) as [Hlen Hget].
    apply andb_true_iff in Hlen as [-> _]. rewrite Hget.
    unfold bind at 1, lift at 1. rewrite Hold. exact Hstore.
  - unfold keys_length. rewrite map_size_empty. cbn [Nat.eqb].
    rewrite Hexists by done. injection Hold as <-. exact Hstore.
Qed.

(** A call leaves the synchronized storage as it is, or writes, under the
    id of the article, the record it made merged over the record stored
    before; with [onlyIfExists = true] only where something is stored. *)
Lemma updateInfoInStorage_writes
    (stringify : value → string) (parseFloat : string → number)
    (this : obj) (info tabId onlyIfExists : value) (w w' : window) (o : outcome value) :
  Article.updateInfoInStorage stringify parseFloat this info tabId onlyIfExists w = (o, w') →
  table w' = table w
  ∧ (syncStorage w' = syncStorage w
     ∨ ∃ key old,
         get this "articleId" = VStr key
         ∧ storedBefore (syncStorage w) key = Ok old
         ∧ syncStorage w'
           = <[ key := VObj (Article.newStoredInfo this (Article.maxBid_as_number parseFloat info)
                             ∪ own_props old) ]> (syncStorage w)
         ∧ (syncStorage w !! key = None → strict_eq onlyIfExists (VBool true) = false)).
Proof.
  destruct (get this "articleId") as [ | | | | key |] eqn:Hid;
    try (unfold Article.updateInfoInStorage; rewrite Hid; intros [= <- <-];
         split; [ done | by left ]).
  destruct (storedBefore (syncStorage w) key) as [ old | e ] eqn:Hold.
  - destruct (decide (syncStorage w !! key = None
                      ∧ strict_eq onlyIfExists (VBool true) = true)) as [[Hnone Honly] | Hno].
    + unfold Article.updateInfoInStorage. rewrite Hid. cbn [Article.storage_key].
      unfold bind at 1, lift at 1. unfold bind at 1. rewrite (sync_get_None _ _ Hnone).
      unfold keys_length. rewrite map_size_empty. cbn [Nat.eqb]. rewrite Honly.
      intros [= <- <-]. split; [ done | by left ].
    + assert (Hex : syncStorage w !! key = None → strict_eq onlyIfExists (VBool true) = false).
      { intros Hnone. destruct (strict_eq onlyIfExists (VBool true)); [| done ].
        by destruct Hno. }
      destruct (updateInfoInStorage_run stringify parseFloat this info tabId onlyIfExists w
                  key old Hid Hex Hold) as (w1 & -> & Ht & Hw).
      intros [= <- <-]. split; [ done |].
      destruct (strict_eq _ VNull); [ left; by subst | right ].
      exists key, old. done.
  - unfold storedBefore in Hold.
    destruct (syncStorage w !! key) as [ stored |] eqn:Hs; [| done ].
    unfold Article.updateInfoInStorage. rewrite Hid. cbn [Article.storage_key].
    unfold bind at 1, lift at 1. unfold bind at 1. rewrite (sync_get_Some _ _ _ Hs).
    destruct (result_single key stored) as [Hlen Hget].
    apply andb_true_iff in Hlen as [-> _]. rewrite Hget.
    unfold bind at 1, lift at 1. rewrite Hold. intros [= <- <-]. split; [ done | by left ].
Qed.

Lemma convertKey_lookup_other short long k (s : obj * nat) :
  k ≠ short → k ≠ long → fst (Article.convertKey short long s) !! k = fst s !! k.
Proof.
  destruct s as [info n]; simpl. intros Hs Hl.
  destruct (has_own info short); simpl; [| done ].
  by rewrite lookup_delete_ne, lookup_insert_ne.
Qed.

(** [convertKeys] leaves the window-local properties alone. *)
Lemma elem_of_transientKeys k :
  k ∈ transientKeys ↔ k = "popup" ∨ k = "tabId" ∨ k = "articleDetailsShown".
Proof. unfold transientKeys. rewrite !elem_of_cons, elem_of_nil. tauto. Qed.

Lemma convertKeys_lookup_transient (o : obj) k :
  k ∈ transientKeys → fst (Article.convertKeys o) !! k = o !! k.
Proof.
  intros [-> | [-> | ->]]%elem_of_transientKeys; unfold Article.convertKeys;
    by rewrite !convertKey_lookup_other by done.
Qed.

(** The window-local properties of the record stored before are those of
    the record as it is read. *)
Lemma storedBefore_lookup_transient (store : obj) (key k : string) (old : value) :
  storedBefore store key = Ok old → k ∈ transientKeys →
  own_props old !! k = own_props (get store key) !! k.
Proof.
  unfold storedBefore, get. intros Hold Hk.
  destruct (store !! key) as [ stored |]; cbn [default from_option id].
  - destruct stored; cbn in Hold; try done; try (by injection Hold as <-).
    injection Hold as <-. cbn [own_props]. by apply convertKeys_lookup_transient.
  - by injection Hold as <-.
Qed.

(** The record a call of [updateInfoInStorage] leaves in storage for an
    article into which the record stored before is written back has
    [tabId]: the record stored before is merged as it is. *)
Lemma updateInfoInStorage_writes_tabId_back :
  let w := openedWindow 1 0 {[ "123" := VObj {[ "tabId" := num_of_Z 9 ]} ]} in
  let w' := snd (Article.updateInfoInStorage to_string string_to_number
                   (articleOf "123" 50000) VNull VNull VUndefined w) in
  storedProperty (syncStorage w') "123" "tabId" = Some (num_of_Z 9)
  ∧ storedProperty (syncStorage w') "123" "articleEndTime" = Some (num_of_Z 50000)
  ∧ storedFree (syncStorage w') "123" = false.
Proof. vm_compute. repeat split. Qed.

(** C10 (as amended). The record [updateInfoInStorage] makes of an update
    and the article has none of [popup], [tabId] and [articleDetailsShown],
    whatever the update and the article hold.  What is stored under the
    article id after the call has each of the three exactly as what was
    stored there before had it (the record stored before is merged
    unchanged): so the stored record has none of them provided the record
    stored before had none, and storage that is free of them stays free of
    them. *)
Theorem updateInfoInStorage_stores_no_transient
    (stringify : value → string) (parseFloat : string → number)
    (this : obj) (info tabId onlyIfExists : value) (w : window) (key k : string) :
  get this "articleId" = VStr key →
  k ∈ transientKeys →
  let w' := snd (Article.updateInfoInStorage stringify parseFloat this info tabId
                   onlyIfExists w) in
  Article.newStoredInfo this (Article.maxBid_as_number parseFloat info) !! k = None
  ∧ own_props (get (syncStorage w') key) !! k = own_props (get (syncStorage w) key) !! k
  ∧ (storedFree (syncStorage w) key = true → storedFree (syncStorage w') key = true).
Proof.
  intros Hid Hk w'.
  assert (Hnew : ∀ k', k' ∈ transientKeys →
            Article.newStoredInfo this (Article.maxBid_as_number parseFloat info) !! k' = None).
  { intros k' Hk'.
    pose proof (newStoredInfo_transientFree this (Article.maxBid_as_number parseFloat info))
      as (H1 & H2 & H3)%transientFree_lookup.
    by apply elem_of_transientKeys in Hk' as [-> | [-> | ->]]. }
  split; [ by apply Hnew |].
  subst w'.
  destruct (Article.updateInfoInStorage stringify parseFloat this info tabId onlyIfExists w)
    as [o w'] eqn:E. cbn [snd].
  apply updateInfoInStorage_writes in E as [_ [-> | (key' & old & Hid' & Hold & -> & _)]];
    [ done |].
  assert (key' = key) as -> by congruence.
  assert (Hmerged : ∀ k', k' ∈ transientKeys →
            (Article.newStoredInfo this (Article.maxBid_as_number parseFloat info)
             ∪ own_props old) !! k' = own_props (get (syncStorage w) key) !! k').
  { intros k' Hk'. rewrite lookup_union_r by by apply Hnew.
    by apply (storedBefore_lookup_transient _ _ _ _ Hold). }
  split.
  - unfold get at 1. rewrite lookup_insert_eq. cbn [default from_option id own_props].
    by apply Hmerged.
  - unfold storedFree. rewrite lookup_insert_eq. intros Hfree.
    apply transientFree_lookup.
    assert (Hold' : transientFree (own_props (get (syncStorage w) key)) = true).
    { unfold get. destruct (syncStorage w !! key) as [ [ | | | | | o' ] |]; try done. }
    apply transientFree_lookup in Hold' as (H1 & H2 & H3).
    rewrite !Hmerged by (apply elem_of_transientKeys; auto). done.
Qed.

Lemma updateInfoInStorage_stores_no_transient_witness :
  let this := <[ "tabId" := num_of_Z 7 ]> (articleOf "123" 50000) in
  let w := windowWith [this] ∅ in
  let info := VObj {[ "maxBid" := VStr "12"; "tabId" := num_of_Z 7 ]} in
  let w' := snd (Article.updateInfoInStorage to_string string_to_number this info
                   (num_of_Z 7) VUndefined w) in
  this !! "tabId" = Some (num_of_Z 7)
  ∧ Article.newStoredInfo this (Article.maxBid_as_number string_to_number info) !! "tabId" = None
  ∧ own_props (get (syncStorage w') "123") !! "tabId"
    = own_props (get (syncStorage w) "123") !! "tabId"
  ∧ (storedFree (syncStorage w) "123" = true → storedFree (syncStorage w') "123" = true).
Proof.
  intros this w info w'. split; [ reflexivity |].
  apply (updateInfoInStorage_stores_no_transient to_string string_to_number this info
           (num_of_Z 7) VUndefined w "123" "tabId").
  - reflexivity.
  - apply (bool_decide_unpack _). vm_compute. reflexivity.
Defined.

(** ** The bounds of the maximum bid *)

(** The record that is made for storage carries the maximum bid the article
    has. *)
Lemma newStoredInfo_maxBid (this : obj) (info v : value) :
  this !! "articleMaxBid" = Some v →
  Article.newStoredInfo this info !! "articleMaxBid" = Some v.
Proof.
  intros Hv. unfold Article.newStoredInfo, assign.
  rewrite !lookup_delete_ne by done. by apply lookup_union_Some_l.
Qed.



Section max_bid.
Context (parseFloat : string → number) (entered : string) (article : obj).




End max_bid.











(** ** Eviction of an article whose tab is gone *)

Lemma otherRows_lookup i tabId key articles j a :
  otherRows i tabId key articles = true →
  articles !! j = Some a → j ≠ i →
  strict_eq (get a "tabId") tabId = false ∧ to_string (get a "articleId") ≠ key.
Proof.
  unfold otherRows. rewrite forallb_forall. intros Hall Hj Hne.
  specialize (Hall (j, a)). simpl in Hall.
  rewrite <- list_elem_of_In, elem_of_lookup_imap in Hall.
  specialize (Hall (ex_intro _ j (ex_intro _ a (conj eq_refl Hj)))).
  apply orb_true_iff in Hall as [ Hji | Hall ]; [ by apply Nat.eqb_eq in Hji |].
  apply andb_true_iff in Hall as [Ht Hk].
  apply negb_true_iff in Ht, Hk. split; [ done |].
  intros Heq. rewrite Heq, String.eqb_refl in Hk. done.
Qed.

Lemma list_delete_insert {A} (l : list A) i x : delete i (<[ i := x ]> l) = delete i l.
Proof.
  revert i. induction l as [| y l IH ]; intros [| i ]; simpl; try done.
  by rewrite IH.
Qed.

Section eviction.
Context (w : window) (tabId : value) (i : nat) (article : obj) (key : string).
Hypothesis Hrow : table w !! i = Some article.
Hypothesis Hid : get article "articleId" = VStr key.
Hypothesis Htab : strict_eq (get article "tabId") tabId = true.
Hypothesis Hothers : otherRows i tabId key (table w) = true.

Local Lemma getArticleIdByTabId_run :
  ArticlesTable.getArticleIdByTabId tabId w = (Ok (VStr key), w).
Proof.
  unfold ArticlesTable.getArticleIdByTabId, bind, gets, ret. do 2 f_equal.
  rewrite <- (take_drop_middle _ _ _ Hrow), fold_left_app. simpl.
  rewrite Htab, Hid.
  assert (Hrest : ∀ a, a ∈ drop (S i) (table w) → strict_eq (get a "tabId") tabId = false).
  { intros a (j & Hj)%list_elem_of_lookup_1. rewrite lookup_drop in Hj.
    eapply otherRows_lookup; [ done.. | lia ]. }
  revert Hrest. generalize (drop (S i) (table w)). intros l.
  induction l as [| a l IH ]; intros Hrest; [ done |]. simpl.
  rewrite (Hrest a) by by left. apply IH. intros b Hb. apply Hrest. by right.
Qed.

Local Lemma row_run : ArticlesTable.row ("#" ++ key) w = (Ok (Some i), w).
Proof.
  unfold ArticlesTable.row, bind, gets, ret. do 2 f_equal.
  assert (Hfind : list_find (λ a : obj, "#" ++ to_string (get a "articleId") = "#" ++ key)
                    (table w) = Some (i, article)).
  { apply list_find_Some. split; [ done |]. split; [ by rewrite Hid |].
    intros j a Hj Hlt [= Heq].
    by destruct (otherRows_lookup _ _ _ _ _ _ Hothers Hj ltac:(lia)). }
  by rewrite Hfind.
Qed.

Lemma removeArticleIfBoring_run :
  ArticlesTable.removeArticleIfBoring tabId w
  = let kept := set_table (<[ i := <[ "tabId" := VNull ]> article ]> (table w)) w in
    match syncStorage w !! key with
    | None => (Ok tt, set_table (delete i (table w)) w)
    | Some storageInfo =>
        match ArticlesTable.keepArticle storageInfo with
        | Ok true => (Ok tt, kept)
        | Ok false => (Ok tt, set_table (delete i (table w)) w)
        | Throw e => (Throw e, kept)
        end
    end.
Proof.
  unfold ArticlesTable.removeArticleIfBoring.
  unfold bind at 1. rewrite getArticleIdByTabId_run. cbn [is_nullish to_string].
  unfold bind at 1. rewrite row_run.
  unfold bind at 1, gets at 1. cbn [mbind option_bind]. rewrite Hrow. cbn [fmap option_fmap option_map].
  unfold bind at 1, modify at 1.
  set (kept := set_table _ w).
  assert (Hinfo : Article.getInfoFromStorage (<[ "tabId" := VNull ]> article) kept
                  = (Ok (default VNull (syncStorage w !! key)), kept)).
  { unfold Article.getInfoFromStorage.
    assert (get (<[ "tabId" := VNull ]> article) "articleId" = VStr key) as ->.
    { unfold get. rewrite lookup_insert_ne by done. apply Hid. }
    cbn [Article.storage_key]. unfold bind, lift, sync_get, gets, ret.
    change (syncStorage kept) with (syncStorage w).
    destruct (syncStorage w !! key) as [ storageInfo |] eqn:Hs.
    - destruct (result_single key storageInfo) as [Hlen Hget].
      apply andb_true_iff in Hlen as [-> _]. by rewrite Hget.
    - unfold keys_length. by rewrite map_size_empty. }
  unfold bind at 1. rewrite Hinfo.
  unfold bind, ret, lift, modify.
  destruct (syncStorage w !! key) as [ storageInfo |] eqn:Hs; cbn [default from_option id].
  - destruct (ArticlesTable.keepArticle storageInfo) as [ [|] | e ]; try done.
    subst kept. simpl. by rewrite list_delete_insert.
  - subst kept. simpl. by rewrite list_delete_insert.
Qed.
End eviction.

(** The specification has the logs of an evicted article removed; they are
    not: an article without a stored record and with a log loses its row
    and keeps its log. *)
Lemma removeArticleIfBoring_keeps_logs :
  let article := <[ "tabId" := num_of_Z 7 ]> (articleOf "123" 50000) in
  let entry := VObj {[ "component" := VStr "Artikel"; "message" := VStr "Tab: 7" ]} in
  let w := set_localStorage {[ "log:123" := [entry] ]} (windowWith [article] ∅) in
  let w' := snd (ArticlesTable.removeArticleIfBoring (num_of_Z 7) w) in
  syncStorage w !! "123" = None
  ∧ table w' = []
  ∧ localStorage w' !! "log:123" = Some [entry].
Proof. vm_compute. repeat split. Qed.

(** C5 (as amended). When the tab of an article goes away, its [tabId]
    becomes [null]; the row is removed from the table if nothing is stored
    for the article, or if the stored record has an [articleMaxBid] property
    and neither [articleMaxBid] nor [articleGroup] is set; the row is kept,
    with [tabId = null], if the stored record has an [articleMaxBid] property
    and one of the two is set.  The logs and the synchronized storage are
    left as they are. *)
Theorem removeArticleIfBoring_evicts (w : window) (tabId : value) (i : nat)
    (article : obj) (key : string) :
  table w !! i = Some article →
  get article "articleId" = VStr key →
  strict_eq (get article "tabId") tabId = true →
  otherRows i tabId key (table w) = true →
  let w' := snd (ArticlesTable.removeArticleIfBoring tabId w) in
  localStorage w' = localStorage w
  ∧ syncStorage w' = syncStorage w
  ∧ (syncStorage w !! key = None → table w' = delete i (table w))
  ∧ (∀ o, syncStorage w !! key = Some (VObj o) → is_Some (o !! "articleMaxBid") →
          table w' = if is_nullish (get o "articleMaxBid") && is_nullish (get o "articleGroup")
                     then delete i (table w)
                     else <[ i := <[ "tabId" := VNull ]> article ]> (table w)).
Proof.
  intros Hrow Hid Htab Hothers w'. subst w'.
  rewrite (removeArticleIfBoring_run w tabId i article key Hrow Hid Htab Hothers).
  cbv zeta. split; [| split; [| split ] ].
  - destruct (syncStorage w !! key) as [ s |]; [| done ].
    by destruct (ArticlesTable.keepArticle s) as [ [|] |].
  - destruct (syncStorage w !! key) as [ s |]; [| done ].
    by destruct (ArticlesTable.keepArticle s) as [ [|] |].
  - by intros ->.
  - intros o -> Hmax. unfold ArticlesTable.keepArticle.
    cbn [is_nullish has_own_property member]. rewrite (proj2 (has_own_true _ _) Hmax).
    by destruct (is_nullish (get o "articleMaxBid")), (is_nullish (get o "articleGroup")).
Qed.

Lemma removeArticleIfBoring_evicts_witness :
  let article := <[ "tabId" := num_of_Z 7 ]> (articleOf "123" 50000) in
  let stored : obj := {[ "articleMaxBid" := num_of_Z 10; "articleGroup" := VNull ]} in
  let w := windowWith [articleOf "456" 60000; article] {[ "123" := VObj stored ]} in
  table (snd (ArticlesTable.removeArticleIfBoring (num_of_Z 7) w))
  = [articleOf "456" 60000; <[ "tabId" := VNull ]> article].
Proof.
  intros article stored w.
  destruct (removeArticleIfBoring_evicts w (num_of_Z 7) 1 article "123"
              eq_refl eq_refl eq_refl eq_refl) as (_ & _ & _ & Hkept).
  rewrite (Hkept stored eq_refl (ex_intro _ (num_of_Z 10) eq_refl)). reflexivity.
Defined.

(** ** Scenarios *)

(** What [articleOf] stands for: the article the constructor makes of an id
    and an end time reported by a tab. *)
Example constructor_articleOf :
  Article.constructor (VObj ∅)
    (VObj {[ "articleId" := VStr "123"; "articleEndTime" := num_of_Z 50000 ]}) VNull
  = Ok (articleOf "123" 50000).
Proof. vm_compute. reflexivity. Qed.

(** An article is seen in tab 7 with nothing stored for it; the user enters
    a maximum bid of 10: the row and the stored record get it, the stored
    record has no [tabId]; then the tab is closed: the row stays, without its
    tab. *)
Example maxBid_entered_then_tab_closed :
  let article := <[ "tabId" := num_of_Z 7 ]> (articleOf "123456" 45000) in
  let w := windowWith [article] ∅ in
  let w1 := snd (ArticlesTable.inputChanged to_string string_to_number
                   "inpMaxBid_123456" "10" false w) in
  let w2 := snd (ArticlesTable.removeArticleIfBoring (num_of_Z 7) w1) in
  table w1 = [<[ "articleMaxBid" := num_of_Z 10 ]> article]
  ∧ storedProperty (syncStorage w1) "123456" "articleMaxBid" = Some (num_of_Z 10)
  ∧ storedFree (syncStorage w1) "123456" = true
  ∧ table w2 = [<[ "tabId" := VNull ]> (<[ "articleMaxBid" := num_of_Z 10 ]> article)].
Proof. vm_compute. repeat split. Qed.

(** With a buy-now price of 10 and a minimum bid of 1, an entry of 12 is
    stored as 9.99 and an entry of 10 as 10. *)
Example maxBid_entered_with_buy_price :
  let article :=
    <[ "articleBuyPrice" := num_of_Z 10 ]>
      (<[ "articleMinimumBid" := num_of_Z 1 ]> (articleOf "123456" 45000)) in
  let stored (entered : string) :=
    storedProperty
      (syncStorage (snd (ArticlesTable.inputChanged to_string string_to_number
                           "inpMaxBid_123456" entered false (windowWith [article] ∅))))
      "123456" "articleMaxBid" in
  stored "12" = Some (VNum (Num (round64 (999 # 100)))) ∧ stored "10" = Some (num_of_Z 10).
Proof. vm_compute. repeat split. Qed.

(** * Further properties of the code *)

(** ** The auto-bid flag of a group *)

Lemma Group_getState_frame name w : snd (Group.getState name w) = w.
Proof.
  unfold Group.getState, sync_get, bind, gets, lift, ret. simpl.
  repeat (match goal with
          | |- context [ if ?b then _ else _ ] => destruct b
          | |- context [ match ?x with _ => _ end ] => destruct x
          end; simpl; try done).
Qed.















(** ** Taking and keeping the ownership of the auto-bid flag *)

(** the [SETTINGS] record as [setSyncState] reads it *)
Lemma setSyncState_enable_run w (flag : value) :
  is_nullish flag = false →
  strict_eq flag (VBool false) = false →
  AutoBid.setSyncState flag w
  = (Ok tt,
     set_syncStorage
       (<[ "SETTINGS" :=
             VObj ({[ "autoBid" := VObj {[ "id" := ownId w; "autoBidEnabled" := flag;
                                            "timestamp" := num_of_Z (clock w) ]} ]}
                   ∪ own_props (get (syncStorage w) "SETTINGS")) ]> (syncStorage w))
       (snd (AutoBid.getId w))).
Proof.
  intros Hnull Hfalse. unfold AutoBid.setSyncState.
  unfold bind at 1. unfold sync_get, gets.
  assert (Hold : (if (keys_length (match syncStorage w !! "SETTINGS" with
                                   | Some v => {[ "SETTINGS" := v ]}
                                   | None => ∅
                                   end : obj) =? 1)%nat
                     && has_own (match syncStorage w !! "SETTINGS" with
                                 | Some v => {[ "SETTINGS" := v ]}
                                 | None => ∅
                                 end) "SETTINGS"
                  then get (match syncStorage w !! "SETTINGS" with
                            | Some v => {[ "SETTINGS" := v ]}
                            | None => ∅
                            end) "SETTINGS"
                  else VObj ∅)
                 = match syncStorage w !! "SETTINGS" with Some v => v | None => VObj ∅ end).
  { destruct (syncStorage w !! "SETTINGS") as [ v |].
    - by destruct (result_single "SETTINGS" v) as [-> ->].
    - by rewrite result_empty. }
  cbv zeta beta. rewrite !Hold. clear Hold.
  unfold bind at 1. destruct (getId_run w) as (-> & Hsync & Hclock & _).
  set (w1 := snd (AutoBid.getId w)) in *. cbn [snd] in Hsync, Hclock.
  unfold bind, gets, lift, ret, sync_set, modify. rewrite Hnull, Hfalse.
  f_equal. f_equal. rewrite Hsync, Hclock, <- insert_union_singleton_l. f_equal. f_equal.
  unfold assign, get. cbn [own_props]. rewrite (right_id ∅ (∪)).
  by destruct (syncStorage w !! "SETTINGS").
Qed.

(** X4. A window that enables auto-bid takes the owner record, whoever
    held it: the record names the window, with the time of the call; the
    other properties of [SETTINGS] and the other keys of the storage are
    kept. *)
Theorem setSyncState_enable_takes_over (w : window) :
  let store := syncStorage (snd (AutoBid.setSyncState (VBool true) w)) in
  syncedOwner store
  = Some (VObj {[ "id" := ownId w; "autoBidEnabled" := VBool true;
                  "timestamp" := num_of_Z (clock w) ]})
  ∧ delete "autoBid" (own_props (get store "SETTINGS"))
    = delete "autoBid" (own_props (get (syncStorage w) "SETTINGS"))
  ∧ delete "SETTINGS" store = delete "SETTINGS" (syncStorage w).
Proof.
  rewrite setSyncState_enable_run by done. cbn [snd syncStorage set_syncStorage].
  split; [| split ].
  - unfold syncedOwner. rewrite lookup_insert_eq.
    apply lookup_union_Some_l, lookup_singleton_eq.
  - unfold get at 1. rewrite lookup_insert_eq. cbn [default from_option id own_props].
    rewrite delete_union, delete_singleton_eq. apply (left_id ∅ (∪)).
  - apply delete_insert_eq.
Qed.

Lemma localState_sessionSettings w w' :
  sessionSettings w' = sessionSettings w → localState w' = localState w.
Proof. unfold localState. by intros ->. Qed.

(** [getState] in the window that the owner record names: the local state,
    without a message, and nothing is written *)
Lemma getState_owner_self (w : window) (rec : obj) (id : value) :
  syncedOwner (syncStorage w) = Some (VObj rec) →
  rec !! "id" = Some id →
  strict_eq id (ownId w) = true →
  AutoBid.getState w
  = (Ok (assign {[ "autoBidEnabled" := VBool false; "simulation" := VBool false;
                   "id" := VNull ]} (VObj (localState w))),
     snd (AutoBid.getId w)).
Proof.
  intros Hown Hid Hself. unfold AutoBid.getState.
  unfold bind at 1. rewrite getLocalState_run.
  unfold bind at 1. rewrite (getSyncState_owner _ _ Hown).
  unfold bind at 1. destruct (getId_run w) as (-> & _).
  set (syncInfo := assign _ (VObj rec)).
  assert (Hsid : syncInfo !! "id" = Some id) by by apply lookup_union_Some_l.
  assert (Hget : get syncInfo "id" = id) by (unfold get; by rewrite Hsid).
  rewrite !Hget, Hself. cbn [negb]. by rewrite !andb_false_r.
Qed.

(** X5. A window that enables auto-bid (not simulating) holds the owner
    record afterwards, whoever held it before, with the time of the call;
    its local flag is on, and [getState] confirms it. *)
Theorem setState_enable_owns (w : window) :
  strict_eq (ownId w) (ownId w) = true →
  let w' := snd (AutoBid.setState (VBool true) (VBool false) w) in
  syncedOwner (syncStorage w')
  = Some (VObj {[ "id" := ownId w; "autoBidEnabled" := VBool true;
                  "timestamp" := num_of_Z (clock w) ]})
  ∧ get (localState w') "autoBidEnabled" = VBool true
  ∧ ∃ info w'', AutoBid.getState w' = (Ok info, w'')
                ∧ get info "autoBidEnabled" = VBool true.
Proof.
  intros Hself.
  set (w1 := snd (AutoBid.setLocalState (VBool true) (VBool false) w)).
  assert (Hid1 : ownId w1 = ownId w) by done.
  assert (Hclock1 : clock w1 = clock w) by done.
  assert (Hlocal1 : get (localState w1) "autoBidEnabled" = VBool true)
    by apply setLocalState_autoBidEnabled.
  pose proof (setSyncState_enable_run w1 (VBool true) eq_refl eq_refl) as Hset.
  rewrite Hid1, Hclock1 in Hset.
  set (w2 := set_syncStorage _ _) in Hset.
  assert (Hid2 : ownId w2 = ownId w).
  { destruct (getId_run w1) as (_ & _ & _ & _ & H). by rewrite <- Hid1, <- H. }
  assert (Hsess2 : sessionSettings w2 = sessionSettings w1).
  { by destruct (getId_run w1) as (_ & _ & _ & H & _). }
  assert (Hown2 : syncedOwner (syncStorage w2)
                  = Some (VObj {[ "id" := ownId w; "autoBidEnabled" := VBool true;
                                  "timestamp" := num_of_Z (clock w) ]})).
  { unfold syncedOwner. cbn [w2 syncStorage set_syncStorage]. rewrite lookup_insert_eq.
    apply lookup_union_Some_l, lookup_singleton_eq. }
  assert (Hrun : ∀ v, syncStorage v = syncStorage w2 → ownId v = ownId w →
                      sessionSettings v = sessionSettings w1 →
                      AutoBid.getState v
                      = (Ok (assign {[ "autoBidEnabled" := VBool false;
                                       "simulation" := VBool false; "id" := VNull ]}
                               (VObj (localState w1))), snd (AutoBid.getId v))).
  { intros v Hs Hi Hse. rewrite <- (localState_sessionSettings _ _ Hse).
    eapply (getState_owner_self v _ (ownId w)).
    - rewrite Hs. exact Hown2.
    - apply lookup_insert_eq.
    - by rewrite Hi. }
  set (w3 := snd (AutoBid.getId w2)).
  assert (Hw : snd (AutoBid.setState (VBool true) (VBool false) w) = w3).
  { unfold AutoBid.setState. cbn [AutoBid.default_arg strict_eq Bool.eqb].
    unfold bind at 1. rewrite setLocalState_run. fold w1.
    unfold catch, AutoBid.renderState, catch. cbn [snd]. unfold bind at 1.
    rewrite Hset. by rewrite (Hrun w2). }
  cbv zeta. rewrite Hw.
  destruct (getId_run w2) as (_ & Hs3 & _ & Hse3 & Hi3). fold w3 in Hs3, Hse3, Hi3.
  split; [ by rewrite Hs3 |]. split.
  - by rewrite (localState_sessionSettings w1 w3) by by rewrite Hse3.
  - eexists _, _. split.
    + apply Hrun; [ done | by rewrite Hi3 | by rewrite Hse3 ].
    + rewrite get_assign_l by (apply localState_has; by left). done.
Qed.

Lemma setState_enable_owns_witness :
  let w' := snd (AutoBid.setState (VBool true) (VBool false) (openedWindow 2 500 (ownedBy "ext:1" 0))) in
  syncedOwner (syncStorage w')
  = Some (VObj {[ "id" := VStr "ext:2"; "autoBidEnabled" := VBool true;
                  "timestamp" := num_of_Z 500 ]})
  ∧ get (localState w') "autoBidEnabled" = VBool true
  ∧ ∃ info w'', AutoBid.getState w' = (Ok info, w'')
                ∧ get info "autoBidEnabled" = VBool true.
Proof.
  apply (setState_enable_owns (openedWindow 2 500 (ownedBy "ext:1" 0))).
  vm_compute. reflexivity.
Defined.

Lemma ownId_not_nullish w : is_nullish (ownId w) = false.
Proof. unfold ownId. by destruct (is_nullish (beWindowId w)) eqn:E. Qed.

(** the owner record after a window enabled auto-bid *)
Lemma setState_enable_store (w : window) :
  syncedOwner (syncStorage (snd (AutoBid.setState (VBool true) (VBool false) w)))
  = Some (VObj {[ "id" := ownId w; "autoBidEnabled" := VBool true;
                  "timestamp" := num_of_Z (clock w) ]}).
Proof.
  unfold AutoBid.setState. cbn [AutoBid.default_arg strict_eq Bool.eqb].
  unfold bind at 1. rewrite setLocalState_run.
  set (w1 := snd (AutoBid.setLocalState (VBool true) (VBool false) w)).
  unfold catch, AutoBid.renderState, catch. cbn [snd]. unfold bind at 1.
  rewrite setSyncState_enable_run by done. cbv beta iota. cbn [snd].
  rewrite sync_frame_getState. cbn [syncStorage set_syncStorage].
  unfold syncedOwner. rewrite lookup_insert_eq.
  apply lookup_union_Some_l, lookup_singleton_eq.
Qed.

(** [getState] in a window that is not simulating, when the owner record
    names another window *)
Lemma getState_other_owner (w : window) (rec : obj) (other : value) :
  syncedOwner (syncStorage w) = Some (VObj rec) →
  rec !! "id" = Some other →
  is_nullish other = false →
  strict_eq other (ownId w) = false →
  get (localState w) "simulation" = VBool false →
  ∃ info w',
    AutoBid.getState w = (Ok info, w')
    ∧ get info "autoBidEnabled" = VBool false
    ∧ get (localState w') "autoBidEnabled" = VBool false.
Proof.
  intros Hown Hid Hnull Hother Hsimulation.
  unfold AutoBid.getState.
  unfold bind at 1. rewrite getLocalState_run.
  unfold bind at 1. rewrite (getSyncState_owner _ _ Hown).
  unfold bind at 1. destruct (getId_run w) as (-> & _ & _ & Hsess & _).
  set (w1 := snd (AutoBid.getId w)) in *.
  set (syncInfo := assign _ (VObj rec)).
  assert (Hsid : syncInfo !! "id" = Some other) by by apply lookup_union_Some_l.
  assert (Hget : get syncInfo "id" = other) by (unfold get; by rewrite Hsid).
  rewrite !Hget. unfold has_own. rewrite Hsid.
  rewrite Hnull, Hother. cbn [negb andb].
  rewrite bool_decide_eq_true_2 by eauto. cbn [andb].
  set (info := assign _ (VObj (localState w))).
  assert (Hsim : get (<[ "messageHtml" :=
                           VStr (AutoBid.getDisableMessage other (get info "autoBidEnabled")
                                   (get info "simulation")) ]> info) "simulation"
                 = VBool false).
  { unfold get at 1. rewrite lookup_insert_ne by done. rewrite <- Hsimulation.
    apply get_assign_l, localState_has. by right. }
  rewrite Hsim. cbn [strict_eq Bool.eqb orb].
  unfold bind, ret. rewrite setLocalState_run.
  eexists _, _. split; [ reflexivity |]. split.
  - unfold get. by rewrite lookup_insert_eq.
  - unfold get at 2. rewrite lookup_insert_eq. cbn [default from_option id].
    apply setLocalState_autoBidEnabled.
Qed.

(** X6. Of two windows that share the synchronized storage, the one that
    enabled auto-bid last wins: when the other window, not simulating,
    reads its state from the storage the enabling window left, its flag is
    off in the state returned and in its local state. *)
Theorem setState_enable_preempts (w1 w2 : window) :
  strict_eq (ownId w2) (ownId w1) = false →
  get (localState w1) "simulation" = VBool false →
  let store := syncStorage (snd (AutoBid.setState (VBool true) (VBool false) w2)) in
  ∃ info w1',
    AutoBid.getState (set_syncStorage store w1) = (Ok info, w1')
    ∧ get info "autoBidEnabled" = VBool false
    ∧ get (localState w1') "autoBidEnabled" = VBool false.
Proof.
  intros Hother Hsim store.
  eapply (getState_other_owner (set_syncStorage store w1) _ (ownId w2)).
  - apply setState_enable_store.
  - apply lookup_insert_eq.
  - apply ownId_not_nullish.
  - exact Hother.
  - exact Hsim.
Qed.

Lemma setState_enable_preempts_witness :
  let w1 := snd (AutoBid.setState (VBool true) (VBool false) (openedWindow 1 0 ∅)) in
  let store := syncStorage (snd (AutoBid.setState (VBool true) (VBool false)
                                   (openedWindow 2 1000 (syncStorage w1)))) in
  ∃ info w1',
    AutoBid.getState (set_syncStorage store w1) = (Ok info, w1')
    ∧ get info "autoBidEnabled" = VBool false
    ∧ get (localState w1') "autoBidEnabled" = VBool false.
Proof.
  intros w1.
  apply (setState_enable_preempts w1 (openedWindow 2 1000 (syncStorage w1))).
  - vm_compute. reflexivity.
  - vm_compute. reflexivity.
Defined.

(** X7. The heartbeat.  In a window whose local flag is on and that is not
    simulating, a run of the dead man's switch writes an owner record that
    names the window, with [autoBidEnabled = null] and the time of the run,
    whichever window the record named before. *)
Theorem deadManSwitch_heartbeat (w : window) (rec : obj) :
  syncedOwner (syncStorage w) = Some (VObj rec) →
  truthy (get (localState w) "autoBidEnabled") = true →
  truthy (get (localState w) "simulation") = false →
  syncedOwner (syncStorage (snd (AutoBid.deadManSwitch w)))
  = Some (VObj {[ "id" := ownId w; "autoBidEnabled" := VNull;
                  "timestamp" := num_of_Z (clock w) ]}).
Proof.
  intros Hown Hon Hsim. unfold AutoBid.deadManSwitch.
  unfold catch at 1. cbn [snd]. unfold bind at 1. rewrite getLocalState_run.
  rewrite Hon, Hsim. cbn [negb andb].
  unfold bind at 1. unfold catch at 1.
  set (w2 := snd (AutoBid.setSyncState VNull w)).
  apply syncedOwner_Some in Hown as (settings & Hs & _).
  assert (Hown2 : syncedOwner (syncStorage w2)
                  = Some (VObj {[ "id" := ownId w; "autoBidEnabled" := VNull;
                                  "timestamp" := num_of_Z (clock w) ]})).
  { unfold w2. rewrite (setSyncState_null_run _ _ Hs).
    unfold syncedOwner. rewrite lookup_insert_eq. apply lookup_singleton_eq. }
  assert (Hclock : clock w2 = clock w).
  { unfold w2, AutoBid.setSyncState.
    unfold bind at 1. rewrite (sync_get_Some _ _ _ Hs).
    destruct (result_single "SETTINGS" (VObj settings)) as [-> ->].
    unfold bind at 1. destruct (getId_run w) as (-> & _ & Hc & _).
    unfold bind, gets, lift, ret, sync_set, modify. simpl. exact Hc. }
  unfold catch. cbn [snd].
  rewrite (removeDeadAutoBid_fresh w2 _ (clock w) Hown2); [ done | | lia ].
  rewrite lookup_insert_ne by done. rewrite lookup_insert_ne by done.
  apply lookup_singleton_eq.
Qed.

Lemma deadManSwitch_heartbeat_witness :
  let w := snd (AutoBid.setState (VBool true) (VBool false) (openedWindow 1 0 ∅)) in
  syncedOwner (syncStorage (snd (AutoBid.deadManSwitch w)))
  = Some (VObj {[ "id" := ownId w; "autoBidEnabled" := VNull;
                  "timestamp" := num_of_Z (clock w) ]}).
Proof.
  intros w.
  apply (deadManSwitch_heartbeat w
           {[ "id" := VStr "ext:1"; "autoBidEnabled" := VBool true;
              "timestamp" := num_of_Z 0 ]}).
  - vm_compute. reflexivity.
  - vm_compute. reflexivity.
  - vm_compute. reflexivity.
Defined.

(** X8. A run of the dead man's switch in a window whose local flag is
    off leaves an owner record that is at most 300 seconds old as it is:
    nothing is written to the synchronized storage. *)
Theorem deadManSwitch_keeps_fresh (w : window) (rec : obj) (ts : Z) :
  syncedOwner (syncStorage w) = Some (VObj rec) →
  rec !! "timestamp" = Some (num_of_Z ts) →
  (clock w - ts ≤ 300000)%Z →
  truthy (get (localState w) "autoBidEnabled") = false →
  syncStorage (snd (AutoBid.deadManSwitch w)) = syncStorage w.
Proof.
  intros Hown Hts Hfresh Hoff. unfold AutoBid.deadManSwitch.
  unfold catch at 1. cbn [snd]. unfold bind at 1. rewrite getLocalState_run.
  rewrite Hoff, andb_false_r.
  unfold bind, ret, catch. cbn [snd].
  by rewrite (removeDeadAutoBid_fresh w rec ts).
Qed.

Lemma deadManSwitch_keeps_fresh_witness :
  syncStorage (snd (AutoBid.deadManSwitch (openedWindow 2 300000 (ownedBy "ext:1" 0))))
  = ownedBy "ext:1" 0.
Proof.
  apply (deadManSwitch_keeps_fresh (openedWindow 2 300000 (ownedBy "ext:1" 0))
           (ownerRecord "ext:1" (VBool true) 0) 0).
  - vm_compute. reflexivity.
  - vm_compute. reflexivity.
  - vm_compute. discriminate.
  - vm_compute. reflexivity.
Defined.

(** ** Merging fresh information into an article *)

Lemma updateField_lookup (info : obj) (f : string * string) this ms n :
  ∃ ms',
    Article.updateField info (this, ms, n) f
    = (if has_own info (snd f) && negb (strict_eq (get info (snd f)) (get this (snd f)))
       then (<[ snd f := get info (snd f) ]> this, ms', S n)
       else (this, ms, n)).
Proof.
  destruct f as [d k]. unfold Article.updateField. cbn [snd].
  destruct (has_own info k && negb (strict_eq (get info k) (get this k))); eauto.
Qed.

(** the steps over the fields: a property is set to the value [info] has
    for it where that differs, and is left alone otherwise; the count tells
    whether any was set *)
Lemma fold_updateField (info : obj) (l : list (string * string)) this ms n :
  NoDup (snd <$> l) →
  ∃ this' ms' n',
    fold_left (Article.updateField info) l (this, ms, n) = (this', ms', n')
    ∧ (n ≤ n')%nat
    ∧ (n' = n → this' = this ∧ ms' = ms)
    ∧ (∀ k, this' !! k
            = if bool_decide (k ∈ snd <$> l) && has_own info k
                 && negb (strict_eq (get info k) (get this k))
              then Some (get info k) else this !! k).
Proof.
  revert this ms n. induction l as [| f l IH ]; intros this ms n Hnd.
  - exists this, ms, n. cbn. repeat split; auto.
  - rewrite fmap_cons in Hnd. apply NoDup_cons in Hnd as [Hf Hnd].
    cbn [fold_left]. destruct (updateField_lookup info f this ms n) as [ms1 ->].
    destruct (has_own info (snd f) && negb (strict_eq (get info (snd f)) (get this (snd f))))
      eqn:Estep.
    + destruct (IH (<[ snd f := get info (snd f) ]> this) ms1 (S n) Hnd)
        as (this' & ms' & n' & -> & Hle & _ & Hlook).
      exists this', ms', n'. split; [ done |]. split; [ lia |]. split; [ lia |].
      intros k. rewrite Hlook, fmap_cons. destruct (decide (k = snd f)) as [-> | Hk].
      * rewrite (bool_decide_eq_false_2 (snd f ∈ snd <$> l)) by done. cbn [andb].
        rewrite lookup_insert_eq.
        rewrite (bool_decide_eq_true_2 (snd f ∈ snd f :: (snd <$> l))) by left.
        cbn [andb]. fold (has_own info (snd f)). by rewrite Estep.
      * rewrite lookup_insert_ne by done. unfold get. rewrite lookup_insert_ne by done.
        destruct (decide (k ∈ snd <$> l)) as [Hin | Hin].
        -- rewrite !bool_decide_eq_true_2; [ done | by right | done ].
        -- rewrite !bool_decide_eq_false_2; [ done | | done ].
           intros [-> | H]%elem_of_cons; done.
    + destruct (IH this ms n Hnd) as (this' & ms' & n' & -> & Hle & Hsame & Hlook).
      exists this', ms', n'. split; [ done |]. split; [ lia |]. split; [ done |].
      intros k. rewrite Hlook, fmap_cons. destruct (decide (k = snd f)) as [-> | Hk].
      * rewrite (bool_decide_eq_false_2 (snd f ∈ snd <$> l)) by done. cbn [andb].
        rewrite (bool_decide_eq_true_2 (snd f ∈ snd f :: (snd <$> l))) by left.
        cbn [andb]. by rewrite Estep.
      * destruct (decide (k ∈ snd <$> l)) as [Hin | Hin].
        -- rewrite !bool_decide_eq_true_2; [ done | by right | done ].
        -- rewrite !bool_decide_eq_false_2; [ done | | done ].
           intros [-> | H]%elem_of_cons; done.
Qed.

Lemma fold_updateField_fixed (info : obj) (l : list (string * string)) this ms n :
  (∀ k, k ∈ snd <$> l → negb (has_own info k) || strict_eq (get info k) (get this k) = true) →
  fold_left (Article.updateField info) l (this, ms, n) = (this, ms, n).
Proof.
  induction l as [| f l IH ]; intros Hall; [ done |].
  cbn [fold_left]. destruct (updateField_lookup info f this ms n) as [ms1 ->].
  assert (Hf : negb (has_own info (snd f)) || strict_eq (get info (snd f)) (get this (snd f)) = true)
    by (apply Hall; rewrite fmap_cons; left).
  destruct (has_own info (snd f)); cbn [negb orb andb] in *.
  - rewrite Hf. cbn [negb]. apply IH. intros k Hk. apply Hall. rewrite fmap_cons. by right.
  - apply IH. intros k Hk. apply Hall. rewrite fmap_cons. by right.
Qed.

Lemma updatedFields_NoDup : NoDup (snd <$> Article.updatedFields).
Proof. apply (bool_decide_unpack _). vm_compute. reflexivity. Qed.

Lemma updatedFields_keys k :
  k ∈ snd <$> Article.updatedFields →
  k ≠ "tabId" ∧ k ≠ "articleAuctionState" ∧ k ≠ "articleAuctionStateText".
Proof.
  intros H. repeat split; intros ->; revert H;
    apply (bool_decide_unpack _); vm_compute; reflexivity.
Qed.

Lemma agreesWith_spec this info :
  agreesWith this info = true
  ↔ ∀ k, k ∈ comparedKeys →
         negb (has_own info k) || strict_eq (get info k) (get this k) = true.
Proof.
  unfold agreesWith. rewrite forallb_forall. split; intros H k Hk; apply H.
  - by apply list_elem_of_In.
  - by apply list_elem_of_In.
Qed.

(** the step for the tab *)
Lemma mergeInfo_unfold this info tabId :
  Article.mergeInfo this info tabId
  = Article.updateAuctionState info
      (fold_left (Article.updateField info) Article.updatedFields
         (if negb (is_nullish tabId) && negb (strict_eq tabId (get this "tabId"))
          then (<[ "tabId" := tabId ]> this,
                [Article.getDiffMessage "Tab" (get this "tabId") tabId], 1%nat)
          else (this, [], 0%nat))).
Proof. done. Qed.

(** a merge that counts no modification made none *)
Lemma mergeInfo_unmodified this info tabId this' ms :
  Article.mergeInfo this info tabId = (this', ms, 0%nat) → this' = this ∧ ms = [].
Proof.
  rewrite mergeInfo_unfold.
  destruct (negb (is_nullish tabId) && negb (strict_eq tabId (get this "tabId"))).
  - destruct (fold_updateField info Article.updatedFields (<[ "tabId" := tabId ]> this)
                [Article.getDiffMessage "Tab" (get this "tabId") tabId] 1 updatedFields_NoDup)
      as (this2 & ms2 & n2 & -> & Hle & _).
    unfold Article.updateAuctionState. destruct (_ && _); intros [= _ _ H]; lia.
  - destruct (fold_updateField info Article.updatedFields this [] 0%nat updatedFields_NoDup)
      as (this2 & ms2 & n2 & -> & _ & Hsame & _).
    unfold Article.updateAuctionState. destruct (_ && _); [ done |].
    intros [= <- <- ->]. by apply Hsame.
Qed.

(** a merge into an article that agrees with the information modifies
    nothing *)
Lemma mergeInfo_fixed this info tabId :
  agreesWith this info = true →
  is_nullish tabId || strict_eq tabId (get this "tabId") = true →
  Article.mergeInfo this info tabId = (this, [], 0%nat).
Proof.
  intros Hagree Htab. rewrite mergeInfo_unfold.
  assert (Hno : negb (is_nullish tabId) && negb (strict_eq tabId (get this "tabId")) = false).
  { destruct (is_nullish tabId); [ done |]. cbn [orb] in Htab. by rewrite Htab. }
  rewrite Hno. rewrite agreesWith_spec in Hagree.
  rewrite fold_updateField_fixed.
  - unfold Article.updateAuctionState.
    assert (H : negb (has_own info "articleAuctionState")
                || strict_eq (get info "articleAuctionState") (get this "articleAuctionState")
                = true).
    { apply Hagree. unfold comparedKeys. apply elem_of_app. right. by left. }
    destruct (has_own info "articleAuctionState"); cbn [negb orb andb] in *; [| done ].
    by rewrite H.
  - intros k Hk. apply Hagree. unfold comparedKeys. apply elem_of_app. by left.
Qed.

(** after a merge the article agrees with the information, where that can
    be compared *)
Lemma mergeInfo_agrees this info tabId :
  comparableInfo info tabId = true →
  let this' := fst (fst (Article.mergeInfo this info tabId)) in
  agreesWith this' info = true
  ∧ is_nullish tabId || strict_eq tabId (get this' "tabId") = true.
Proof.
  unfold comparableInfo, comparable. intros [Htab Hcomp]%andb_prop.
  rewrite forallb_forall in Hcomp.
  rewrite mergeInfo_unfold. cbv zeta.
  set (s1 := if negb (is_nullish tabId) && negb (strict_eq tabId (get this "tabId"))
             then (<[ "tabId" := tabId ]> this,
                   [Article.getDiffMessage "Tab" (get this "tabId") tabId], 1%nat)
             else (this, [], 0%nat)).
  assert (Htab1 : is_nullish tabId || strict_eq tabId (get (fst (fst s1)) "tabId") = true).
  { unfold s1. destruct (is_nullish tabId); [ done |]. cbn [negb andb orb].
    destruct (strict_eq tabId (get this "tabId")) eqn:E; cbn [negb fst].
    - exact E.
    - unfold get. by rewrite lookup_insert_eq. }
  destruct s1 as [[this1 ms1] n1]. cbn [fst] in Htab1.
  destruct (fold_updateField info Article.updatedFields this1 ms1 n1 updatedFields_NoDup)
    as (this2 & ms2 & n2 & -> & _ & _ & Hlook).
  assert (Htab2 : get this2 "tabId" = get this1 "tabId").
  { unfold get. rewrite Hlook.
    by rewrite bool_decide_eq_false_2 by (intros H; by apply updatedFields_keys in H as (? & _)). }
  assert (Hagree2 : ∀ k, k ∈ snd <$> Article.updatedFields →
            negb (has_own info k) || strict_eq (get info k) (get this2 k) = true).
  { intros k Hk. unfold get at 2. rewrite Hlook. rewrite (bool_decide_eq_true_2 _ Hk).
    cbn [andb]. destruct (has_own info k); [| done ]. cbn [negb orb andb].
    destruct (strict_eq (get info k) (get this1 k)) eqn:E; cbn [negb].
    - exact E.
    - cbn [default from_option id]. apply Hcomp, list_elem_of_In.
      unfold comparedKeys. apply elem_of_app. by left. }
  unfold Article.updateAuctionState.
  destruct (has_own info "articleAuctionState"
            && negb (strict_eq (get info "articleAuctionState") (get this2 "articleAuctionState")))
    eqn:Estate; cbn [fst].
  - set (this3 := if has_own info "articleAuctionStateText" then _ else _).
    assert (Hlook3 : ∀ k, k ≠ "articleAuctionStateText" →
              this3 !! k = <[ "articleAuctionState" := get info "articleAuctionState" ]> this2 !! k).
    { intros k Hk. unfold this3. destruct (has_own info "articleAuctionStateText");
        by rewrite lookup_insert_ne. }
    split.
    + apply agreesWith_spec. intros k [Hk | Hk%list_elem_of_singleton]%elem_of_app.
      * unfold get at 2. rewrite Hlook3, lookup_insert_ne.
        -- by apply Hagree2.
        -- intros <-. by apply updatedFields_keys in Hk as (_ & ? & _).
        -- intros ->. by apply updatedFields_keys in Hk as (_ & _ & ?).
      * subst k. unfold get at 2. rewrite Hlook3 by done. rewrite lookup_insert_eq.
        cbn [default from_option id]. rewrite orb_true_iff. right.
        apply Hcomp, list_elem_of_In. unfold comparedKeys. apply elem_of_app. right. by left.
    + unfold get. rewrite Hlook3 by done. rewrite lookup_insert_ne by done.
      fold (get this2 "tabId"). by rewrite Htab2.
  - split; [| by rewrite Htab2 ].
    apply agreesWith_spec. intros k [Hk | Hk%list_elem_of_singleton]%elem_of_app.
    + by apply Hagree2.
    + subst k. destruct (has_own info "articleAuctionState"); [| done ].
      cbn [andb negb orb] in *. by apply negb_false_iff in Estate.
Qed.

Lemma addLog_appends stringify this messageObject w :
  ∃ w', Article.addLog stringify this messageObject w = (Ok tt, w')
        ∧ length (logOf w' this) = S (length (logOf w this))
        ∧ syncStorage w' = syncStorage w ∧ table w' = table w.
Proof.
  unfold Article.addLog, bind, gets, modify. cbv beta iota zeta.
  eexists. split; [ reflexivity |]. split; [| done ].
  unfold logOf. cbn [localStorage set_localStorage]. rewrite lookup_insert_eq.
  cbn [default from_option id]. rewrite length_fmap, length_app. cbn [length]. lia.
Qed.

Lemma updateInfo_unfold stringify this info tabId w :
  Article.updateInfo stringify this info tabId w
  = let s := Article.mergeInfo this info tabId in
    if (0 <? snd s)%nat then
      (Ok (fst (fst s), snd s),
       snd (Article.addLog stringify (fst (fst s))
              {[ "component" := VStr "Artikel"; "level" := VStr "Aktualisierung";
                 "message" := VStr (String.concat "; " (Article.join_text <$> snd (fst s))) ]} w))
    else (Ok (fst (fst s), snd s), w).
Proof.
  unfold Article.updateInfo. destruct (Article.mergeInfo this info tabId) as [[this1 ms] n].
  cbn [fst snd]. destruct (0 <? n)%nat; [| done ].
  unfold bind, ret.
  by destruct (addLog_run stringify this1
                 {[ "component" := VStr "Artikel"; "level" := VStr "Aktualisierung";
                    "message" := VStr (String.concat "; " (Article.join_text <$> ms)) ]} w)
    as [l ->].
Qed.

Lemma mergeInfo_articleId this info tabId :
  get (fst (fst (Article.mergeInfo this info tabId))) "articleId" = get this "articleId".
Proof.
  rewrite mergeInfo_unfold.
  set (s1 := if negb (is_nullish tabId) && negb (strict_eq tabId (get this "tabId"))
             then (<[ "tabId" := tabId ]> this,
                   [Article.getDiffMessage "Tab" (get this "tabId") tabId], 1%nat)
             else (this, [], 0%nat)).
  assert (H1 : get (fst (fst s1)) "articleId" = get this "articleId").
  { unfold s1. destruct (_ && _); [| done ]. cbn [fst]. unfold get. by rewrite lookup_insert_ne. }
  destruct s1 as [[this1 ms1] n1]. cbn [fst] in H1.
  destruct (fold_updateField info Article.updatedFields this1 ms1 n1 updatedFields_NoDup)
    as (this2 & ms2 & n2 & -> & _ & _ & Hlook).
  assert (H2 : get this2 "articleId" = get this "articleId").
  { rewrite <- H1. unfold get. rewrite Hlook.
    by rewrite bool_decide_eq_false_2 by (apply (bool_decide_unpack _); vm_compute; reflexivity). }
  unfold Article.updateAuctionState. destruct (_ && _); [| done ]. cbv zeta. cbn [fst].
  rewrite <- H2. unfold get.
  destruct (has_own info "articleAuctionStateText"); by rewrite !lookup_insert_ne by done.
Qed.

(** X9. [updateInfo] returns 0 exactly when the information brought
    nothing new: the article and the window are as before.  Otherwise one
    entry is added to the log of the article. *)
Theorem updateInfo_count (stringify : value → string) (this info : obj) (tabId : value)
    (w : window) :
  ∃ this' n w',
    Article.updateInfo stringify this info tabId w = (Ok (this', n), w')
    ∧ ((n = 0%nat ∧ this' = this ∧ w' = w)
       ∨ (n ≠ 0%nat ∧ length (logOf w' this) = S (length (logOf w this)))).
Proof.
  rewrite updateInfo_unfold. cbv zeta.
  pose proof (mergeInfo_articleId this info tabId) as Hid.
  destruct (Article.mergeInfo this info tabId) as [[this1 ms] n] eqn:E. cbn [fst snd] in *.
  destruct n as [| n ]; cbn [Nat.ltb Nat.leb].
  - eexists _, _, _. split; [ reflexivity |]. left.
    apply mergeInfo_unmodified in E as [-> _]. done.
  - eexists _, _, _. split; [ reflexivity |]. right. split; [ done |].
    match goal with |- context [ Article.addLog ?s ?t ?m w ] =>
      destruct (addLog_appends s t m w) as (w' & -> & Hlen & _) end.
    cbn [snd]. unfold logOf in *. by rewrite <- Hid.
Qed.

(** X10. After [updateInfo] the article agrees with the information on
    every property the function compares, and a second call with the same
    information modifies nothing and returns 0, provided the values
    brought are equal to themselves (none is [NaN] or an object). *)
Theorem updateInfo_idempotent (stringify : value → string) (this info : obj) (tabId : value)
    (w w' : window) (this' : obj) (n : nat) :
  comparableInfo info tabId = true →
  Article.updateInfo stringify this info tabId w = (Ok (this', n), w') →
  agreesWith this' info = true
  ∧ Article.updateInfo stringify this' info tabId w' = (Ok (this', 0%nat), w').
Proof.
  intros Hcomp. rewrite updateInfo_unfold. cbv zeta.
  destruct (mergeInfo_agrees this info tabId Hcomp) as [Hagree Htab].
  destruct (Article.mergeInfo this info tabId) as [[this1 ms] n1]. cbn [fst snd] in *.
  intros Hrun.
  assert (this' = this1) as -> by (destruct (0 <? n1)%nat; congruence).
  split; [ done |].
  rewrite updateInfo_unfold. cbv zeta. by rewrite (mergeInfo_fixed this1 info tabId).
Qed.

Lemma updateInfo_idempotent_witness :
  match Article.updateInfo (λ _, "") (articleOf "123" 1000)
          {[ "articleId" := VStr "123"; "articleBidPrice" := num_of_Z 5;
             "articleEndTime" := num_of_Z 2000 ]} (num_of_Z 7) (openedWindow 1 0 ∅) with
  | (Ok (this', n), w') =>
      agreesWith this' {[ "articleId" := VStr "123"; "articleBidPrice" := num_of_Z 5;
                          "articleEndTime" := num_of_Z 2000 ]} = true
      ∧ Article.updateInfo (λ _, "") this'
          {[ "articleId" := VStr "123"; "articleBidPrice" := num_of_Z 5;
             "articleEndTime" := num_of_Z 2000 ]} (num_of_Z 7) w'
        = (Ok (this', 0%nat), w')
  | (Throw _, _) => False
  end.
Proof.
  destruct (Article.updateInfo (λ _, "") (articleOf "123" 1000)
              {[ "articleId" := VStr "123"; "articleBidPrice" := num_of_Z 5;
                 "articleEndTime" := num_of_Z 2000 ]} (num_of_Z 7) (openedWindow 1 0 ∅))
    as [ [ [this' n] | e ] w' ] eqn:E.
  - apply (updateInfo_idempotent (λ _, "") (articleOf "123" 1000) _ (num_of_Z 7)
             (openedWindow 1 0 ∅) w' this' n); [| exact E ].
    vm_compute. reflexivity.
  - revert E. vm_compute. discriminate.
Defined.

(** ** Whether the automatic bid of an article is armed *)

Lemma less_than_numeric (a b : value) :
  numeric a = true → numeric b = true →
  less_than a b = match to_number a, to_number b with
                  | Num x, Num y => Some (negb (Qle_bool y x))
                  | _, _ => None
                  end.
Proof. by destruct a, b. Qed.

Lemma js_ge_numeric (a b : value) (x y : Q) :
  numeric a = true → numeric b = true → to_number a = Num x → to_number b = Num y →
  js_ge a b = true ↔ (y <= x)%Q.
Proof.
  intros Ha Hb Hx Hy. unfold js_ge. rewrite less_than_numeric, Hx, Hy by done.
  rewrite <- Qle_bool_iff. by destruct (Qle_bool y x).
Qed.

Lemma js_gt_numeric (a b : value) (x y : Q) :
  numeric a = true → numeric b = true → to_number a = Num x → to_number b = Num y →
  js_gt a b = true ↔ (y < x)%Q.
Proof.
  intros Ha Hb Hx Hy. unfold js_gt. rewrite less_than_numeric, Hy, Hx by done.
  split.
  - destruct (Qle_bool x y) eqn:E; [ done |]. intros _. apply Qnot_le_lt.
    intros H%Qle_bool_iff. congruence.
  - intros H%Qlt_not_le. destruct (Qle_bool x y) eqn:E; [| done ].
    by apply Qle_bool_iff in E.
Qed.

(** X11. For an article whose maximum bid, minimum bid and bid price are
    numbers, [activateAutoBid] holds exactly when the maximum bid is at
    least the minimum bid, if that is at least the price, and above the
    price otherwise; so it never holds for a maximum bid below the price
    or below the minimum bid. *)
Theorem activateAutoBid_numbers (this : obj) (maxBid minBid price : Q) :
  numeric (get this "articleMaxBid") = true →
  numeric (get this "articleMinimumBid") = true →
  numeric (get this "articleBidPrice") = true →
  to_number (get this "articleMaxBid") = Num maxBid →
  to_number (get this "articleMinimumBid") = Num minBid →
  to_number (get this "articleBidPrice") = Num price →
  (Article.activateAutoBid this = true
   ↔ (price <= minBid ∧ minBid <= maxBid)%Q ∨ (minBid < price ∧ price < maxBid)%Q)
  ∧ (Article.activateAutoBid this = true → (minBid <= maxBid ∧ price <= maxBid)%Q).
Proof.
  intros Hn1 Hn2 Hn3 Hmax Hmin Hprice.
  pose proof (js_ge_numeric _ _ _ _ Hn2 Hn3 Hmin Hprice) as H1.
  pose proof (js_ge_numeric _ _ _ _ Hn1 Hn2 Hmax Hmin) as H2.
  pose proof (js_gt_numeric _ _ _ _ Hn1 Hn3 Hmax Hprice) as H3.
  unfold Article.activateAutoBid. cbv zeta.
  destruct (js_ge (get this "articleMinimumBid") (get this "articleBidPrice")) eqn:E1.
  - assert (price <= minBid)%Q by by apply H1.
    split.
    + rewrite H2. split; [ auto | intros [[_ ?] | [? _]]; [ done | lra ] ].
    + rewrite H2. intros ?. split; lra.
  - assert (¬ (price <= minBid)%Q) by (intros ?%H1; done).
    destruct (js_gt (get this "articleMaxBid") (get this "articleBidPrice")) eqn:E3.
    + assert (price < maxBid)%Q by by apply H3.
      split; [ split; [ intros _; right; lra | done ] | intros _; lra ].
    + assert (¬ (price < maxBid)%Q) by (intros ?%H3; done).
      split; [ split; [ done | intros [[? _] | [_ ?]]; done ] | done ].
Qed.

Lemma activateAutoBid_numbers_witness :
  (Article.activateAutoBid
     {[ "articleMaxBid" := VNum (Num 12); "articleMinimumBid" := VNum (Num 11);
        "articleBidPrice" := VNum (Num 10) ]} = true
   ↔ (10 <= 11 ∧ 11 <= 12)%Q ∨ (11 < 10 ∧ 10 < 12)%Q)
  ∧ (Article.activateAutoBid
       {[ "articleMaxBid" := VNum (Num 12); "articleMinimumBid" := VNum (Num 11);
          "articleBidPrice" := VNum (Num 10) ]} = true → (11 <= 12 ∧ 10 <= 12)%Q).
Proof.
  apply (activateAutoBid_numbers
           {[ "articleMaxBid" := VNum (Num 12); "articleMinimumBid" := VNum (Num 11);
              "articleBidPrice" := VNum (Num 10) ]} 12 11 10); reflexivity.
Defined.

Lemma less_than_NaN_l (a b : value) :
  numeric a = true → to_number a = NaN → less_than a b = None.
Proof.
  intros Ha Hnan. unfold less_than.
  destruct a; try done; cbn in *; destruct (to_primitive b); try done;
    try (by destruct (to_number _)); by rewrite Hnan.
Qed.

Lemma less_than_NaN_r (a b : value) :
  numeric b = true → to_number b = NaN → less_than a b = None.
Proof.
  intros Hb Hnan. unfold less_than.
  destruct b; try done; cbn in *; destruct (to_primitive a) eqn:E; try done;
    cbn [to_number]; rewrite ?Hnan;
    repeat match goal with
           | |- context [ match ?x with _ => _ end ] => destruct x
           end; done.
Qed.

(** X12. An article whose maximum bid is not a number ([undefined], [NaN])
    is never armed. *)
Theorem activateAutoBid_without_maxBid (this : obj) :
  numeric (get this "articleMaxBid") = true →
  to_number (get this "articleMaxBid") = NaN →
  Article.activateAutoBid this = false.
Proof.
  intros Hn Hnan. unfold Article.activateAutoBid, js_ge, js_gt. cbv zeta.
  rewrite (less_than_NaN_l _ _ Hn Hnan), (less_than_NaN_r _ _ Hn Hnan).
  by destruct (less_than _ _) as [ [] |].
Qed.

Lemma activateAutoBid_without_maxBid_witness :
  Article.activateAutoBid
    {[ "articleMinimumBid" := VNum (Num 11); "articleBidPrice" := VNum (Num 10) ]} = false.
Proof.
  apply (activateAutoBid_without_maxBid
           {[ "articleMinimumBid" := VNum (Num 11); "articleBidPrice" := VNum (Num 10) ]});
    reflexivity.
Defined.

(** ** The rate limit *)

Lemma checkRateLimit_recorded (name : string) (key : value) (limitMs now now' : Z)
    (rateLimit : Popup.rate_limits) :
  fst (Popup.checkRateLimit name key limitMs now now' rateLimit) = false →
  snd (Popup.checkRateLimit name key limitMs now now' rateLimit) !! name
    ≫= (λ times, times !! to_string key) = Some now'.
Proof.
  unfold Popup.checkRateLimit, Popup.rate_limits in *. cbv zeta.
  destruct (rateLimit !! name ≫= λ times, times !! to_string key) as [ last |].
  - destruct (now - last <? limitMs)%Z; [ done |]. intros _. cbn [snd].
    rewrite lookup_insert_eq. cbn. apply lookup_insert_eq.
  - intros _. cbn [snd]. rewrite lookup_insert_eq. cbn. apply lookup_insert_eq.
Qed.

(** X13. After a call of [checkRateLimit] that let the caller run and
    recorded the time [t0'], a call for the same name and key that reads
    the time [t1] is limited exactly when [t1 - t0' < limitMs]; a limited
    call leaves [Popup.rateLimit] as it is. *)
Theorem checkRateLimit_window (name : string) (key : value) (limitMs t0 t0' t1 t1' : Z)
    (rateLimit : Popup.rate_limits) :
  fst (Popup.checkRateLimit name key limitMs t0 t0' rateLimit) = false →
  let rateLimit' := snd (Popup.checkRateLimit name key limitMs t0 t0' rateLimit) in
  fst (Popup.checkRateLimit name key limitMs t1 t1' rateLimit') = (t1 - t0' <? limitMs)%Z
  ∧ ((t1 - t0' < limitMs)%Z →
     snd (Popup.checkRateLimit name key limitMs t1 t1' rateLimit') = rateLimit').
Proof.
  intros Hrun rateLimit'. pose proof (checkRateLimit_recorded _ _ _ _ _ _ Hrun) as Hrec.
  fold rateLimit' in Hrec. unfold Popup.checkRateLimit at 1 2. cbv zeta. rewrite Hrec.
  destruct (t1 - t0' <? limitMs)%Z eqn:E; [ done |].
  split; [ done |]. intros H. apply Z.ltb_lt in H. congruence.
Qed.

Lemma checkRateLimit_window_witness :
  let rateLimit' := snd (Popup.checkRateLimit "reloadTab" (num_of_Z 7) 60000 1000 1001 ∅) in
  fst (Popup.checkRateLimit "reloadTab" (num_of_Z 7) 60000 31000 31001 rateLimit')
  = (31000 - 1001 <? 60000)%Z
  ∧ ((31000 - 1001 < 60000)%Z →
     snd (Popup.checkRateLimit "reloadTab" (num_of_Z 7) 60000 31000 31001 rateLimit')
     = rateLimit').
Proof.
  apply (checkRateLimit_window "reloadTab" (num_of_Z 7) 60000 1000 1001 31000 31001 ∅).
  reflexivity.
Defined.

(** X14. A call of [checkRateLimit] for a key that has no record under the
    name starts the record of the name afresh: the other keys of the name
    are forgotten, and the next call for any of them is not limited,
    however short the time since its last run. *)
Theorem checkRateLimit_forgets (name : string) (key key' : value)
    (limitMs now now' later later' : Z) (rateLimit : Popup.rate_limits) :
  to_string key' ≠ to_string key →
  rateLimit !! name ≫= (λ times, times !! to_string key) = None →
  let rateLimit' := snd (Popup.checkRateLimit name key limitMs now now' rateLimit) in
  fst (Popup.checkRateLimit name key' limitMs later later' rateLimit') = false.
Proof.
  intros Hkey Hnew rateLimit'. subst rateLimit'.
  unfold Popup.checkRateLimit, Popup.rate_limits in *. cbv zeta. rewrite Hnew. cbn [snd].
  rewrite lookup_insert_eq. cbn [mbind option_bind].
  rewrite lookup_insert_ne by done. by rewrite lookup_empty.
Qed.

Lemma checkRateLimit_forgets_witness :
  let rateLimit := snd (Popup.checkRateLimit "reloadTab" (num_of_Z 7) 60000 1000 1000 ∅) in
  let rateLimit' :=
    snd (Popup.checkRateLimit "reloadTab" (num_of_Z 8) 60000 1001 1001 rateLimit) in
  fst (Popup.checkRateLimit "reloadTab" (num_of_Z 7) 60000 1002 1002 rateLimit') = false.
Proof.
  intros rateLimit.
  apply (checkRateLimit_forgets "reloadTab" (num_of_Z 8) (num_of_Z 7) 60000 1001 1001
           1002 1002 rateLimit).
  - apply (bool_decide_unpack _). vm_compute. reflexivity.
  - vm_compute. reflexivity.
Defined.

(** X15. Starting with the empty [Popup.rateLimit], calls of [reloadTab]
    among which no call is for the same tab as the call before it all
    reload their tab, whatever the times of the calls: the limit of once in
    60 seconds only holds between calls for one tab that follow each other
    directly. *)
Theorem reloadTabs_alternating (calls : list call) :
  forallb (λ c : call, negb (is_nullish (fst c))) calls = true →
  noRepeat calls = true →
  fst (reloadTabs calls ∅) = calls.
Proof.
  assert (Hgen : ∀ (calls : list call) rateLimit,
    forallb (λ c : call, negb (is_nullish (fst c))) calls = true →
    noRepeat calls = true →
    match calls with
    | (a, _) :: _ => rateLimit !! "reloadTab" ≫= (λ times, times !! to_string a) = None
    | [] => True
    end →
    fst (reloadTabs calls rateLimit) = calls).
  { clear calls. induction calls as [| [a [t t']] calls IH ]; intros rateLimit Hnn Hrep Hnew;
      [ done |].
    cbn [forallb fst] in Hnn. apply andb_prop in Hnn as [Ha Hnn].
    apply negb_true_iff in Ha.
    cbn [reloadTabs]. unfold ArticlesTable.reloadTab. rewrite Ha.
    unfold Popup.checkRateLimit, Popup.rate_limits in *. cbv zeta. rewrite Hnew.
    specialize (IH (<[ "reloadTab" := <[ to_string a := t' ]> ∅ ]> rateLimit) Hnn).
    destruct (reloadTabs calls _) as [rest rateLimit'] eqn:E. cbn [fst] in *.
    f_equal. apply IH.
    - destruct calls as [| [b ?] calls ]; [ done |]. cbn [noRepeat] in Hrep.
      by apply andb_prop in Hrep as [_ ?].
    - destruct calls as [| [b ?] calls ]; [ done |]. cbn [noRepeat] in Hrep.
      apply andb_prop in Hrep as [Hab _]. apply negb_true_iff, String.eqb_neq in Hab.
      rewrite lookup_insert_eq. cbn [mbind option_bind].
      rewrite lookup_insert_ne by done. by rewrite lookup_empty. }
  intros Hnn Hrep. apply Hgen; [ done | done |].
  destruct calls as [| [a ?] calls ]; [ done |].
  unfold Popup.rate_limits. by rewrite lookup_empty.
Qed.

Lemma reloadTabs_alternating_witness :
  fst (reloadTabs [ (num_of_Z 7, (1000, 1000)%Z); (num_of_Z 8, (1001, 1001)%Z);
                    (num_of_Z 7, (1002, 1003)%Z); (num_of_Z 8, (1003, 1003)%Z) ] ∅)
  = [ (num_of_Z 7, (1000, 1000)%Z); (num_of_Z 8, (1001, 1001)%Z);
      (num_of_Z 7, (1002, 1003)%Z); (num_of_Z 8, (1003, 1003)%Z) ].
Proof.
  apply (reloadTabs_alternating
           [ (num_of_Z 7, (1000, 1000)%Z); (num_of_Z 8, (1001, 1001)%Z);
             (num_of_Z 7, (1002, 1003)%Z); (num_of_Z 8, (1003, 1003)%Z) ]); reflexivity.
Defined.

(** ** The colour of the text on the icon *)

(** X16. For a colour that starts with [#], as the constructor of
    [Favicon] demands, [getContrastYIQ] answers 'white' whatever the
    colour: [parseInt] of the first two characters is [NaN]. *)
Theorem getContrastYIQ_hash (colour : string) :
  Favicon.getContrastYIQ (String "#"%char colour) = "white".
Proof.
  unfold Favicon.getContrastYIQ. cbv zeta.
  assert (Hr : Favicon.parseInt16 (String.substring 0 2 (String "#"%char colour)) = NaN)
    by by destruct colour.
  by rewrite Hr.
Qed.

Lemma parseInt16_hex2_bytes :
  forallb (λ k : nat,
             match Favicon.parseInt16 (hex2 (Z.of_nat k)) with
             | Num q => (Qnum q =? Z.of_nat k)%Z && (Qden q =? 1)%positive
             | NaN => false
             end) (seq 0 256) = true.
Proof. vm_compute. reflexivity. Qed.

Lemma parseInt16_hex2 (n : Z) :
  (0 ≤ n < 256)%Z → Favicon.parseInt16 (hex2 n) = Num (inject_Z n).
Proof.
  intros Hn. pose proof parseInt16_hex2_bytes as H. rewrite forallb_forall in H.
  specialize (H (Z.to_nat n)). rewrite Z2Nat.id in H by lia.
  destruct (Favicon.parseInt16 (hex2 n)) as [| [a p] ].
  - discriminate H. apply in_seq. lia.
  - apply andb_prop in H as [Ha Hp]; [| apply in_seq; lia ].
    cbn [Qnum Qden] in Ha, Hp. apply Z.eqb_eq in Ha. apply Pos.eqb_eq in Hp. by subst.
Qed.

Lemma double_add_whole (a b : Z) :
  (Z.abs (a + b) ≤ 9007199254740992)%Z →
  double_add (Num (inject_Z a)) (Num (inject_Z b)) = Num (inject_Z (a + b)).
Proof.
  intros H. unfold double_add. f_equal.
  assert (Hsum : (inject_Z a + inject_Z b)%Q = inject_Z (a + b)).
  { unfold Qplus, inject_Z. cbn [Qnum Qden]. by rewrite !Z.mul_1_r. }
  rewrite Hsum. apply round64_whole, wholeNumber_inject_Z. done.
Qed.

(** the rounding of a quotient is between the two neighbours of the exact
    quotient in units of [2 ^ p] *)
Lemma mantissa_bounds (p n : Z) (d : positive) :
  (p < 0)%Z →
  (n * 2 ^ (- p) / Z.pos d ≤ mantissa p n d ≤ n * 2 ^ (- p) / Z.pos d + 1)%Z.
Proof.
  intros Hp. unfold mantissa.
  destruct (0 <=? p)%Z eqn:E; [ apply Z.leb_le in E; lia |]. cbv zeta.
  destruct (_ ?= _)%Z; [ destruct (Z.even _) | |]; lia.
Qed.

Lemma exponent_bounds (n : Z) (d : positive) :
  (Z.log2 n - Z.log2 (Z.pos d) - 1 ≤ exponent n d ≤ Z.log2 n - Z.log2 (Z.pos d))%Z.
Proof. unfold exponent. cbv zeta. destruct (_ <? _)%Z; lia. Qed.

(** the quotient of a sum of at most 255000 by 1000 is at least 128 as a
    double exactly when the sum is at least 128000 *)
Lemma round64_brightness (s : Z) :
  (0 ≤ s ≤ 255000)%Z →
  Qle_bool 128 (round64 (inject_Z s / 1000)) = (128000 <=? s)%Z.
Proof.
  intros Hs.
  assert (Hq : (inject_Z s / 1000 = s # 1000)%Q).
  { unfold Qdiv, Qmult, Qinv, inject_Z. cbn. by rewrite Z.mul_1_r. }
  rewrite Hq. clear Hq. unfold round64. cbn [Qnum Qden].
  change ((Z.pos 1000 =? 1)%Z && (Z.abs s <=? 9007199254740992)%Z) with false. cbv iota.
  destruct (s =? 0)%Z eqn:E0.
  { apply Z.eqb_eq in E0 as ->. done. }
  apply Z.eqb_neq in E0.
  rewrite Z.abs_eq by lia.
  destruct (s <? 0)%Z eqn:Eneg; [ apply Z.ltb_lt in Eneg; lia |]. clear Eneg.
  assert (Hlog : (Z.log2 s ≤ 17)%Z).
  { assert (Z.log2 s < 18)%Z; [| lia ]. apply Z.log2_lt_pow2; lia. }
  pose proof (exponent_bounds s 1000) as He.
  change (Z.log2 (Z.pos 1000)) with 9%Z in He.
  assert (Hlog0 : (0 ≤ Z.log2 s)%Z) by apply Z.log2_nonneg.
  set (p := Z.max (exponent s 1000 - 52) (-1074)).
  assert (Hp : (-1074 ≤ p ≤ -44)%Z) by lia.
  pose proof (mantissa_bounds p s 1000 ltac:(lia)) as Hm.
  set (m := mantissa p s 1000) in *.
  assert (HP : (2 ^ 44 ≤ 2 ^ (- p))%Z) by (apply Z.pow_le_mono_r; lia).
  set (P := (2 ^ (- p))%Z) in *.
  assert (Hr : (inject_Z m * pow2 p == m # Z.to_pos P)%Q).
  { unfold pow2. destruct (0 <=? p)%Z eqn:E; [ apply Z.leb_le in E; lia |].
    unfold Qeq, Qmult, inject_Z. cbn. lia. }
  apply Bool.eq_iff_eq_true. rewrite Qle_bool_iff, Z.leb_le, Qred_correct, Hr.
  unfold Qle. cbn [Qnum Qden]. rewrite Z2Pos.id by lia.
  split.
  - intros H.
    destruct (Z.le_gt_cases 128000 s) as [| Hlt ]; [ done |]. exfalso.
    assert (s * P / 1000 ≤ 127999 * P / 1000)%Z by (apply Z.div_le_mono; nia).
    pose proof (Z.mul_div_le (127999 * P) 1000 ltac:(lia)). nia.
  - intros H.
    assert (Hexp : exponent s 1000 = 7%Z).
    { unfold exponent. cbv zeta. change (Z.log2 (Z.pos 1000)) with 9%Z.
      destruct (Z.le_gt_cases 131072 s).
      - assert (Z.log2 s = 17%Z) as -> by (apply Z.log2_unique; lia).
        change (0 `max` (- (17 - 9)))%Z with 0%Z. change (0 `max` (17 - 9))%Z with 8%Z.
        destruct (_ <? _)%Z eqn:E; [ done | apply Z.ltb_ge in E; lia ].
      - assert (Z.log2 s = 16%Z) as -> by (apply Z.log2_unique; lia).
        change (0 `max` (- (16 - 9)))%Z with 0%Z. change (0 `max` (16 - 9))%Z with 7%Z.
        destruct (_ <? _)%Z eqn:E; [ apply Z.ltb_lt in E; lia | done ]. }
    assert (p = (-45)%Z) as Hp45 by (unfold p; rewrite Hexp; done).
    assert (P = (2 ^ 45)%Z) as HP45 by (unfold P; rewrite Hp45; done).
    assert (128 * P ≤ s * P / 1000)%Z; [| lia ].
    apply Z.div_le_lower_bound; nia.
Qed.

(** X17. For a colour given by the two hexadecimal digits of each of its
    components, without [#], [getContrastYIQ] answers 'black' exactly when
    299 r + 587 g + 114 b is at least 128000: the division by 1000 in
    doubles does not move the threshold. *)
Theorem getContrastYIQ_rgb (r g b : Z) :
  (0 ≤ r < 256)%Z → (0 ≤ g < 256)%Z → (0 ≤ b < 256)%Z →
  Favicon.getContrastYIQ (hex2 r ++ hex2 g ++ hex2 b)
  = if (128000 <=? 299 * r + 587 * g + 114 * b)%Z then "black" else "white".
Proof.
  intros Hr Hg Hb. unfold Favicon.getContrastYIQ. cbv zeta.
  change (String.substring 0 2 (hex2 r ++ hex2 g ++ hex2 b)) with (hex2 r).
  change (String.substring 2 2 (hex2 r ++ hex2 g ++ hex2 b)) with (hex2 g).
  change (String.substring 4 2 (hex2 r ++ hex2 g ++ hex2 b)) with (hex2 b).
  rewrite !parseInt16_hex2 by done.
  change (Num 299) with (Num (inject_Z 299)).
  change (Num 587) with (Num (inject_Z 587)).
  change (Num 114) with (Num (inject_Z 114)).
  rewrite !double_mul_whole, !double_add_whole by lia.
  unfold double_div. change (Qeq_bool 1000 0) with false. cbv iota.
  unfold js_ge, less_than. cbn [to_primitive to_number].
  rewrite round64_brightness by lia.
  replace (r * 299 + g * 587 + b * 114)%Z with (299 * r + 587 * g + 114 * b)%Z by lia.
  by destruct (128000 <=? _)%Z.
Qed.

Lemma getContrastYIQ_rgb_witness :
  Favicon.getContrastYIQ (hex2 255 ++ hex2 255 ++ hex2 255)
  = if (128000 <=? 299 * 255 + 587 * 255 + 114 * 255)%Z then "black" else "white".
Proof. apply (getContrastYIQ_rgb 255 255 255); lia. Defined.

(** ** What a call of [updateArticle] does to storage *)

Lemma updateInfo_frame stringify this info tabId w :
  ∃ w', Article.updateInfo stringify this info tabId w
        = (Ok (fst (fst (Article.mergeInfo this info tabId)),
               snd (Article.mergeInfo this info tabId)), w')
        ∧ syncStorage w' = syncStorage w ∧ table w' = table w.
Proof.
  rewrite updateInfo_unfold. cbv zeta. destruct (0 <? _)%nat; [| by exists w ].
  match goal with |- context [ Article.addLog ?s ?t ?m w ] =>
    destruct (addLog_appends s t m w) as (w' & -> & _ & Hs & Ht) end.
  by exists w'.
Qed.

Lemma row_find selector w :
  ArticlesTable.row selector w
  = (Ok (fst <$> list_find (λ article : obj,
                              "#" ++ to_string (get article "articleId") = selector) (table w)),
     w).
Proof. done. Qed.

Lemma selection_run r w :
  ArticlesTable.selection r w = (Ok (r ≫= λ i, (λ a, (i, a)) <$> table w !! i), w).
Proof. done. Qed.

(** X18. [updateArticle] never creates or removes a record in the
    synchronized storage: what a tab reports about an article is stored
    only where a record of the article exists. *)
Theorem updateArticle_keeps_keys
    (stringify : value → string) (parseFloat : string → number)
    (articleInfo : value) (row_ : option (option nat)) (tabId : value) (w : window) :
  dom (syncStorage (snd (ArticlesTable.updateArticle stringify parseFloat articleInfo row_ tabId w)))
  = dom (syncStorage w).
Proof.
  unfold ArticlesTable.updateArticle.
  assert (Hrest : ∀ r,
    dom (syncStorage (snd (
      (let* r := ArticlesTable.selection r in
       match r with
       | None => ret tt
       | Some (i, article) =>
           let* articleId := lift (member articleInfo "articleId") in
           if negb (strict_eq (get article "articleId") articleId)
           then lift (Throw "updateArticle() ArticleInfo and Row do not match!")
           else
             let* r := Article.updateInfo stringify article (own_props articleInfo) tabId in
             let '(article, modified) := r in
             modify (λ w, set_table (<[ i := article ]> (table w)) w) ;;
             if (0 <? modified)%nat then
               catch (Article.updateInfoInStorage stringify parseFloat article VNull VNull
                        (VBool true))
             else ret tt
       end)%js w))) = dom (syncStorage w)).
  { intros r. unfold bind at 1. rewrite selection_run.
    destruct (r ≫= λ i, (λ a, (i, a)) <$> table w !! i) as [ [i article] |]; [| done ].
    unfold bind at 1, lift at 1. destruct (member articleInfo "articleId") as [ articleId | e ];
      [| done ].
    destruct (negb (strict_eq (get article "articleId") articleId)); [ done |].
    unfold bind at 1.
    destruct (updateInfo_frame stringify article (own_props articleInfo) tabId w)
      as (w1 & -> & Hs1 & _).
    destruct (Article.mergeInfo article (own_props articleInfo) tabId) as [[article' ms] n].
    cbn [fst snd]. unfold bind at 1, modify at 1.
    destruct (0 <? n)%nat; [| cbn; by rewrite Hs1 ].
    unfold catch. cbn [snd].
    destruct (Article.updateInfoInStorage stringify parseFloat article' VNull VNull (VBool true)
                (set_table (<[ i := article' ]> (table w1)) w1)) as [o w2] eqn:E.
    apply updateInfoInStorage_writes in E as [_ [Hs | (key & old & _ & _ & Hs & Hex)]].
    - cbn [snd]. rewrite Hs. cbn. by rewrite Hs1.
    - cbn [snd]. rewrite Hs. cbn [syncStorage set_table] in *. rewrite Hs1 in *.
      apply dom_insert_lookup_L.
      destruct (syncStorage w !! key) eqn:Ek; [ eauto |]. by specialize (Hex eq_refl). }
  destruct row_ as [ r |].
  - unfold bind at 1, ret at 1. apply Hrest.
  - unfold bind at 1. unfold bind at 1, lift at 1.
    destruct (member articleInfo "articleId") as [ articleId | e ]; [| done ].
    rewrite row_find. apply Hrest.
Qed.

(** ** Storing an article and loading it again *)



(** X20. An article whose record was removed gets nothing back: after
    [removeInfoFromStorage] the record of the article is gone from the
    synchronized storage, the other records are as they were, the group
    and the maximum bid of the article are [null] and its automatic bid is
    off, and a following [addInfoFromStorage] leaves the article as it
    is. *)
Theorem removeInfoFromStorage_addInfoFromStorage (this : obj) (w : window) (key : string) :
  get this "articleId" = VStr key →
  ∃ this' w',
    Article.removeInfoFromStorage this w = (Ok this', w')
    ∧ syncStorage w' = delete key (syncStorage w)
    ∧ get this' "articleGroup" = VNull
    ∧ get this' "articleMaxBid" = VNull
    ∧ get this' "articleAutoBid" = VBool false
    ∧ Article.addInfoFromStorage this' w' = (Ok this', w').
Proof.
  intros Hid. unfold Article.removeInfoFromStorage. rewrite Hid.
  cbn [Article.storage_key]. unfold bind, lift, sync_remove, modify, ret. cbn [fst snd].
  eexists _, _. split; [ reflexivity |]. split; [ done |].
  split; [ unfold get; by rewrite lookup_insert_ne, lookup_insert_ne, lookup_insert_eq |].
  split; [ unfold get; by rewrite lookup_insert_ne, lookup_insert_eq |].
  split; [ unfold get; by rewrite lookup_insert_eq |].
  unfold Article.addInfoFromStorage.
  assert (Hid' : get (<[ "articleAutoBid" := VBool false ]>
                        (<[ "articleMaxBid" := VNull ]>
                           (<[ "articleGroup" := VNull ]> this))) "articleId" = VStr key).
  { unfold get in *. by rewrite !lookup_insert_ne. }
  rewrite Hid'. cbn [Article.storage_key].
  unfold bind, lift, sync_get, gets, ret. cbn [fst snd syncStorage set_syncStorage].
  by rewrite lookup_delete_eq.
Qed.

Lemma removeInfoFromStorage_addInfoFromStorage_witness :
  let this := <[ "articleMaxBid" := num_of_Z 12 ]> (articleOf "123" 50000) in
  let w := openedWindow 1 0 {[ "123" := VObj {[ "articleMaxBid" := num_of_Z 12 ]} ]} in
  ∃ this' w',
    Article.removeInfoFromStorage this w = (Ok this', w')
    ∧ syncStorage w' = delete "123" (syncStorage w)
    ∧ get this' "articleGroup" = VNull
    ∧ get this' "articleMaxBid" = VNull
    ∧ get this' "articleAutoBid" = VBool false
    ∧ Article.addInfoFromStorage this' w' = (Ok this', w').
Proof.
  intros this w.
  apply (removeInfoFromStorage_addInfoFromStorage this w "123"). reflexivity.
Defined.
